(** * MeshAudio: session broker / relay router and viewer-side playout

    A shallow embedding of [src/meshaudio.js] (the relay router, module
    [Router]) and of [src/web/meshaudio.js] (the playout scheduler, module
    [Player], and the binary frame parser, module [Client]), together with
    the properties of the specification that were checked against them.

    Conventions of the embedding.
    - JavaScript [Map]s that are only looked up are [gmap]s; [sessions], the
      one map the code iterates over, is an association list in insertion
      order, and so is the [heartbeats] set.
    - A WebSocket object is identified by a number, tagged with the server
      ([agentWss] or [viewerWss]) that produced it.  The properties the code
      reads or writes on it ([readyState], [isAlive]) and the closures it
      registers with [ws.on] are tables indexed by that identity.
    - Every handler is a function from the state to a new state and the list
      of calls it makes on sockets and HTTP responses, in program order.
    - JSON texts are represented by the value they parse to. *)

From stdpp Require Import gmap strings list fin_maps.
From Stdlib Require Import ZArith QArith Qminmax Lqa.
From Stdlib.Strings Require Import Byte.
Close Scope Q_scope.
Open Scope Z_scope.

(** ** JavaScript truthiness of the values that occur in the code *)

(** A query parameter or header is [null]/[undefined] or a string; the only
    falsy string is the empty one. *)
Definition truthy (x : option string) : bool :=
  match x with
  | Some s => negb (String.eqb s "")
  | None => false
  end.

(** [a || b] *)
Definition js_or (a b : option string) : option string :=
  if truthy a then a else b.

(** ** A JavaScript [Map] with string keys, in insertion order *)

Module JsMap.
Section JsMap.
Context {V : Type}.

Fixpoint get (k : string) (m : list (string * V)) : option V :=
  match m with
  | [] => None
  | (k', v) :: r => if decide (k = k') then Some v else get k r
  end.

(** [Map.prototype.set]: an existing key keeps its position. *)
Fixpoint set (k : string) (v : V) (m : list (string * V)) : list (string * V) :=
  match m with
  | [] => [(k, v)]
  | (k', v') :: r =>
      if decide (k = k') then (k, v) :: r else (k', v') :: set k v r
  end.

Fixpoint delete (k : string) (m : list (string * V)) : list (string * V) :=
  match m with
  | [] => []
  | (k', v') :: r =>
      if decide (k = k') then delete k r else (k', v') :: delete k r
  end.

Definition keys (m : list (string * V)) : list string := m.*1.

End JsMap.
End JsMap.

(** * The relay router: [createMeshAudioPlugin] of [src/meshaudio.js] *)

Module Router.

(** ** Sockets *)

(** The two [WebSocketServer]s hand out distinct objects. *)
Inductive ws :=
  | AgentWs (n : nat)
  | ViewerWs (n : nat).

#[global] Instance ws_eq_dec : EqDecision ws.
Proof. solve_decision. Defined.

#[global] Instance ws_countable : Countable ws.
Proof.
  refine (inj_countable'
            (λ w, match w with AgentWs n => inl n | ViewerWs n => inr n end)
            (λ x, match x with inl n => AgentWs n | inr n => ViewerWs n end) _).
  by intros [].
Defined.

(** [WebSocket.CONNECTING / OPEN / CLOSING / CLOSED] *)
Inductive ReadyState := CONNECTING | OPEN | CLOSING | CLOSED.

#[global] Instance ReadyState_eq_dec : EqDecision ReadyState.
Proof. solve_decision. Defined.

(** ** Options of [createMeshAudioPlugin] the handlers read *)

Record Config := {
  agentSecret : string;
  tokenTtlMs : Z;
  allowUnauthenticated : bool;
  maxListenersPerDevice : Z
}.

(** The defaults of the destructuring at the head of the function, with no
    environment variable set. *)
Definition defaultConfig : Config :=
  {| agentSecret := "CHANGE_ME";
     tokenTtlMs := 5 * 60 * 1000;
     allowUnauthenticated := false;
     maxListenersPerDevice := 1 |}.

(** ** Tables *)

(** [{ deviceId, token, userId, expiresAt }] *)
Record Session := {
  deviceId : string;
  token : string;
  userId : string;
  expiresAt : Z
}.

Record State := {
  agents : gmap string nat;                (* deviceId -> ws *)
  sessions : list (string * Session);      (* sessionId -> session *)
  viewers : gmap string nat;               (* sessionId -> ws *)
  activeSessionByDevice : gmap string string; (* deviceId -> sessionId *)
  heartbeats : list ws;
  (* properties of the socket objects *)
  readyState : gmap ws ReadyState;
  isAlive : gmap ws bool;
  (* the closures registered by onAgentConnected, with the deviceId they
     capture, and those of onViewerConnected, with (sessionId, deviceId) *)
  agentListeners : gmap nat string;
  viewerListeners : gmap nat (string * string)
}.

Definition init : State :=
  {| agents := ∅; sessions := []; viewers := ∅; activeSessionByDevice := ∅;
     heartbeats := []; readyState := ∅; isAlive := ∅;
     agentListeners := ∅; viewerListeners := ∅ |}.

Definition set_agents (f : gmap string nat → gmap string nat) (st : State) : State :=
  {| agents := f (agents st); sessions := sessions st; viewers := viewers st;
     activeSessionByDevice := activeSessionByDevice st;
     heartbeats := heartbeats st; readyState := readyState st;
     isAlive := isAlive st; agentListeners := agentListeners st;
     viewerListeners := viewerListeners st |}.

Definition set_sessions (f : list (string * Session) → list (string * Session))
    (st : State) : State :=
  {| agents := agents st; sessions := f (sessions st); viewers := viewers st;
     activeSessionByDevice := activeSessionByDevice st;
     heartbeats := heartbeats st; readyState := readyState st;
     isAlive := isAlive st; agentListeners := agentListeners st;
     viewerListeners := viewerListeners st |}.

Definition set_viewers (f : gmap string nat → gmap string nat) (st : State) : State :=
  {| agents := agents st; sessions := sessions st; viewers := f (viewers st);
     activeSessionByDevice := activeSessionByDevice st;
     heartbeats := heartbeats st; readyState := readyState st;
     isAlive := isAlive st; agentListeners := agentListeners st;
     viewerListeners := viewerListeners st |}.

Definition set_active (f : gmap string string → gmap string string)
    (st : State) : State :=
  {| agents := agents st; sessions := sessions st; viewers := viewers st;
     activeSessionByDevice := f (activeSessionByDevice st);
     heartbeats := heartbeats st; readyState := readyState st;
     isAlive := isAlive st; agentListeners := agentListeners st;
     viewerListeners := viewerListeners st |}.

Definition set_heartbeats (f : list ws → list ws) (st : State) : State :=
  {| agents := agents st; sessions := sessions st; viewers := viewers st;
     activeSessionByDevice := activeSessionByDevice st;
     heartbeats := f (heartbeats st); readyState := readyState st;
     isAlive := isAlive st; agentListeners := agentListeners st;
     viewerListeners := viewerListeners st |}.

Definition set_readyState (f : gmap ws ReadyState → gmap ws ReadyState)
    (st : State) : State :=
  {| agents := agents st; sessions := sessions st; viewers := viewers st;
     activeSessionByDevice := activeSessionByDevice st;
     heartbeats := heartbeats st; readyState := f (readyState st);
     isAlive := isAlive st; agentListeners := agentListeners st;
     viewerListeners := viewerListeners st |}.

Definition set_isAlive (f : gmap ws bool → gmap ws bool) (st : State) : State :=
  {| agents := agents st; sessions := sessions st; viewers := viewers st;
     activeSessionByDevice := activeSessionByDevice st;
     heartbeats := heartbeats st; readyState := readyState st;
     isAlive := f (isAlive st); agentListeners := agentListeners st;
     viewerListeners := viewerListeners st |}.

Definition set_agentListeners (f : gmap nat string → gmap nat string)
    (st : State) : State :=
  {| agents := agents st; sessions := sessions st; viewers := viewers st;
     activeSessionByDevice := activeSessionByDevice st;
     heartbeats := heartbeats st; readyState := readyState st;
     isAlive := isAlive st; agentListeners := f (agentListeners st);
     viewerListeners := viewerListeners st |}.

Definition set_viewerListeners
    (f : gmap nat (string * string) → gmap nat (string * string))
    (st : State) : State :=
  {| agents := agents st; sessions := sessions st; viewers := viewers st;
     activeSessionByDevice := activeSessionByDevice st;
     heartbeats := heartbeats st; readyState := readyState st;
     isAlive := isAlive st; agentListeners := agentListeners st;
     viewerListeners := f (viewerListeners st) |}.

(** ** What the router emits *)

(** The JSON texts and binary frames written to sockets. *)
Inductive Msg :=
  | MStart (sessionId mode : string)   (* { action: 'start', sessionId, mode } *)
  | MStop                              (* { action: 'stop' } *)
  | MStatusReq                         (* { action: 'status' } *)
  | MError (reason : string)           (* { type: 'error', reason } *)
  | MStatus (state : string)           (* { type: 'status', state } *)
  | MViewerConnected (deviceId sessionId : string) (online : bool)
  | MJson (text : string)              (* a relayed device message *)
  | MBinary (data : list byte).

Inductive HttpBody :=
  | BError (error : string)
  | BToken (sessionId token : string) (expiresAt : Z).

Inductive Effect :=
  | Send (w : ws) (m : Msg)                     (* w.send(...) *)
  | Close (w : ws) (code : Z) (reason : string) (* w.close(code, reason) *)
  | Terminate (w : ws)                          (* w.terminate() *)
  | Ping (w : ws)                               (* w.ping() *)
  | Respond (status : Z) (body : HttpBody).     (* res.status(..).json(..) *)

#[global] Instance byte_eq_dec : EqDecision byte := Byte.byte_eq_dec.

#[global] Instance Msg_eq_dec : EqDecision Msg.
Proof. solve_decision. Defined.
#[global] Instance HttpBody_eq_dec : EqDecision HttpBody.
Proof. solve_decision. Defined.
#[global] Instance Effect_eq_dec : EqDecision Effect.
Proof. solve_decision. Defined.

(** How often an effect occurs in a trace. *)
Definition occurrences (e : Effect) (out : list Effect) : nat :=
  length (filter (λ x, x = e) out).

(** ** Socket methods: the part of the [ws] library the router relies on *)

Definition is_open (st : State) (w : ws) : bool :=
  bool_decide (readyState st !! w = Some OPEN).

(** [close] and [terminate] take an open socket to [CLOSING]; its ['close']
    event is delivered later, as an event of its own. *)
Definition shut (w : ws) (rs : gmap ws ReadyState) : gmap ws ReadyState :=
  match rs !! w with
  | Some OPEN => <[w := CLOSING]> rs
  | _ => rs
  end.

Definition ws_close (st : State) (w : ws) (code : Z) (reason : string)
    : State * list Effect :=
  (set_readyState (shut w) st, [Close w code reason]).

Definition ws_terminate (st : State) (w : ws) : State * list Effect :=
  (set_readyState (shut w) st, [Terminate w]).

(** ** The liveness monitor *)

(** [Set.prototype.add] and [delete], in insertion order. *)
Definition set_add (w : ws) (s : list ws) : list ws :=
  if decide (w ∈ s) then s else s ++ [w].

Definition set_delete (w : ws) (s : list ws) : list ws :=
  filter (λ x, x ≠ w) s.

(** [attachHeartbeat]: its ['pong'] and ['close'] listeners are dispatched in
    [handle] below. *)
Definition attachHeartbeat (st : State) (w : ws) : State :=
  set_heartbeats (set_add w) (set_isAlive <[w := true]> st).

Definition pingOne (acc : State * list Effect) (w : ws) : State * list Effect :=
  let '(st, out) := acc in
  if decide (isAlive st !! w = Some false) then
    let '(st1, o) := ws_terminate st w in
    (set_heartbeats (set_delete w) st1, out ++ o)
  else
    (set_isAlive <[w := false]> st, out ++ [Ping w]).

Definition pingAll (st : State) : State * list Effect :=
  fold_left pingOne (heartbeats st) (st, []).

(** ** Token issuance: [POST /token] behind [requireAuth] *)

Record TokenRequest := {
  body_deviceId : option string;       (* req.body.deviceId *)
  req_user : option (option string);   (* req.user, and its _id *)
  req_session_userid : option string   (* req.session.userid *)
}.

Definition requireAuth (cfg : Config) (req : TokenRequest) : bool :=
  if allowUnauthenticated cfg then true
  else if negb (bool_decide (is_Some (req_user req)))
          && negb (truthy (req_session_userid req))
  then false
  else true.

(** [sessionId] and [token] are the two results of [uuidv4()], [now] is
    [Date.now()]. *)
Definition postToken (cfg : Config) (st : State) (req : TokenRequest)
    (sessionId token : string) (now : Z) : State * list Effect :=
  if negb (requireAuth cfg req) then
    (st, [Respond 401 (BError "auth required")])
  else if negb (truthy (body_deviceId req)) then
    (st, [Respond 400 (BError "deviceId required")])
  else
    let deviceId := default "" (body_deviceId req) in
    let userId :=
      default "" (js_or (mjoin (req_user req)) (Some "anonymous")) in
    let expiresAt := now + tokenTtlMs cfg in
    (set_sessions
       (JsMap.set sessionId
          {| deviceId := deviceId; token := token; userId := userId;
             expiresAt := expiresAt |}) st,
     [Respond 200 (BToken sessionId token expiresAt)]).

(** ** [sendToAgent] and [forwardAudio] *)

Definition sendToAgent (st : State) (deviceId : string) (payload : Msg)
    : bool * list Effect :=
  match agents st !! deviceId with
  | Some a =>
      if negb (is_open st (AgentWs a)) then (false, [])
      else (true, [Send (AgentWs a) payload])
  | None => (false, [])
  end.

Definition is_audio (data : list byte) : bool :=
  match data with
  | b :: _ => Byte.eqb b x01
  | [] => false
  end.

Definition forwardAudio (st : State) (deviceId : string) (data : list byte)
    : list Effect :=
  if negb (is_audio data) then []
  else
    match activeSessionByDevice st !! deviceId with
    | Some sessionId =>
        if negb (truthy (Some sessionId)) then []
        else
          match viewers st !! sessionId with
          | Some v =>
              if negb (is_open st (ViewerWs v)) then []
              else [Send (ViewerWs v) (MBinary data)]
          | None => []
          end
    | None => []
    end.

(** ** [cleanupExpiredSessions] *)

Definition sweepOne (now : Z) (acc : State * list Effect)
    (entry : string * Session) : State * list Effect :=
  let '(st, out) := acc in
  let '(sessionId, session) := entry in
  if bool_decide (expiresAt session < now) then
    let '(st1, o1) :=
      match viewers st !! sessionId with
      | Some v => ws_close st (ViewerWs v) 4000 "session expired"
      | None => (st, [])
      end in
    let '(st2, o2) :=
      if bool_decide
           (activeSessionByDevice st1 !! deviceId session = Some sessionId)
      then
        let st' := set_active (delete (deviceId session)) st1 in
        (st', (sendToAgent st' (deviceId session) MStop).2)
      else (st1, []) in
    (set_sessions (JsMap.delete sessionId) st2, out ++ o1 ++ o2)
  else acc.

(** The loop visits every entry present when it starts: the body deletes
    only the entry being visited. *)
Definition cleanupExpiredSessions (st : State) (now : Z) : State * list Effect :=
  fold_left (sweepOne now) (sessions st) (st, []).

(** ** [onAgentConnected] *)

Record AgentRequest := {
  a_query_token : option string;     (* url.searchParams.get('token') *)
  a_header_token : option string;    (* req.headers['x-meshaudio-token'] *)
  a_query_deviceId : option string;  (* url.searchParams.get('deviceId') *)
  a_header_device : option string    (* req.headers['x-meshaudio-device'] *)
}.

(** A frame received from a device: binary, or a text given by the result
    of [JSON.parse] ([None] when it throws). *)
Inductive AgentFrame :=
  | Binary (data : list byte)
  | Text (parsed : option string).

Definition onAgentConnected (cfg : Config) (st : State) (a : nat)
    (req : AgentRequest) : State * list Effect :=
  let token := js_or (a_query_token req) (a_header_token req) in
  let deviceId := js_or (a_query_deviceId req) (a_header_device req) in
  if negb (truthy deviceId)
     || (truthy (Some (agentSecret cfg))
         && negb (bool_decide (token = Some (agentSecret cfg))))
  then ws_close st (AgentWs a) 1008 "unauthorized"
  else
    let d := default "" deviceId in
    let '(st1, o1) :=
      match agents st !! d with
      | Some existing => ws_terminate st (AgentWs existing)
      | None => (st, [])
      end in
    let st2 := set_agents <[d := a]> st1 in
    let st3 := attachHeartbeat st2 (AgentWs a) in
    (set_agentListeners <[a := d]> st3, o1).

(** The ['close'] listener of a device socket; [deviceId] is the variable
    its closure captured. *)
Definition agentOnClose (st : State) (deviceId : string) : State * list Effect :=
  let st1 := set_agents (delete deviceId) st in
  match activeSessionByDevice st1 !! deviceId with
  | Some activeSession =>
      if truthy (Some activeSession) then
        let st2 := set_active (delete deviceId) st1 in
        match viewers st2 !! activeSession with
        | Some v => (st2, [Send (ViewerWs v) (MStatus "agent_disconnected")])
        | None => (st2, [])
        end
      else (st1, [])
  | None => (st1, [])
  end.

(** The ['message'] listener of a device socket. *)
Definition agentOnMessage (st : State) (deviceId : string) (f : AgentFrame)
    : State * list Effect :=
  match f with
  | Binary data => (st, forwardAudio st deviceId data)
  | Text None => (st, [])
  | Text (Some msg) =>
      match activeSessionByDevice st !! deviceId with
      | Some sessionId =>
          if truthy (Some sessionId) then
            match viewers st !! sessionId with
            | Some v => (st, [Send (ViewerWs v) (MJson msg)])
            | None => (st, [])
            end
          else (st, [])
      | None => (st, [])
      end
  end.

(** ** [onViewerConnected] *)

(** The value a viewer's text frame parses to, when it is not [null]: its
    [action] and [mode].  A text that parses to [null] makes the listener
    throw before it does anything; that case is [RouterMore.viewerOnText]. *)
Record ViewerCommand := {
  action : option string;
  mode : option string
}.

Definition onViewerConnected (st : State) (v : nat)
    (sessionId token : option string) (now : Z) : State * list Effect :=
  let session :=
    if truthy sessionId then JsMap.get (default "" sessionId) (sessions st)
    else None in
  match session with
  | None => ws_close st (ViewerWs v) 1008 "invalid session"
  | Some session =>
      if negb (bool_decide (Some (Router.token session) = token))
         || bool_decide (expiresAt session < now)
      then ws_close st (ViewerWs v) 1008 "invalid session"
      else
        let sid := default "" sessionId in
        let deviceId := deviceId session in
        let st1 := set_viewers <[sid := v]> st in
        let st2 := attachHeartbeat st1 (ViewerWs v) in
        let st3 := set_viewerListeners <[v := (sid, deviceId)]> st2 in
        (st3,
         [Send (ViewerWs v)
            (MViewerConnected deviceId sid
               (bool_decide (is_Some (agents st3 !! deviceId))))])
  end.

(** The ['close'] listener of a viewer socket, with the [sessionId] and
    [deviceId] of its closure. *)
Definition viewerOnClose (st : State) (sessionId deviceId : string)
    : State * list Effect :=
  let st1 := set_viewers (delete sessionId) st in
  if bool_decide (activeSessionByDevice st1 !! deviceId = Some sessionId) then
    let st2 := set_active (delete deviceId) st1 in
    (st2, (sendToAgent st2 deviceId MStop).2)
  else (st1, []).

(** The ['message'] listener of the viewer socket [v]. *)
Definition viewerOnMessage (cfg : Config) (st : State) (v : nat)
    (sessionId deviceId : string) (parsed : option ViewerCommand)
    : State * list Effect :=
  match parsed with
  | None => (st, [])
  | Some msg =>
      if bool_decide (action msg = Some "start") then
        let current := activeSessionByDevice st !! deviceId in
        if truthy current && negb (bool_decide (current = Some sessionId))
           && bool_decide (maxListenersPerDevice cfg ≤ 1)
        then (st, [Send (ViewerWs v) (MError "another listener is active")])
        else
          let st1 := set_active <[deviceId := sessionId]> st in
          let '(sent, o) :=
            sendToAgent st1 deviceId
              (MStart sessionId (default "" (js_or (mode msg) (Some "wss")))) in
          if negb sent
          then (st1, o ++ [Send (ViewerWs v) (MError "agent not connected")])
          else (st1, o)
      else if bool_decide (action msg = Some "stop") then
        let st1 := set_active (delete deviceId) st in
        (st1, (sendToAgent st1 deviceId MStop).2)
      else if bool_decide (action msg = Some "status") then
        (st, (sendToAgent st deviceId MStatusReq).2)
      else (st, [])
  end.

(** ** The event loop *)

(** Everything that makes the router run: HTTP requests, new connections,
    frames and events of the sockets, and the two interval timers. *)
Inductive Event :=
  | HttpPostToken (req : TokenRequest) (sessionId token : string) (now : Z)
  | AgentConnection (a : nat) (req : AgentRequest)
  | ViewerConnection (v : nat) (sessionId token : option string) (now : Z)
  | AgentMessage (a : nat) (f : AgentFrame)
  | ViewerMessage (v : nat) (parsed : option ViewerCommand)
  | SocketPong (w : ws)
  | SocketClose (w : ws)
  | SweepTimer (now : Z)
  | PingTimer.

(** The socket went through [attachHeartbeat]. *)
Definition accepted (st : State) (w : ws) : bool :=
  match w with
  | AgentWs a => bool_decide (is_Some (agentListeners st !! a))
  | ViewerWs v => bool_decide (is_Some (viewerListeners st !! v))
  end.

Definition handle (cfg : Config) (st : State) (ev : Event) : State * list Effect :=
  match ev with
  | HttpPostToken req sessionId token now =>
      postToken cfg st req sessionId token now
  | AgentConnection a req =>
      onAgentConnected cfg (set_readyState <[AgentWs a := OPEN]> st) a req
  | ViewerConnection v sessionId token now =>
      onViewerConnected (set_readyState <[ViewerWs v := OPEN]> st) v
        sessionId token now
  | AgentMessage a f =>
      match agentListeners st !! a with
      | Some deviceId => agentOnMessage st deviceId f
      | None => (st, [])
      end
  | ViewerMessage v parsed =>
      match viewerListeners st !! v with
      | Some (sessionId, deviceId) =>
          viewerOnMessage cfg st v sessionId deviceId parsed
      | None => (st, [])
      end
  | SocketPong w =>
      if accepted st w then (set_isAlive <[w := true]> st, []) else (st, [])
  | SocketClose w =>
      let st0 := set_readyState <[w := CLOSED]> st in
      match w with
      | AgentWs a =>
          match agentListeners st !! a with
          | Some deviceId =>
              agentOnClose (set_heartbeats (set_delete w) st0) deviceId
          | None => (st0, [])
          end
      | ViewerWs v =>
          match viewerListeners st !! v with
          | Some (sessionId, deviceId) =>
              viewerOnClose (set_heartbeats (set_delete w) st0)
                sessionId deviceId
          | None => (st0, [])
          end
      end
  | SweepTimer now => cleanupExpiredSessions st now
  | PingTimer => pingAll st
  end.

(** A socket emits events from its connection until its ['close'] event. *)
Definition live (st : State) (w : ws) : bool :=
  match readyState st !! w with
  | Some OPEN | Some CLOSING => true
  | _ => false
  end.

(** A connection event brings a new socket object; the other socket events
    come from live sockets. *)
Definition enabled (st : State) (ev : Event) : bool :=
  match ev with
  | AgentConnection a _ => bool_decide (readyState st !! AgentWs a = None)
  | ViewerConnection v _ _ _ => bool_decide (readyState st !! ViewerWs v = None)
  | AgentMessage a _ => live st (AgentWs a)
  | ViewerMessage v _ => live st (ViewerWs v)
  | SocketPong w => live st w
  | SocketClose w => live st w
  | HttpPostToken _ _ _ _ | SweepTimer _ | PingTimer => true
  end.

Inductive reachable (cfg : Config) : State → Prop :=
  | reachable_init : reachable cfg init
  | reachable_step st ev :
      reachable cfg st → enabled st ev = true →
      reachable cfg (handle cfg st ev).1.

(** Running a list of events from a state, collecting the effects; [None]
    when one of them cannot occur where it stands. *)
Fixpoint run (cfg : Config) (st : State) (evs : list Event)
    : option (State * list Effect) :=
  match evs with
  | [] => Some (st, [])
  | ev :: rest =>
      if enabled st ev then
        let '(st1, o1) := handle cfg st ev in
        match run cfg st1 rest with
        | Some (st2, o2) => Some (st2, o1 ++ o2)
        | None => None
        end
      else None
  end.

(** ** Invariants of the tables *)

Record Inv (st : State) : Prop := {
  (* a pairing never holds the empty session identifier *)
  inv_active : ∀ d s, activeSessionByDevice st !! d = Some s → s ≠ "";
  inv_viewer_sid : ∀ v s d, viewerListeners st !! v = Some (s, d) → s ≠ "";
  (* a registered socket carries the listeners of its own key *)
  inv_agents : ∀ d a, agents st !! d = Some a → agentListeners st !! a = Some d;
  inv_viewers :
    ∀ s v, viewers st !! s = Some v → ∃ d, viewerListeners st !! v = Some (s, d);
  (* sockets with listeners have been seen *)
  inv_agent_known :
    ∀ a d, agentListeners st !! a = Some d → is_Some (readyState st !! AgentWs a);
  inv_viewer_known :
    ∀ v x, viewerListeners st !! v = Some x → is_Some (readyState st !! ViewerWs v);
  inv_sessions : NoDup (JsMap.keys (sessions st))
}.

(** ** Notions used to state the properties *)

(** The state a list of events leads to from the initial one. *)
Definition after (cfg : Config) (evs : list Event) : State :=
  match run cfg init evs with
  | Some (st, _) => st
  | None => init
  end.

(** A frame [data] of the device [d] has a viewer socket [v] to go to: [d]
    has an Active Pairing, the viewer registered for the paired session has
    an open transport, and the frame starts with the audio marker. *)
Definition forwards_to (st : State) (d : string) (data : list byte) (v : nat)
    : Prop :=
  ∃ s, activeSessionByDevice st !! d = Some s ∧ viewers st !! s = Some v ∧
       readyState st !! ViewerWs v = Some OPEN ∧ head data = Some x01.

(** The session a viewer's [sessionId] parameter names in the store. *)
Definition known_session (st : State) (sessionId : option string) (x : Session)
    : Prop :=
  ∃ s, sessionId = Some s ∧ s ≠ "" ∧ JsMap.get s (sessions st) = Some x.

(** The connection attempt of a viewer is closed as an invalid session. *)
Definition rejected (cfg : Config) (st : State) (v : nat)
    (sessionId token : option string) (now : Z) : Prop :=
  (handle cfg st (ViewerConnection v sessionId token now)).2
  = [Close (ViewerWs v) 1008 "invalid session"].

(** The rule of the specification for [Validate]: rejected exactly when the
    session is unknown, the token differs or [now >= expiresAt]. *)
Definition spec_validate (cfg : Config) (st : State) (v : nat)
    (sessionId token : option string) (now : Z) : Prop :=
  rejected cfg st v sessionId token now ↔
  ((∀ x, ¬ known_session st sessionId x) ∨
   (∃ x, known_session st sessionId x ∧
         (Some (Router.token x) ≠ token ∨ now >= expiresAt x))).

(** ** Requests and commands of the examples *)

Definition agentReq (secret d : string) : AgentRequest :=
  {| a_query_token := Some secret; a_header_token := None;
     a_query_deviceId := Some d; a_header_device := None |}.

Definition tokenReq (d : string) : TokenRequest :=
  {| body_deviceId := Some d; req_user := Some (Some "alice");
     req_session_userid := None |}.

Definition command (a : string) : ViewerCommand :=
  {| action := Some a; mode := None |}.

(** Two viewers hold sessions for the device "dev"; the first one is
    paired with it. *)
Definition two_viewers : list Event :=
  [ AgentConnection 1 (agentReq "CHANGE_ME" "dev");
    HttpPostToken (tokenReq "dev") "s1" "t1" 0;
    HttpPostToken (tokenReq "dev") "s2" "t2" 0;
    ViewerConnection 1 (Some "s1") (Some "t1") 10;
    ViewerMessage 1 (Some (command "start"));
    ViewerConnection 2 (Some "s2") (Some "t2") 20 ].

(** One session for "dev", issued at time 0 with the default lifetime: it
    expires at 300000. *)
Definition one_session : list Event :=
  [ HttpPostToken (tokenReq "dev") "s1" "t1" 0 ].

(** The device "dev" connects twice. *)
Definition takeover : list Event :=
  [ AgentConnection 1 (agentReq "CHANGE_ME" "dev");
    AgentConnection 2 (agentReq "CHANGE_ME" "dev") ].

(** A viewer connects with a session for "dev" while no device is
    connected. *)
Definition offline_viewer : list Event :=
  [ HttpPostToken (tokenReq "dev") "s1" "t1" 0;
    ViewerConnection 1 (Some "s1") (Some "t1") 10 ].

(** Two viewers hold sessions for "dev", which is not connected; the first
    has sent [start]. *)
Definition offline_two_viewers : list Event :=
  [ HttpPostToken (tokenReq "dev") "s1" "t1" 0;
    HttpPostToken (tokenReq "dev") "s2" "t2" 0;
    ViewerConnection 1 (Some "s1") (Some "t1") 10;
    ViewerMessage 1 (Some (command "start"));
    ViewerConnection 2 (Some "s2") (Some "t2") 20 ].

(** The reading of the specification for [stop]: while [d] is paired with
    [s1], a [stop] from the viewer socket [v] of another session [s2] for
    [d] removes the pairing and a stop instruction is sent to a socket of
    the device. *)
Definition spec_stop (cfg : Config) (st : State) (d s1 : string) (v : nat)
    (s2 : string) : Prop :=
  activeSessionByDevice st !! d = Some s1 →
  viewerListeners st !! v = Some (s2, d) →
  s2 ≠ s1 →
  activeSessionByDevice
    (handle cfg st (ViewerMessage v (Some (command "stop")))).1 !! d = None ∧
  ∃ a, agentListeners st !! a = Some d ∧
       Send (AgentWs a) MStop
       ∈ (handle cfg st (ViewerMessage v (Some (command "stop")))).2.

(** *** The sweep *)

(** What the visit of one entry emits, read off the state in which the loop
    starts. *)
Definition sweepEffects (now : Z) (st : State) (entry : string * Session)
    : list Effect :=
  if bool_decide (expiresAt entry.2 < now) then
    match viewers st !! entry.1 with
    | Some v => [Close (ViewerWs v) 4000 "session expired"]
    | None => []
    end
    ++ (if bool_decide
             (activeSessionByDevice st !! deviceId entry.2 = Some entry.1)
        then (sendToAgent st (deviceId entry.2) MStop).2
        else [])
  else [].

(** The visit of an entry removes the session [s] as the pairing of [d]. *)
Definition unpairs (now : Z) (d s : string) (entry : string * Session) : bool :=
  bool_decide (entry.1 = s ∧ deviceId entry.2 = d ∧ expiresAt entry.2 < now).

(** The visit of an entry deletes the key [k] of the store. *)
Definition expires (now : Z) (k : string) (entry : string * Session) : bool :=
  bool_decide (entry.1 = k ∧ expiresAt entry.2 < now).

(** A stop instruction written to a socket of the device [d]. *)
Definition stop_for (st : State) (d : string) (e : Effect) : bool :=
  match e with
  | Send (AgentWs a) MStop => bool_decide (agentListeners st !! a = Some d)
  | _ => false
  end.

(** The notice a viewer gets when its session expires. *)
Definition expiry_notice (v : nat) : Effect :=
  Close (ViewerWs v) 4000 "session expired".

(** The reading of the specification for [Sweep(now)]. *)
Definition spec_sweep (cfg : Config) (st : State) (now : Z) : Prop :=
  ∀ sid x, JsMap.get sid (sessions st) = Some x →
    (expiresAt x < now →
       JsMap.get sid (sessions (handle cfg st (SweepTimer now)).1) = None ∧
       (activeSessionByDevice st !! deviceId x = Some sid →
          activeSessionByDevice (handle cfg st (SweepTimer now)).1
            !! deviceId x = None ∧
          length (filter (λ e, stop_for st (deviceId x) e = true)
                    (handle cfg st (SweepTimer now)).2) = 1%nat ∧
          (∀ v, viewers st !! sid = Some v →
                occurrences (expiry_notice v)
                  (handle cfg st (SweepTimer now)).2 = 1%nat))) ∧
    (expiresAt x >= now →
       JsMap.get sid (sessions (handle cfg st (SweepTimer now)).1) = Some x ∧
       (∀ d, activeSessionByDevice st !! d = Some sid →
             activeSessionByDevice (handle cfg st (SweepTimer now)).1 !! d
             = Some sid)).

(** The viewer of [offline_viewer] has sent [start]. *)
Definition offline_paired : list Event :=
  offline_viewer ++ [ ViewerMessage 1 (Some (command "start")) ].

(** "dev" is paired with the session of a viewer; the device socket misses
    a round of the liveness monitor and is terminated by the next one, and
    its ['close'] event has yet to come. *)
Definition half_open_device : list Event :=
  [ AgentConnection 1 (agentReq "CHANGE_ME" "dev");
    HttpPostToken (tokenReq "dev") "s1" "t1" 0;
    ViewerConnection 1 (Some "s1") (Some "t1") 10;
    ViewerMessage 1 (Some (command "start"));
    PingTimer;
    SocketPong (ViewerWs 1);
    PingTimer ].

(** The same with a second viewer, connected with a session of its own. *)
Definition half_open_two_viewers : list Event :=
  [ AgentConnection 1 (agentReq "CHANGE_ME" "dev");
    HttpPostToken (tokenReq "dev") "s1" "t1" 0;
    HttpPostToken (tokenReq "dev") "s2" "t2" 0;
    ViewerConnection 1 (Some "s1") (Some "t1") 10;
    ViewerMessage 1 (Some (command "start"));
    ViewerConnection 2 (Some "s2") (Some "t2") 20;
    PingTimer;
    SocketPong (ViewerWs 1);
    SocketPong (ViewerWs 2);
    PingTimer ].

End Router.

(** * The playout scheduler: [MeshAudioPlayer] of [src/web/meshaudio.js] *)

(** Times are JavaScript numbers, in seconds; they are embedded as exact
    rationals, so the rounding of binary64 arithmetic is not part of the
    model. *)

Module Player.

(** The fields of a decoded [AudioData] that [handleDecoded] reads. *)
Record AudioData := {
  timestamp : Z;            (* microseconds *)
  numberOfChannels : nat;
  numberOfFrames : N;
  sampleRate : positive
}.

(** [audioBuffer.duration] of the buffer created for the data: its length
    in sample-frames over its sample rate. *)
Definition duration (a : AudioData) : Q :=
  Qmake (Z.of_N (numberOfFrames a)) (sampleRate a).

Record Player := {
  ready : bool;                    (* this.ctx and this.gain are set *)
  playHead : Q;
  baseTimestampUs : option Q;      (* null until the first frame *)
  playStart : Q;
  jitterSec : Q
}.

(** The constructor, and the state [init()] leaves. *)
Definition new : Player :=
  {| ready := false; playHead := 0%Q; baseTimestampUs := None;
     playStart := 0%Q; jitterSec := (8 # 100)%Q |}.

Definition initialised : Player :=
  {| ready := true; playHead := 0%Q; baseTimestampUs := None;
     playStart := 0%Q; jitterSec := (8 # 100)%Q |}.

Inductive Effect :=
  | SrcStart (startAt : Q) (a : AudioData)   (* src.start(startAt) *)
  | DataClose.                               (* audioData.close() *)

(** [Math.max(a, b, c)] *)
Definition max3 (a b c : Q) : Q := Qmax a (Qmax b c).

(** [Number(audioData.timestamp || 0)] *)
Definition timestampUs (a : AudioData) : Q := inject_Z (timestamp a).

(** The first frame after a (re)start fixes the base timestamp and the
    playout origin; [now] is [ctx.currentTime]. *)
Definition prime (p : Player) (now : Q) (a : AudioData) : Player :=
  match baseTimestampUs p with
  | None =>
      {| ready := ready p;
         playHead := (now + jitterSec p)%Q;
         baseTimestampUs := Some (timestampUs a);
         playStart := (now + jitterSec p)%Q;
         jitterSec := jitterSec p |}
  | Some _ => p
  end.

(** [relSeconds] and [targetTime], for a player past [prime]. *)
Definition relSeconds (p : Player) (a : AudioData) : Q :=
  ((timestampUs a - default 0 (baseTimestampUs p)) / 1000000)%Q.

Definition targetTime (p : Player) (a : AudioData) : Q :=
  (playStart p + relSeconds p a)%Q.

(** The time the frame is scheduled at. *)
Definition startAt (p : Player) (now : Q) (a : AudioData) : Q :=
  let p1 := prime p now a in
  max3 now (playHead p1) (targetTime p1 a).

Definition handleDecoded (p : Player) (now : Q) (a : AudioData)
    : Player * list Effect :=
  if negb (ready p) then (p, [DataClose])
  else
    let p1 := prime p now a in
    let targetTime := targetTime p1 a in
    let startAt := max3 now (playHead p1) targetTime in
    ({| ready := ready p1;
        playHead := (startAt + duration a)%Q;
        baseTimestampUs := baseTimestampUs p1;
        playStart := playStart p1;
        jitterSec := jitterSec p1 |},
     [SrcStart startAt a; DataClose]).

(** [reset()], with [ctx.currentTime] when there is a context. *)
Definition reset (p : Player) (now : Q) : Player :=
  {| ready := ready p;
     playHead := if ready p then now else 0%Q;
     baseTimestampUs := None;
     playStart := 0%Q;
     jitterSec := jitterSec p |}.

(** ** A streaming session *)

(** What the scheduler decided for one frame. *)
Record Scheduled := {
  s_now : Q;        (* the clock when the frame was handled *)
  s_playHead : Q;   (* the playhead it was compared with *)
  s_target : Q;     (* its target time *)
  s_startAt : Q;    (* the time it was started at *)
  s_end : Q         (* the playhead it left: its scheduled end *)
}.

(** The frames of a session, each with the clock at which it is handled, are
    handled in order. *)
Fixpoint play (p : Player) (frames : list (Q * AudioData)) : list Scheduled :=
  match frames with
  | [] => []
  | (now, a) :: rest =>
      match handleDecoded p now a with
      | (p', SrcStart s _ :: _) =>
          {| s_now := now;
             s_playHead := playHead (prime p now a);
             s_target := targetTime (prime p now a) a;
             s_startAt := s;
             s_end := playHead p' |} :: play p' rest
      | (p', _) => play p' rest
      end
  end.

(** The reading of the specification for a late frame: its start is no
    earlier than the playhead, and is the playhead when its target time is
    behind the playhead. *)
Definition spec_late (e : Scheduled) : Prop :=
  (s_playHead e <= s_startAt e)%Q ∧
  ((s_target e < s_playHead e)%Q → (s_startAt e == s_playHead e)%Q).

(** A decoded frame of 20 ms at 48 kHz with the given timestamp. *)
Definition frame20 (timestampMs : Z) : AudioData :=
  {| timestamp := timestampMs * 1000; numberOfChannels := 2;
     numberOfFrames := 960; sampleRate := 48000 |}.

(** A session that stalls: the first frame is handled at clock 0, the
    second at 0.5 s and the third at 0.7 s. *)
Definition stalled : list (Q * AudioData) :=
  [ (0, frame20 0); (5 # 10, frame20 20); (7 # 10, frame20 40) ]%Q.

End Player.

(** * The viewer's frame parser: [MeshAudioClient.handleBinary] *)

Module Client.

(** The value of a byte. *)
Definition u8 (b : byte) : Z := Z.of_N (Byte.to_N b).

(** ** [DataView] accessors, little-endian, as [handleBinary] uses them
    (every offset it reads lies within the first 13 bytes) *)

Fixpoint le (bs : list byte) : Z :=
  match bs with
  | [] => 0
  | b :: rest => u8 b + 256 * le rest
  end.

Definition getUint8 (buffer : list byte) (offset : nat) : Z :=
  le (take 1 (drop offset buffer)).

Definition getUint32 (buffer : list byte) (offset : nat) : Z :=
  le (take 4 (drop offset buffer)).

Definition getBigInt64 (buffer : list byte) (offset : nat) : Z :=
  let u := le (take 8 (drop offset buffer)) in
  if u <? 2 ^ 63 then u else u - 2 ^ 64.

(** The number nearest to an integer: [Number(bigint)], and the result of
    an addition of integer-valued numbers whose exact sum is the argument.
    Integers up to 2^53 in magnitude are numbers; beyond, the 53 leading bits
    are kept, rounding to nearest, ties to even. *)
Definition toNumber (z : Z) : Z :=
  let a := Z.abs z in
  if a <? 2 ^ 53 then z
  else
    let e := Z.log2 a - 52 in
    let q := a / 2 ^ e in
    let r := a mod 2 ^ e in
    let half := 2 ^ (e - 1) in
    let q' := if (half <? r) || ((r =? half) && Z.odd q) then q + 1 else q in
    Z.sgn z * (q' * 2 ^ e).

(** ** The client *)

Record Env := {
  hasGetBigInt64 : bool   (* typeof view.getBigInt64 === 'function' *)
}.

Record State := {
  state : string;
  decoder : bool;         (* this.player.decoder is set *)
  onStatus : bool         (* typeof this.onStatus === 'function' *)
}.

Inductive Effect :=
  (* decoder.decode(new EncodedAudioChunk({ type: 'key', timestamp, data })) *)
  | Decode (timestamp : Z) (data : list byte)
  (* this.onStatus(state) *)
  | Status (state : string).

(** [MeshAudioPlayer.enqueue] *)
Definition enqueue (st : State) (opusPayload : list byte) (timestampMs : Z)
    : list Effect :=
  if negb (decoder st) then []
  else [Decode (timestampMs * 1000) opusPayload].

Definition setState (st : State) (s : string) : State * list Effect :=
  ({| state := s; decoder := decoder st; onStatus := onStatus st |},
   if onStatus st then [Status s] else []).

(** The header fields and the payload [handleBinary] takes from a message it
    does not drop. *)
Record Frame := {
  seq : Z;
  timestampMs : Z;
  payload : list byte
}.

Definition parse (env : Env) (buffer : list byte) : option Frame :=
  if (length buffer <? 13)%nat then None
  else
    let type := getUint8 buffer 0 in
    if negb (type =? 1) then None
    else
      let seq := getUint32 buffer 1 in
      let timestampMs :=
        if hasGetBigInt64 env then toNumber (getBigInt64 buffer (1 + 4))
        else
          let lo := getUint32 buffer (1 + 4) in
          let hi := getUint32 buffer (1 + 4 + 4) in
          toNumber (hi * 4294967296 + lo) in
      (* timestampMs is never NaN *)
      Some {| seq := seq; timestampMs := timestampMs;
              payload := drop (1 + 4 + 8) buffer |}.

Definition handleBinary (env : Env) (st : State) (buffer : list byte)
    : State * list Effect :=
  match parse env buffer with
  | None => (st, [])
  | Some f =>
      let o1 := enqueue st (payload f) (timestampMs f) in
      if negb (String.eqb (state st) "streaming") then
        let '(st', o2) := setState st "streaming" in (st', o1 ++ o2)
      else (st, o1)
  end.

(** ** The wire format, in the words of the specification *)

Definition byte_at (buffer : list byte) (i : nat) : Z :=
  default 0 (u8 <$> buffer !! i).

(** Bytes 1-4: little-endian sequence number. *)
Definition wire_seq (buffer : list byte) : Z :=
  byte_at buffer 1 + 2 ^ 8 * byte_at buffer 2 + 2 ^ 16 * byte_at buffer 3
  + 2 ^ 24 * byte_at buffer 4.

(** Bytes 5-12: little-endian 64-bit presentation timestamp. *)
Definition wire_timestamp (buffer : list byte) : Z :=
  byte_at buffer 5 + 2 ^ 8 * byte_at buffer 6 + 2 ^ 16 * byte_at buffer 7
  + 2 ^ 24 * byte_at buffer 8 + 2 ^ 32 * byte_at buffer 9
  + 2 ^ 40 * byte_at buffer 10 + 2 ^ 48 * byte_at buffer 11
  + 2 ^ 56 * byte_at buffer 12.

(** The two's-complement reading of 64 bits. *)
Definition signed64 (u : Z) : Z := if u <? 2 ^ 63 then u else u - 2 ^ 64.

(** A message with sequence number 7, timestamp 20 ms and three payload
    bytes. *)
Definition sample_message : list byte :=
  [ x01; x07; x00; x00; x00; x14; x00; x00; x00; x00; x00; x00; x00;
    xaa; xbb; xcc ].

End Client.

(** * Further notions for the router *)

Module RouterMore.
Import Router.

(** The connection attempt of a device is closed as unauthorized. *)
Definition agent_rejected (cfg : Config) (st : State) (a : nat)
    (req : AgentRequest) : Prop :=
  (handle cfg st (AgentConnection a req)).2
  = [Close (AgentWs a) 1008 "unauthorized"].

(** What the text of a viewer's frame is to [JSON.parse]. *)
Inductive ViewerText :=
  | NotJson                        (* JSON.parse throws; the catch returns *)
  | JsonNull                       (* the text parses to null *)
  | JsonValue (msg : ViewerCommand).
      (* any other value, with the action and mode read off it *)

(** How a listener ends. *)
Inductive Outcome :=
  | Returns (r : State * list Effect)
  | Throws.                        (* a TypeError leaves the listener *)

(** The ['message'] listener of the viewer socket [v], from the text of the
    frame: [msg.action] is read after the [try], so that a text that parses
    to [null] makes the listener throw. *)
Definition viewerOnText (cfg : Config) (st : State) (v : nat)
    (sessionId deviceId : string) (text : ViewerText) : Outcome :=
  match text with
  | NotJson => Returns (viewerOnMessage cfg st v sessionId deviceId None)
  | JsonNull => Throws
  | JsonValue msg =>
      Returns (viewerOnMessage cfg st v sessionId deviceId (Some msg))
  end.

(** A text frame on the viewer socket [v]: its listener runs if the socket
    was given one. *)
Definition viewerFrame (cfg : Config) (st : State) (v : nat)
    (text : ViewerText) : Outcome :=
  match viewerListeners st !! v with
  | Some (sessionId, deviceId) => viewerOnText cfg st v sessionId deviceId text
  | None => Returns (st, [])
  end.

(** What the liveness monitor keeps about the sockets it watches: each is
    watched once, went through [attachHeartbeat], and has not had its
    ['close'] event handled. *)
Record Watched (st : State) : Prop := {
  watched_once : NoDup (heartbeats st);
  watched_accepted : ∀ w, w ∈ heartbeats st → accepted st w = true;
  watched_live : ∀ w, w ∈ heartbeats st → live st w = true
}.

(** What a round of [pingAll] does to one watched socket, read off the state
    in which the round starts. *)
Definition pingEffect (st : State) (w : ws) : Effect :=
  if decide (isAlive st !! w = Some false) then Terminate w else Ping w.

(** The device "dev" and a viewer paired with it, both watched. *)
Definition paired_stream : list Event :=
  [ AgentConnection 1 (agentReq "CHANGE_ME" "dev");
    HttpPostToken (tokenReq "dev") "s1" "t1" 0;
    ViewerConnection 1 (Some "s1") (Some "t1") 10;
    ViewerMessage 1 (Some (command "start")) ].

End RouterMore.

(** * [buildOpusHead] of [src/web/meshaudio.js] *)

Module Opus.

(** [ToUint8] of an integer, as a byte. *)
Definition byte_of_Z (z : Z) : byte :=
  default x00 (Byte.of_N (Z.to_N (z mod 256))).

(** [DataView] setters on a buffer, little-endian where they take the flag;
    [buildOpusHead] writes within its 19 bytes only. *)
Definition setUint8 (buffer : list byte) (offset : nat) (value : Z) : list byte :=
  <[offset := byte_of_Z value]> buffer.

Definition setUint16 (buffer : list byte) (offset : nat) (value : Z) : list byte :=
  setUint8 (setUint8 buffer offset value) (offset + 1) (value / 256).

Definition setUint32 (buffer : list byte) (offset : nat) (value : Z) : list byte :=
  setUint16 (setUint16 buffer offset value) (offset + 2) (value / 65536).

(** "OpusHead" *)
Definition magic : list Z := [79; 112; 117; 115; 72; 101; 97; 100].

Definition buildOpusHead (sampleRate channels : Z) : list byte :=
  let buffer := replicate 19 x00 in
  (* magic.forEach((b, idx) => view.setUint8(idx, b)) *)
  let buffer :=
    fold_left (λ buf ib, setUint8 buf ib.1 ib.2)
      (combine (seq 0 (length magic)) magic) buffer in
  let buffer := setUint8 buffer 8 1 in            (* version *)
  let buffer := setUint8 buffer 9 channels in
  let buffer := setUint16 buffer 10 312 in        (* pre-skip *)
  let buffer := setUint32 buffer 12 sampleRate in
  let buffer := setUint16 buffer 16 0 in          (* output gain *)
  setUint8 buffer 18 0.                           (* channel mapping family *)

End Opus.

(** * Text frames and the widget of [src/web/meshaudio.js] *)

Module Ui.

(** The object a text frame of the viewer socket parses to; a frame that
    does not parse, or parses to [null], is [None] there (the [catch] of
    [handleText] takes both). *)
Record TextMessage := {
  type : option string;
  mstate : option string;   (* msg.state *)
  reason : option string
}.

Inductive Notice :=
  | Callback (e : Client.Effect)     (* this.onStatus(state) *)
  | OnError (message : string)       (* this.onError(message) *)
  | Warn.                            (* console.warn('Bad message', ...) *)

(** [MeshAudioClient.handleText]; [onError] tells whether the client was
    given that callback. *)
Definition handleText (onError : bool) (st : Client.State)
    (parsed : option TextMessage) : Client.State * list Notice :=
  match parsed with
  | None => (st, [Warn])
  | Some msg =>
      if bool_decide (type msg = Some "status") then
        let '(st1, o1) :=
          Client.setState st (default "" (js_or (mstate msg) (Some "unknown"))) in
        if bool_decide (mstate msg = Some "error") && onError then
          (st1, (Callback <$> o1)
                ++ [OnError (default "" (js_or (reason msg) (Some "Agent error")))])
        else (st1, Callback <$> o1)
      else if bool_decide (type msg = Some "error") && onError then
        let '(st1, o1) := Client.setState st "error" in
        (st1, OnError (default "" (js_or (reason msg) (Some "Stream error")))
              :: (Callback <$> o1))
      else (st, [])
  end.

(** The text frame the router's [Msg] is for the client. *)
Definition of_router (m : Router.Msg) : option TextMessage :=
  match m with
  | Router.MError r =>
      Some {| type := Some "error"; mstate := None; reason := Some r |}
  | Router.MStatus s =>
      Some {| type := Some "status"; mstate := Some s; reason := None |}
  | Router.MViewerConnected _ _ _ =>
      Some {| type := Some "viewer_connected"; mstate := None; reason := None |}
  | _ => None
  end.

(** The elements [updateStatus] writes. *)
Record Widget := {
  statusClass : string;     (* statusEl.className *)
  toggleText : string;      (* toggleBtn.textContent *)
  toggleDisabled : bool;    (* toggleBtn.disabled *)
  note : string             (* noteEl.textContent *)
}.

Definition updateStatus (state : string) : Widget :=
  let cls := ("meshaudio__status meshaudio__status--" ++ state)%string in
  if String.eqb state "streaming" then
    {| statusClass := cls; toggleText := "Stop Audio"; toggleDisabled := false;
       note := "Streaming system audio" |}
  else if String.eqb state "starting" then
    {| statusClass := cls; toggleText := "Starting..."; toggleDisabled := true;
       note := "Starting stream" |}
  else if String.eqb state "agent_disconnected" then
    {| statusClass := cls; toggleText := "Start Audio"; toggleDisabled := false;
       note := "Agent disconnected" |}
  else if String.eqb state "error" then
    {| statusClass := cls; toggleText := "Start Audio"; toggleDisabled := false;
       note := "Error starting audio" |}
  else
    {| statusClass := cls; toggleText := "Start Audio"; toggleDisabled := false;
       note := "" |}.

(** The callbacks [mountMeshAudioUI] gives the client: [onStatus] is
    [updateStatus], [onError] writes the note. *)
Definition render (w : Widget) (n : Notice) : Widget :=
  match n with
  | Callback (Client.Status s) => updateStatus s
  | OnError message =>
      {| statusClass := statusClass w; toggleText := toggleText w;
         toggleDisabled := toggleDisabled w;
         note := if String.eqb message "" then "Audio error" else message |}
  | _ => w
  end.

(** The widget after the callbacks of one text frame. *)
Definition shown (w : Widget) (notices : list Notice) : Widget :=
  foldl render w notices.

(** What a click on the toggle calls, by the state of the client. *)
Inductive Click := CallStart | CallStop.

Definition onToggleClick (state : string) : Click :=
  if String.eqb state "idle" || String.eqb state "error" then CallStart
  else CallStop.

End Ui.

(** * Streams for the playout scheduler *)

Module Stream.
Import Player.




End Stream.

(** * The client over a run of binary messages *)

Module Session.
Import Client.

(** The messages of the socket handled one after the other by
    [handleBinary], with the effects in the order they happen. *)
Fixpoint receive (env : Env) (st : State) (buffers : list (list byte))
    : State * list Effect :=
  match buffers with
  | [] => (st, [])
  | buffer :: rest =>
      let '(st1, o1) := handleBinary env st buffer in
      let '(st2, o2) := receive env st1 rest in
      (st2, o1 ++ o2)
  end.

(** The states given to [onStatus], in order. *)
Definition statuses (effects : list Effect) : list string :=
  omap (λ e, match e with Status s => Some s | _ => None end) effects.

(** The chunks given to the decoder, in order. *)
Definition decoded (effects : list Effect) : list (Z * list byte) :=
  omap (λ e, match e with Decode t d => Some (t, d) | _ => None end) effects.

(** The messages [handleBinary] does not drop. *)
Definition frames (env : Env) (buffers : list (list byte)) : list Frame :=
  omap (parse env) buffers.

End Session.
(** * Facts about the embedding *)

Lemma truthy_Some (s : string) : truthy (Some s) = true ↔ s ≠ "".
Proof.
  simpl. destruct (String.eqb_spec s ""); simpl; split; intros; congruence.
Qed.

Lemma truthy_is_Some (x : option string) :
  truthy x = true → ∃ s, x = Some s ∧ s ≠ "".
Proof.
  destruct x as [s|]; [|discriminate].
  intros H. exists s. split; [done|]. by apply truthy_Some.
Qed.

(** A property kept by every iteration of a loop holds when it ends. *)
Lemma fold_left_preserves {A B : Type} (P : A → Prop) (f : A → B → A)
    (l : list B) (a : A) :
  (∀ a b, P a → P (f a b)) → P a → P (fold_left f l a).
Proof.
  intros Hf. revert a. induction l as [|b l IH]; simpl; intros a Ha; [done|].
  by apply IH, Hf.
Qed.

Module JsMapFacts.
Import JsMap.
Section JsMapFacts.
Context {V : Type}.
Implicit Types (m : list (string * V)) (k : string) (v : V).

Lemma get_None_keys k m : get k m = None ↔ k ∉ keys m.
Proof.
  induction m as [|[k' v] r IH]; simpl.
  - split; [intros _; apply not_elem_of_nil | done].
  - case_decide as Hk.
    + subst. split; [done|]. intros H. exfalso. apply H. left.
    + rewrite IH, not_elem_of_cons. tauto.
Qed.

Lemma get_Some_elem k v m : get k m = Some v → (k, v) ∈ m.
Proof.
  induction m as [|[k' v'] r IH]; simpl; [done|].
  case_decide as Hk.
  - intros [= ->]. subst. left.
  - intros H. right. by apply IH.
Qed.

Lemma elem_get k v m : NoDup (keys m) → (k, v) ∈ m → get k m = Some v.
Proof.
  induction m as [|[k' v'] r IH]; simpl.
  - intros _ H. by apply elem_of_nil in H.
  - rewrite NoDup_cons. intros [Hk' Hnd] H.
    apply elem_of_cons in H as [[= -> ->]|H].
    + by rewrite decide_True.
    + case_decide as Hk; [|by apply IH].
      subst k'. exfalso. apply Hk'.
      apply (list_elem_of_fmap_2 fst) in H. exact H.
Qed.

Lemma keys_set k v m :
  keys (set k v m) = if decide (k ∈ keys m) then keys m else keys m ++ [k].
Proof.
  unfold keys. induction m as [|[k' v'] r IH]; csimpl.
  - destruct (decide (k ∈ [])) as [Hin|_]; [|done].
    by apply elem_of_nil in Hin.
  - destruct (decide (k = k')) as [->|Hk]; csimpl.
    + destruct (decide (k' ∈ k' :: r.*1)) as [_|Hn]; [done|].
      exfalso. apply Hn. left.
    + rewrite IH.
      destruct (decide (k ∈ r.*1)) as [Hin|Hin];
        destruct (decide (k ∈ k' :: r.*1)) as [Hin'|Hin']; try done.
      * exfalso. apply Hin'. by right.
      * apply elem_of_cons in Hin' as [?|?]; done.
Qed.

Lemma NoDup_set k v m : NoDup (keys m) → NoDup (keys (set k v m)).
Proof.
  intros Hnd. rewrite keys_set. case_decide as Hin; [done|].
  apply NoDup_app. split_and!; [done | | apply NoDup_singleton].
  intros x Hx Hx'. apply list_elem_of_singleton in Hx'. by subst.
Qed.

Lemma get_set k v m k' :
  get k' (set k v m) = if decide (k' = k) then Some v else get k' m.
Proof.
  induction m as [|[k0 v0] r IH]; simpl.
  - repeat case_decide; congruence.
  - repeat (case_decide; simpl; subst); try congruence.
Qed.

Lemma keys_delete_sub k m x : x ∈ keys (delete k m) → x ∈ keys m.
Proof.
  unfold keys. induction m as [|[k0 v0] r IH]; csimpl; [done|].
  destruct (decide (k = k0)) as [->|Hk]; csimpl.
  - intros Hx. right. by apply IH.
  - rewrite !elem_of_cons. intros [->|Hx]; [by left | right; by apply IH].
Qed.

Lemma NoDup_delete k m : NoDup (keys m) → NoDup (keys (delete k m)).
Proof.
  unfold keys. induction m as [|[k0 v0] r IH]; csimpl; [done|].
  rewrite NoDup_cons. intros [Hk0 Hnd].
  destruct (decide (k = k0)) as [->|Hk]; csimpl; [by apply IH|].
  apply NoDup_cons. split; [|by apply IH].
  intros Hin. apply Hk0. by apply keys_delete_sub in Hin.
Qed.

Lemma get_delete k m k' :
  get k' (delete k m) = if decide (k' = k) then None else get k' m.
Proof.
  induction m as [|[k0 v0] r IH]; simpl.
  - by case_decide.
  - repeat (case_decide; simpl; subst); try congruence.
Qed.
End JsMapFacts.
End JsMapFacts.

Module RouterSpec.
Import Router.

Lemma run_reachable cfg evs : ∀ st st' out,
  reachable cfg st → run cfg st evs = Some (st', out) → reachable cfg st'.
Proof.
  induction evs as [|ev rest IH]; simpl; intros st st' out Hst Hrun.
  - by inversion Hrun; subst.
  - destruct (enabled st ev) eqn:Hen; [|done].
    destruct (handle cfg st ev) as [st1 o1] eqn:Hh.
    destruct (run cfg st1 rest) as [[st2 o2]|] eqn:Hr; [|done].
    inversion Hrun; subst. eapply IH; [|exact Hr].
    replace st1 with (handle cfg st ev).1 by (by rewrite Hh).
    by constructor.
Qed.

Lemma shut_is_Some w rs w' : is_Some (shut w rs !! w') ↔ is_Some (rs !! w').
Proof.
  unfold shut. destruct (rs !! w) as [[]|] eqn:Hw; try done.
  destruct (decide (w = w')) as [->|Hne].
  - rewrite lookup_insert_eq, Hw. split; eauto.
  - by rewrite lookup_insert_ne.
Qed.

Lemma shut_lookup_ne w rs w' : w ≠ w' → shut w rs !! w' = rs !! w'.
Proof.
  intros Hne. unfold shut. destruct (rs !! w) as [[]|]; try done.
  by rewrite lookup_insert_ne.
Qed.

Lemma shut_lookup_eq w rs :
  shut w rs !! w = match rs !! w with Some OPEN => Some CLOSING | x => x end.
Proof.
  unfold shut. destruct (rs !! w) as [[]|] eqn:Hw; try done.
  by rewrite lookup_insert_eq.
Qed.

Lemma Inv_init : Inv init.
Proof. split; simpl; try (intros; simplify_map_eq; done). constructor. Qed.

Lemma Inv_readyState f st :
  (∀ w, is_Some (readyState st !! w) → is_Some (f (readyState st) !! w)) →
  Inv st → Inv (set_readyState f st).
Proof. intros Hf []. split; simpl; eauto. Qed.

Lemma Inv_shut w st : Inv st → Inv (set_readyState (shut w) st).
Proof. apply Inv_readyState. intros w'. by rewrite shut_is_Some. Qed.

Lemma Inv_ready_insert w rs st :
  Inv st → Inv (set_readyState <[w := rs]> st).
Proof.
  apply Inv_readyState. intros w' Hw'.
  destruct (decide (w = w')) as [->|Hne].
  - rewrite lookup_insert_eq. eauto.
  - by rewrite lookup_insert_ne.
Qed.

Lemma Inv_heartbeats f st : Inv st → Inv (set_heartbeats f st).
Proof. intros []. by split. Qed.

Lemma Inv_isAlive f st : Inv st → Inv (set_isAlive f st).
Proof. intros []. by split. Qed.

Lemma Inv_active_delete d st : Inv st → Inv (set_active (delete d) st).
Proof.
  intros []. split; simpl; eauto.
  intros d' s' H'. apply lookup_delete_Some in H' as [_ H']. eauto.
Qed.

Lemma Inv_active_insert d s st :
  s ≠ "" → Inv st → Inv (set_active <[d := s]> st).
Proof.
  intros Hs []. split; simpl; eauto.
  intros d' s' H'. apply lookup_insert_Some in H' as [[_ <-]|[_ H']]; eauto.
Qed.

Lemma Inv_agents_delete d st : Inv st → Inv (set_agents (delete d) st).
Proof.
  intros []. split; simpl; eauto.
  intros d' a' H'. apply lookup_delete_Some in H' as [_ H']. eauto.
Qed.

Lemma Inv_viewers_delete s st : Inv st → Inv (set_viewers (delete s) st).
Proof.
  intros []. split; simpl; eauto.
  intros s' v' H'. apply lookup_delete_Some in H' as [_ H']. eauto.
Qed.

Lemma Inv_sessions_delete s st : Inv st → Inv (set_sessions (JsMap.delete s) st).
Proof. intros []. split; simpl; eauto. by apply JsMapFacts.NoDup_delete. Qed.

Lemma Inv_sessions_set s x st : Inv st → Inv (set_sessions (JsMap.set s x) st).
Proof. intros []. split; simpl; eauto. by apply JsMapFacts.NoDup_set. Qed.

(** Registering the new device socket [a] under [d]. *)
Lemma Inv_agent_register d a st :
  agentListeners st !! a = None →
  is_Some (readyState st !! AgentWs a) →
  Inv st →
  Inv (set_agentListeners <[a := d]> (set_agents <[d := a]> st)).
Proof.
  intros Hfresh Hknown []. split; simpl; eauto.
  - intros d' a' H'. apply lookup_insert_Some in H' as [[<- <-]|[Hne H']].
    + by rewrite lookup_insert_eq.
    + rewrite lookup_insert_ne; [eauto|].
      intros <-. apply inv_agents0 in H'. congruence.
  - intros a' d' H'. apply lookup_insert_Some in H' as [[<- <-]|[_ H']]; eauto.
Qed.

(** Registering the new viewer socket [v] under the session [s]. *)
Lemma Inv_viewer_register s d v st :
  s ≠ "" →
  viewerListeners st !! v = None →
  is_Some (readyState st !! ViewerWs v) →
  Inv st →
  Inv (set_viewerListeners <[v := (s, d)]> (set_viewers <[s := v]> st)).
Proof.
  intros Hs Hfresh Hknown []. split; simpl; eauto.
  - intros v' s' d' H'.
    apply lookup_insert_Some in H' as [[<- [= <- <-]]|[_ H']]; eauto.
  - intros s' v' H'. apply lookup_insert_Some in H' as [[<- <-]|[Hne H']].
    + exists d. by rewrite lookup_insert_eq.
    + rewrite lookup_insert_ne; [eauto|].
      intros <-. apply inv_viewers0 in H' as [d' H']. congruence.
  - intros v' x H'. apply lookup_insert_Some in H' as [[<- <-]|[_ H']]; eauto.
Qed.

Lemma Inv_attachHeartbeat st w : Inv st → Inv (attachHeartbeat st w).
Proof. intros H. by apply Inv_heartbeats, Inv_isAlive. Qed.

Lemma Inv_postToken cfg st req sid tok now :
  Inv st → Inv (postToken cfg st req sid tok now).1.
Proof.
  intros H. unfold postToken.
  destruct (negb (requireAuth cfg req)); [done|].
  destruct (negb (truthy (body_deviceId req))); [done|].
  by apply Inv_sessions_set.
Qed.

Lemma Inv_pingOne acc w : Inv acc.1 → Inv (pingOne acc w).1.
Proof.
  destruct acc as [st out]. simpl. intros H.
  case_decide; simpl.
  - by apply Inv_heartbeats, Inv_shut.
  - by apply Inv_isAlive.
Qed.

Lemma Inv_pingAll st : Inv st → Inv (pingAll st).1.
Proof.
  intros H. unfold pingAll.
  apply (fold_left_preserves (λ acc, Inv acc.1)); [|done].
  intros acc w. apply Inv_pingOne.
Qed.

Lemma Inv_sweepOne now acc e : Inv acc.1 → Inv (sweepOne now acc e).1.
Proof.
  destruct acc as [st out], e as [sid x]. simpl. intros H.
  case_bool_decide; [|done].
  destruct (viewers st !! sid) as [v|]; simpl.
  - case_bool_decide; simpl.
    + by apply Inv_sessions_delete, Inv_active_delete, Inv_shut.
    + by apply Inv_sessions_delete, Inv_shut.
  - case_bool_decide; simpl.
    + by apply Inv_sessions_delete, Inv_active_delete.
    + by apply Inv_sessions_delete.
Qed.

Lemma Inv_cleanupExpiredSessions st now :
  Inv st → Inv (cleanupExpiredSessions st now).1.
Proof.
  intros H. unfold cleanupExpiredSessions.
  apply (fold_left_preserves (λ acc, Inv acc.1)); [|done].
  intros acc e. apply Inv_sweepOne.
Qed.

Lemma Inv_onAgentConnected cfg st a req :
  readyState st !! AgentWs a = None →
  Inv st →
  Inv (onAgentConnected cfg (set_readyState <[AgentWs a := OPEN]> st) a req).1.
Proof.
  intros Hfresh H.
  assert (agentListeners st !! a = None) as Hl.
  { destruct (agentListeners st !! a) as [d|] eqn:E; [|done].
    apply (inv_agent_known _ H) in E as [? E]. congruence. }
  unfold onAgentConnected.
  set (deviceId := js_or _ _). set (token := js_or (a_query_token req) _).
  destruct (negb (truthy deviceId) || _).
  { by apply Inv_shut, Inv_ready_insert. }
  set (st0 := set_readyState _ st).
  assert (∃ st1 o1,
    match agents st0 !! default "" deviceId with
    | Some existing => ws_terminate st0 (AgentWs existing)
    | None => (st0, [])
    end = (st1, o1) ∧ Inv st1 ∧ agentListeners st1 !! a = None ∧
    is_Some (readyState st1 !! AgentWs a)) as (st1 & o1 & -> & H1 & Hl1 & Hk1).
  { destruct (agents st0 !! default "" deviceId) as [ex|].
    - eexists _, _. split; [done|]. split_and!.
      + by apply Inv_shut, Inv_ready_insert.
      + done.
      + simpl. apply shut_is_Some. rewrite lookup_insert_eq. eauto.
    - eexists _, _. split; [done|]. split_and!.
      + by apply Inv_ready_insert.
      + done.
      + simpl. rewrite lookup_insert_eq. eauto. }
  simpl.
  change (Inv (attachHeartbeat
                 (set_agentListeners <[a := default "" deviceId]>
                    (set_agents <[default "" deviceId := a]> st1))
                 (AgentWs a))).
  by apply Inv_attachHeartbeat, Inv_agent_register.
Qed.

Lemma Inv_agentOnClose st d : Inv st → Inv (agentOnClose st d).1.
Proof.
  intros H. unfold agentOnClose.
  destruct (activeSessionByDevice _ !! d) as [s|]; simpl.
  - destruct (negb (String.eqb s "")); simpl.
    + destruct (viewers _ !! s); simpl;
        by apply Inv_active_delete, Inv_agents_delete.
    + by apply Inv_agents_delete.
  - by apply Inv_agents_delete.
Qed.

Lemma agentOnMessage_state st d f : (agentOnMessage st d f).1 = st.
Proof.
  unfold agentOnMessage. destruct f as [data|[msg|]]; try done.
  destruct (activeSessionByDevice st !! d) as [s|]; [|done].
  destruct (truthy (Some s)); [|done].
  by destruct (viewers st !! s).
Qed.

Lemma Inv_onViewerConnected st v sid tok now :
  readyState st !! ViewerWs v = None →
  Inv st →
  Inv (onViewerConnected (set_readyState <[ViewerWs v := OPEN]> st) v
         sid tok now).1.
Proof.
  intros Hfresh H.
  assert (viewerListeners st !! v = None) as Hl.
  { destruct (viewerListeners st !! v) as [x|] eqn:E; [|done].
    apply (inv_viewer_known _ H) in E as [? E]. congruence. }
  unfold onViewerConnected.
  destruct (truthy sid) eqn:Hsid; simpl.
  2: { by apply Inv_shut, Inv_ready_insert. }
  apply truthy_is_Some in Hsid as (s & -> & Hs). simpl.
  destruct (JsMap.get s (sessions st)) as [x|]; simpl.
  2: { by apply Inv_shut, Inv_ready_insert. }
  destruct (negb _ || _); simpl.
  { by apply Inv_shut, Inv_ready_insert. }
  set (st0 := set_readyState _ st).
  change (Inv (attachHeartbeat
                 (set_viewerListeners <[v := (s, deviceId x)]>
                    (set_viewers <[s := v]> st0))
                 (ViewerWs v))).
  apply Inv_attachHeartbeat, Inv_viewer_register; try done.
  - simpl. rewrite lookup_insert_eq. eauto.
  - by apply Inv_ready_insert.
Qed.

Lemma Inv_viewerOnClose st s d : Inv st → Inv (viewerOnClose st s d).1.
Proof.
  intros H. unfold viewerOnClose. case_bool_decide; simpl.
  - by apply Inv_active_delete, Inv_viewers_delete.
  - by apply Inv_viewers_delete.
Qed.

Lemma Inv_viewerOnMessage cfg st v s d parsed :
  s ≠ "" → Inv st → Inv (viewerOnMessage cfg st v s d parsed).1.
Proof.
  intros Hs H. unfold viewerOnMessage.
  destruct parsed as [msg|]; [|done].
  destruct (bool_decide (action msg = Some "start")).
  { destruct (truthy _ && _ && _); [done|].
    destruct (sendToAgent _ d _) as [[] o]; simpl; by apply Inv_active_insert. }
  destruct (bool_decide (action msg = Some "stop")).
  { by apply Inv_active_delete. }
  by destruct (bool_decide (action msg = Some "status")).
Qed.

Lemma Inv_handle cfg st ev :
  enabled st ev = true → Inv st → Inv (handle cfg st ev).1.
Proof.
  intros Hen H. destruct ev; simpl in *.
  - by apply Inv_postToken.
  - apply Inv_onAgentConnected; [|done]. by case_bool_decide.
  - apply Inv_onViewerConnected; [|done]. by case_bool_decide.
  - destruct (agentListeners st !! a); [|done].
    by rewrite agentOnMessage_state.
  - destruct (viewerListeners st !! v) as [[s d]|] eqn:E; [|done].
    apply Inv_viewerOnMessage; [|done]. by eapply inv_viewer_sid.
  - destruct (accepted st w); [|done]. by apply Inv_isAlive.
  - destruct w as [a|v].
    + destruct (agentListeners st !! a).
      * by apply Inv_agentOnClose, Inv_heartbeats, Inv_ready_insert.
      * by apply Inv_ready_insert.
    + destruct (viewerListeners st !! v) as [[s d]|].
      * by apply Inv_viewerOnClose, Inv_heartbeats, Inv_ready_insert.
      * by apply Inv_ready_insert.
  - by apply Inv_cleanupExpiredSessions.
  - by apply Inv_pingAll.
Qed.

Lemma reachable_Inv cfg st : reachable cfg st → Inv st.
Proof.
  induction 1 as [|st ev _ IH Hen]; [apply Inv_init | by apply Inv_handle].
Qed.

Lemma after_reachable cfg evs : reachable cfg (after cfg evs).
Proof.
  unfold after. destruct (run cfg init evs) as [[st out]|] eqn:E.
  - eapply run_reachable; [apply reachable_init | exact E].
  - apply reachable_init.
Qed.

(** ** The single-listener policy *)

(** C1: when the device [d] is paired to the session [s1] and the viewer
    socket [v], connected with another session [s2] for [d], sends [start]
    with the listener limit at 1, the router answers on [v] with the error
    "another listener is active" and changes nothing: the pairing of [d]
    is still [s1]. *)
Theorem listener_conflict_rejected cfg st d s1 v s2 msg :
  reachable cfg st →
  maxListenersPerDevice cfg = 1 →
  activeSessionByDevice st !! d = Some s1 →
  viewerListeners st !! v = Some (s2, d) →
  s2 ≠ s1 →
  action msg = Some "start" →
  handle cfg st (ViewerMessage v (Some msg))
    = (st, [Send (ViewerWs v) (MError "another listener is active")])
  ∧ activeSessionByDevice (handle cfg st (ViewerMessage v (Some msg))).1 !! d
    = Some s1.
Proof.
  intros Hreach Hmax Hpair Hv Hne Hact.
  assert (s1 ≠ "") as Hs1.
  { eapply inv_active; [by eapply reachable_Inv | exact Hpair]. }
  assert (handle cfg st (ViewerMessage v (Some msg))
          = (st, [Send (ViewerWs v) (MError "another listener is active")]))
    as E.
  { simpl. rewrite Hv. unfold viewerOnMessage.
    rewrite Hact, Hpair, Hmax.
    rewrite bool_decide_eq_true_2 by done.
    rewrite (proj2 (truthy_Some s1) Hs1).
    rewrite (bool_decide_eq_false_2 (Some s1 = Some s2)) by congruence.
    done. }
  by rewrite E.
Qed.

Lemma listener_conflict_rejected_witness :
  handle defaultConfig (after defaultConfig two_viewers)
    (ViewerMessage 2 (Some (command "start")))
    = (after defaultConfig two_viewers,
       [Send (ViewerWs 2) (MError "another listener is active")])
  ∧ activeSessionByDevice
      (handle defaultConfig (after defaultConfig two_viewers)
         (ViewerMessage 2 (Some (command "start")))).1 !! "dev"
    = Some "s1".
Proof.
  apply (listener_conflict_rejected defaultConfig
           (after defaultConfig two_viewers) "dev" "s1" 2 "s2"
           (command "start")).
  - apply after_reachable.
  - reflexivity.
  - vm_compute. reflexivity.
  - vm_compute. reflexivity.
  - discriminate.
  - reflexivity.
Defined.

(** ** Forwarding of audio frames *)

Lemma is_audio_head data : is_audio data = true ↔ head data = Some x01.
Proof.
  destruct data as [|b data]; simpl; [done|].
  split.
  - intros H. f_equal. by apply Byte.byte_dec_bl.
  - intros [= ->]. reflexivity.
Qed.

Lemma forwardAudio_forwards st d data v :
  Inv st → forwards_to st d data v →
  forwardAudio st d data = [Send (ViewerWs v) (MBinary data)].
Proof.
  intros HI (s & Hpair & Hv & Hopen & Hhead).
  unfold forwardAudio.
  rewrite (proj2 (is_audio_head data) Hhead), Hpair. simpl negb at 1.
  rewrite (proj2 (truthy_Some s)) by (by eapply inv_active).
  simpl negb. rewrite Hv. unfold is_open.
  by rewrite bool_decide_eq_true_2.
Qed.

Lemma forwardAudio_drops st d data :
  (∀ v, ¬ forwards_to st d data v) → forwardAudio st d data = [].
Proof.
  intros Hno. unfold forwardAudio.
  destruct (is_audio data) eqn:Ha; [|done]. cbn [negb].
  destruct (activeSessionByDevice st !! d) as [s|] eqn:Hpair; [|done].
  destruct (negb (truthy (Some s))); [done|].
  destruct (viewers st !! s) as [v|] eqn:Hv; [|done].
  unfold is_open. case_bool_decide as Hopen; [|done].
  exfalso. apply (Hno v). exists s. split_and!; try done.
  by apply is_audio_head.
Qed.

(** C3: a binary frame [data] received on a device socket of [d] is sent,
    byte for byte, to the viewer socket [v] exactly when [d] has an Active
    Pairing, the viewer registered for the paired session is open and the
    first byte is 0x01 ([forwards_to]); when no such viewer exists nothing is
    emitted; the state is the same in both cases. *)
Theorem audio_frame_forwarding cfg st a d data :
  reachable cfg st →
  agentListeners st !! a = Some d →
  (handle cfg st (AgentMessage a (Binary data))).1 = st ∧
  (∀ v, forwards_to st d data v ↔
        (handle cfg st (AgentMessage a (Binary data))).2
        = [Send (ViewerWs v) (MBinary data)]) ∧
  ((∀ v, ¬ forwards_to st d data v) →
   (handle cfg st (AgentMessage a (Binary data))).2 = []).
Proof.
  intros Hreach Ha. apply reachable_Inv in Hreach as HI.
  cbn [handle]. rewrite Ha. unfold agentOnMessage. cbn [fst snd].
  split_and!; [done| |apply forwardAudio_drops].
  intros v. split; [by apply forwardAudio_forwards|].
  intros Hout. unfold forwardAudio in Hout.
  destruct (is_audio data) eqn:Haud; [|done]. cbn [negb] in Hout.
  destruct (activeSessionByDevice st !! d) as [s|] eqn:Hpair; [|done].
  destruct (negb (truthy (Some s))); [done|].
  destruct (viewers st !! s) as [v'|] eqn:Hv; [|done].
  unfold is_open in Hout. case_bool_decide as Hopen; [|done].
  simpl in Hout. injection Hout as ->.
  exists s. split_and!; try done. by apply is_audio_head.
Qed.

Lemma audio_frame_forwarding_witness :
  (handle defaultConfig (after defaultConfig two_viewers)
     (AgentMessage 1 (Binary [x01; x2a; x00]))).1
  = after defaultConfig two_viewers ∧
  (∀ v, forwards_to (after defaultConfig two_viewers) "dev" [x01; x2a; x00] v ↔
        (handle defaultConfig (after defaultConfig two_viewers)
           (AgentMessage 1 (Binary [x01; x2a; x00]))).2
        = [Send (ViewerWs v) (MBinary [x01; x2a; x00])]) ∧
  ((∀ v, ¬ forwards_to (after defaultConfig two_viewers) "dev"
             [x01; x2a; x00] v) →
   (handle defaultConfig (after defaultConfig two_viewers)
      (AgentMessage 1 (Binary [x01; x2a; x00]))).2 = []).
Proof.
  apply (audio_frame_forwarding defaultConfig
           (after defaultConfig two_viewers) 1 "dev" [x01; x2a; x00]).
  - apply after_reachable.
  - vm_compute. reflexivity.
Defined.

(** ** Validation of a viewer's session *)

Lemma known_session_unique st sid x y :
  known_session st sid x → known_session st sid y → x = y.
Proof.
  intros (s & -> & _ & Hx) (s' & [= <-] & _ & Hy). congruence.
Qed.

Lemma onViewerConnected_known st v sid tok now x :
  known_session st sid x →
  (onViewerConnected st v sid tok now).2
  = if negb (bool_decide (Some (token x) = tok))
       || bool_decide (expiresAt x < now)
    then [Close (ViewerWs v) 1008 "invalid session"]
    else [Send (ViewerWs v)
            (MViewerConnected (deviceId x) (default "" sid)
               (bool_decide (is_Some (agents st !! deviceId x))))].
Proof.
  intros (s & -> & Hs & Hget). unfold onViewerConnected.
  rewrite (proj2 (truthy_Some s) Hs).
  change (default "" (Some s)) with s. cbv beta iota zeta. rewrite Hget.
  by destruct (negb _ || _).
Qed.

Lemma onViewerConnected_unknown st v sid tok now :
  (∀ x, ¬ known_session st sid x) →
  (onViewerConnected st v sid tok now).2
  = [Close (ViewerWs v) 1008 "invalid session"].
Proof.
  intros Hno. unfold onViewerConnected.
  destruct (truthy sid) eqn:Hsid; [|done].
  apply truthy_is_Some in Hsid as (s & -> & Hs).
  change (default "" (Some s)) with s.
  destruct (JsMap.get s (sessions st)) as [x|] eqn:Hget; [|done].
  exfalso. apply (Hno x). by exists s.
Qed.

(** C4, as the code has it: the connection attempt of a viewer is closed with
    "invalid session" exactly when the session is unknown, the token differs
    from the stored one, or [expiresAt < now]; an attempt at the instant
    [now = expiresAt] with the right token is accepted. *)
Theorem viewer_rejected_iff cfg st v sid tok now :
  (rejected cfg st v sid tok now ↔
   ((∀ x, ¬ known_session st sid x) ∨
    (∃ x, known_session st sid x ∧
          (Some (token x) ≠ tok ∨ expiresAt x < now)))) ∧
  (∀ x, known_session st sid x → Some (token x) = tok → now = expiresAt x →
        ¬ rejected cfg st v sid tok now).
Proof.
  unfold rejected. cbn [handle].
  set (st0 := set_readyState _ st).
  assert (∀ x, known_session st0 sid x ↔ known_session st sid x) as Hk by done.
  split.
  - split.
    + intros Hrej.
      destruct (truthy sid) eqn:Hsid.
      2: { left. intros x (s & -> & Hs & _).
           apply truthy_Some in Hs. congruence. }
      apply truthy_is_Some in Hsid as (s & -> & Hs).
      destruct (JsMap.get s (sessions st)) as [x|] eqn:Hget.
      2: { left. intros x (s' & [= <-] & _ & Hx). congruence. }
      assert (known_session st (Some s) x) as Hx by (by exists s).
      right. exists x. split; [done|].
      rewrite (onViewerConnected_known st0 v _ tok now x) in Hrej
        by (by apply Hk).
      destruct (bool_decide (Some (token x) = tok)) eqn:Ht; cbn [negb orb] in Hrej.
      * right. case_bool_decide; [done | discriminate].
      * left. by apply bool_decide_eq_false_1 in Ht.
    + intros [Hno|(x & Hx & Hbad)].
      * apply onViewerConnected_unknown. intros x Hx. by apply (Hno x), Hk.
      * rewrite (onViewerConnected_known st0 v _ tok now x) by (by apply Hk).
        destruct Hbad as [Ht|He].
        -- by rewrite (bool_decide_eq_false_2 _ Ht).
        -- rewrite (bool_decide_eq_true_2 (expiresAt x < now) He).
           by rewrite orb_true_r.
  - intros x Hx Ht ->.
    rewrite (onViewerConnected_known st0 v _ tok (expiresAt x) x)
      by (by apply Hk).
    rewrite (bool_decide_eq_true_2 _ Ht).
    rewrite bool_decide_eq_false_2 by lia. cbn [negb orb]. discriminate.
Qed.

Lemma viewer_rejected_iff_witness :
  ¬ rejected defaultConfig (after defaultConfig one_session) 1
      (Some "s1") (Some "t1") 300000.
Proof.
  apply (proj2 (viewer_rejected_iff defaultConfig
                  (after defaultConfig one_session) 1
                  (Some "s1") (Some "t1") 300000)
           {| deviceId := "dev"; token := "t1"; userId := "alice";
              expiresAt := 300000 |}).
  - exists "s1". split_and!; [reflexivity | discriminate |].
    vm_compute. reflexivity.
  - reflexivity.
  - reflexivity.
Defined.

(** C4 as the specification states it fails at [now = expiresAt]: the
    session issued at 0 expires at 300000, and a viewer that presents the
    right token at 300000 is let in. *)
Lemma validate_at_expiry_accepted :
  ¬ spec_validate defaultConfig (after defaultConfig one_session) 1
      (Some "s1") (Some "t1") 300000.
Proof.
  intros [_ Hspec].
  assert (rejected defaultConfig (after defaultConfig one_session) 1
            (Some "s1") (Some "t1") 300000) as Hrej.
  { apply Hspec. right.
    exists {| deviceId := "dev"; token := "t1"; userId := "alice";
              expiresAt := 300000 |}.
    split.
    - exists "s1". split_and!; [done | discriminate | vm_compute; reflexivity].
    - right. simpl. lia. }
  vm_compute in Hrej. discriminate Hrej.
Qed.

(** ** Takeover of a device identifier *)

(** An authenticated device connection replaces the registered one and
    terminates it. *)
Lemma takeover_registers cfg st a2 req d a1 :
  js_or (a_query_deviceId req) (a_header_device req) = Some d →
  d ≠ "" →
  js_or (a_query_token req) (a_header_token req) = Some (agentSecret cfg) →
  agents st !! d = Some a1 →
  agents (handle cfg st (AgentConnection a2 req)).1 !! d = Some a2 ∧
  (handle cfg st (AgentConnection a2 req)).2 = [Terminate (AgentWs a1)].
Proof.
  intros Hd Hne Htok Ha1. cbn [handle]. unfold onAgentConnected.
  rewrite Hd, Htok, (proj2 (truthy_Some d) Hne).
  rewrite bool_decide_eq_true_2 by done.
  cbn [negb orb andb]. rewrite andb_false_r.
  change (default "" (Some d)) with d.
  change (agents (set_readyState <[AgentWs a2:=OPEN]> st)) with (agents st).
  rewrite Ha1. simpl. by rewrite lookup_insert_eq.
Qed.

(** The ['close'] listener of a device socket deletes whatever is registered
    under its identifier. *)
Lemma agent_close_unregisters cfg st a d :
  agentListeners st !! a = Some d →
  agents (handle cfg st (SocketClose (AgentWs a))).1 !! d = None.
Proof.
  intros Ha. cbn [handle]. rewrite Ha. unfold agentOnClose.
  set (st1 := set_agents (delete d) _).
  assert (agents st1 !! d = None) as Hdel by apply lookup_delete_eq.
  destruct (activeSessionByDevice st1 !! d) as [s|]; [|done].
  destruct (truthy (Some s)); [|done].
  by destruct (viewers _ !! s).
Qed.

(** C2, at the failing input: "dev" connects on socket 1, then on socket 2.
    Socket 2 is registered and socket 1 is terminated; when the ['close']
    event of socket 1 is then handled, nothing is registered for "dev" any
    more, although socket 2 is still open. *)
Theorem takeover_undone_by_close :
  agents (after defaultConfig takeover) !! "dev" = Some 2%nat ∧
  (∃ st out, run defaultConfig init takeover = Some (st, out) ∧
             Terminate (AgentWs 1) ∈ out) ∧
  enabled (after defaultConfig takeover) (SocketClose (AgentWs 1)) = true ∧
  agents (handle defaultConfig (after defaultConfig takeover)
            (SocketClose (AgentWs 1))).1 !! "dev" = None ∧
  readyState (handle defaultConfig (after defaultConfig takeover)
                (SocketClose (AgentWs 1))).1 !! AgentWs 2 = Some OPEN.
Proof.
  split_and!.
  - vm_compute. reflexivity.
  - eexists _, _. split; [vm_compute; reflexivity|]. left.
  - vm_compute. reflexivity.
  - apply agent_close_unregisters. vm_compute. reflexivity.
  - vm_compute. reflexivity.
Qed.

(** ** [start] for a device that is not connected *)

Lemma start_without_agent cfg st v s d msg :
  viewerListeners st !! v = Some (s, d) →
  action msg = Some "start" →
  activeSessionByDevice st !! d = None →
  agents st !! d = None →
  handle cfg st (ViewerMessage v (Some msg))
  = (set_active <[d := s]> st,
     [Send (ViewerWs v) (MError "agent not connected")]).
Proof.
  intros Hv Hact Hnone Hag. cbn [handle]. rewrite Hv.
  unfold viewerOnMessage. rewrite Hact, Hnone.
  rewrite bool_decide_eq_true_2 by done. cbn [truthy andb].
  unfold sendToAgent. cbn [agents set_active]. by rewrite Hag.
Qed.

(** C6, at the failing input: no device is connected and "dev" has no
    pairing; the viewer's [start] is answered with "agent not connected" and
    the socket is not closed, but the pairing of "dev" is set to the
    viewer's session. *)
Theorem offline_start_leaves_pairing :
  agents (after defaultConfig offline_viewer) !! "dev" = None ∧
  activeSessionByDevice (after defaultConfig offline_viewer) !! "dev" = None ∧
  (handle defaultConfig (after defaultConfig offline_viewer)
     (ViewerMessage 1 (Some (command "start")))).2
  = [Send (ViewerWs 1) (MError "agent not connected")] ∧
  activeSessionByDevice
    (handle defaultConfig (after defaultConfig offline_viewer)
       (ViewerMessage 1 (Some (command "start")))).1 !! "dev" = Some "s1".
Proof.
  assert (agents (after defaultConfig offline_viewer) !! "dev" = None) as Hag
    by (vm_compute; reflexivity).
  assert (activeSessionByDevice (after defaultConfig offline_viewer) !! "dev"
          = None) as Hnone by (vm_compute; reflexivity).
  split_and!; [done|done| |].
  - by rewrite (start_without_agent _ _ 1 "s1" "dev").
  - rewrite (start_without_agent _ _ 1 "s1" "dev") by done.
    apply lookup_insert_eq.
Qed.

(** ** [stop] from a viewer that is not the paired one *)

(** C10, as the code has it: while [d] is paired with [s1], a [stop] from
    the viewer socket [v] of another session [s2] for [d] removes the
    pairing, whoever holds it, and changes nothing else; the stop
    instruction is sent to the socket registered for [d] when that socket is
    open. *)
Theorem stop_by_other_viewer cfg st d s1 v s2 msg :
  activeSessionByDevice st !! d = Some s1 →
  viewerListeners st !! v = Some (s2, d) →
  s2 ≠ s1 →
  action msg = Some "stop" →
  (handle cfg st (ViewerMessage v (Some msg))).1 = set_active (delete d) st ∧
  activeSessionByDevice (handle cfg st (ViewerMessage v (Some msg))).1 !! d
  = None ∧
  (∀ a, agents st !! d = Some a → readyState st !! AgentWs a = Some OPEN →
        (handle cfg st (ViewerMessage v (Some msg))).2
        = [Send (AgentWs a) MStop]).
Proof.
  intros _ Hv _ Hact. cbn [handle]. rewrite Hv. unfold viewerOnMessage.
  rewrite Hact. rewrite bool_decide_eq_false_2 by discriminate.
  rewrite bool_decide_eq_true_2 by done. cbn [fst snd].
  split_and!; [done | apply lookup_delete_eq |].
  intros a Ha Hopen. unfold sendToAgent, is_open.
  cbn [agents readyState set_active]. rewrite Ha.
  by rewrite bool_decide_eq_true_2.
Qed.

Lemma stop_by_other_viewer_witness :
  (handle defaultConfig (after defaultConfig two_viewers)
     (ViewerMessage 2 (Some (command "stop")))).1
  = set_active (delete "dev") (after defaultConfig two_viewers) ∧
  activeSessionByDevice
    (handle defaultConfig (after defaultConfig two_viewers)
       (ViewerMessage 2 (Some (command "stop")))).1 !! "dev" = None ∧
  (∀ a, agents (after defaultConfig two_viewers) !! "dev" = Some a →
        readyState (after defaultConfig two_viewers) !! AgentWs a = Some OPEN →
        (handle defaultConfig (after defaultConfig two_viewers)
           (ViewerMessage 2 (Some (command "stop")))).2
        = [Send (AgentWs a) MStop]).
Proof.
  apply (stop_by_other_viewer defaultConfig (after defaultConfig two_viewers)
           "dev" "s1" 2 "s2" (command "stop")).
  - vm_compute. reflexivity.
  - vm_compute. reflexivity.
  - discriminate.
  - reflexivity.
Defined.

(** C10 as the specification states it fails when the socket registered
    for the paired device is not open: in [half_open_two_viewers] the
    liveness monitor has terminated the socket of "dev" and its ['close']
    event is still to come; the [stop] of the second viewer removes the
    pairing of the first and no stop instruction is sent. *)
Lemma stop_with_closing_device :
  ¬ spec_stop defaultConfig (after defaultConfig half_open_two_viewers)
      "dev" "s1" 2 "s2".
Proof.
  intros Hspec.
  destruct Hspec as (_ & a & _ & Hsent).
  - vm_compute. reflexivity.
  - vm_compute. reflexivity.
  - discriminate.
  - vm_compute in Hsent. by apply elem_of_nil in Hsent.
Qed.

(** What happens there, and what happens when "dev" has no socket at all
    because the first viewer sent [start] before the device connected. *)
Lemma stop_with_closing_device_trace :
  agents (after defaultConfig half_open_two_viewers) !! "dev" = Some 1%nat ∧
  readyState (after defaultConfig half_open_two_viewers) !! AgentWs 1
  = Some CLOSING ∧
  activeSessionByDevice (after defaultConfig half_open_two_viewers) !! "dev"
  = Some "s1" ∧
  handle defaultConfig (after defaultConfig half_open_two_viewers)
    (ViewerMessage 2 (Some (command "stop")))
  = (set_active (delete "dev") (after defaultConfig half_open_two_viewers), []).
Proof. vm_compute. by split_and!. Qed.

Lemma stop_without_device :
  activeSessionByDevice (after defaultConfig offline_two_viewers) !! "dev"
  = Some "s1" ∧
  handle defaultConfig (after defaultConfig offline_two_viewers)
    (ViewerMessage 2 (Some (command "stop")))
  = (set_active (delete "dev") (after defaultConfig offline_two_viewers), []).
Proof. vm_compute. by split_and!. Qed.

(** ** The expiry sweep *)

(** One visit of the loop, against the state it starts from. *)
Lemma sweepOne_frame now st out sid x :
  viewers (sweepOne now (st, out) (sid, x)).1 = viewers st ∧
  agents (sweepOne now (st, out) (sid, x)).1 = agents st ∧
  (∀ a, readyState (sweepOne now (st, out) (sid, x)).1 !! AgentWs a
        = readyState st !! AgentWs a) ∧
  (sweepOne now (st, out) (sid, x)).2 = out ++ sweepEffects now st (sid, x).
Proof.
  unfold sweepOne, sweepEffects. cbn [fst snd].
  destruct (bool_decide (expiresAt x < now)).
  2: { split_and!; try done. by rewrite app_nil_r. }
  destruct (viewers st !! sid) as [v|]; cbn [ws_close].
  - set (st1 := set_readyState (shut (ViewerWs v)) st).
    change (activeSessionByDevice st1) with (activeSessionByDevice st).
    assert (∀ d m, sendToAgent (set_active (delete d) st1) d m
                   = sendToAgent st d m) as Hsend.
    { intros d m. unfold sendToAgent, is_open.
      cbn [agents readyState set_active set_readyState st1].
      destruct (agents st !! d) as [a|]; [|done].
      by rewrite shut_lookup_ne. }
    destruct (bool_decide (activeSessionByDevice st !! deviceId x = Some sid));
      cbn [fst snd set_sessions set_active set_readyState st1 viewers agents
           readyState];
      (split_and!; [done | done | intros a; by rewrite shut_lookup_ne |]).
    + by rewrite Hsend.
    + done.
  - destruct (bool_decide (activeSessionByDevice st !! deviceId x = Some sid));
      cbn [fst snd set_sessions set_active viewers agents readyState];
      by split_and!.
Qed.

Lemma sweepOne_sessions now st out e :
  sessions (sweepOne now (st, out) e).1
  = if bool_decide (expiresAt e.2 < now) then JsMap.delete e.1 (sessions st)
    else sessions st.
Proof.
  destruct e as [sid x]. unfold sweepOne. cbn [fst snd].
  destruct (bool_decide (expiresAt x < now)); [|done].
  destruct (viewers st !! sid) as [v|]; cbn [ws_close];
    by destruct (bool_decide (_ = Some sid)).
Qed.

Lemma sweepOne_active now st out e :
  activeSessionByDevice (sweepOne now (st, out) e).1
  = if bool_decide (expiresAt e.2 < now)
       && bool_decide (activeSessionByDevice st !! deviceId e.2 = Some e.1)
    then delete (deviceId e.2) (activeSessionByDevice st)
    else activeSessionByDevice st.
Proof.
  destruct e as [sid x]. unfold sweepOne. cbn [fst snd].
  destruct (bool_decide (expiresAt x < now)); [|done].
  destruct (viewers st !! sid) as [v|]; cbn [ws_close];
    change (activeSessionByDevice (set_readyState _ st))
      with (activeSessionByDevice st);
    by destruct (bool_decide (_ = Some sid)).
Qed.

Lemma sweep_sessions now l : ∀ st out k,
  JsMap.get k (sessions (fold_left (sweepOne now) l (st, out)).1)
  = if existsb (expires now k) l then None else JsMap.get k (sessions st).
Proof.
  induction l as [|e l IH]; intros st out k; [done|].
  cbn [fold_left existsb].
  destruct (sweepOne now (st, out) e) as [st1 o1] eqn:E.
  rewrite IH.
  replace st1 with (sweepOne now (st, out) e).1 by (by rewrite E).
  rewrite sweepOne_sessions. unfold expires at 2.
  destruct (existsb (expires now k) l); [by rewrite orb_true_r|].
  rewrite orb_false_r.
  destruct (bool_decide (expiresAt e.2 < now)) eqn:Hexp.
  - rewrite JsMapFacts.get_delete.
    apply bool_decide_eq_true_1 in Hexp.
    destruct (decide (k = e.1)) as [->|Hne].
    + by rewrite bool_decide_eq_true_2.
    + rewrite bool_decide_eq_false_2; [done|]. intros [? _]. congruence.
  - apply bool_decide_eq_false_1 in Hexp.
    rewrite bool_decide_eq_false_2; [done|]. intros [_ ?]. done.
Qed.

Lemma sweep_active now l : ∀ st out d,
  activeSessionByDevice (fold_left (sweepOne now) l (st, out)).1 !! d
  = match activeSessionByDevice st !! d with
    | Some s => if existsb (unpairs now d s) l then None else Some s
    | None => None
    end.
Proof.
  induction l as [|e l IH]; intros st out d.
  { cbn. by destruct (activeSessionByDevice st !! d). }
  cbn [fold_left existsb].
  destruct (sweepOne now (st, out) e) as [st1 o1] eqn:E.
  rewrite IH.
  replace st1 with (sweepOne now (st, out) e).1 by (by rewrite E).
  rewrite sweepOne_active.
  destruct (bool_decide (expiresAt e.2 < now)) eqn:Hexp; cbn [andb].
  - apply bool_decide_eq_true_1 in Hexp.
    case_bool_decide as Hpair.
    + destruct (decide (d = deviceId e.2)) as [->|Hne].
      * rewrite lookup_delete_eq, Hpair. unfold unpairs at 1.
        by rewrite bool_decide_eq_true_2.
      * rewrite lookup_delete_ne by done.
        destruct (activeSessionByDevice st !! d) as [s|]; [|done].
        unfold unpairs at 2.
        rewrite bool_decide_eq_false_2; [done|]. intros (_ & ? & _). done.
    + destruct (activeSessionByDevice st !! d) as [s|] eqn:Hd; [|done].
      unfold unpairs at 2.
      rewrite bool_decide_eq_false_2; [done|].
      intros (<- & <- & _). done.
  - apply bool_decide_eq_false_1 in Hexp.
    destruct (activeSessionByDevice st !! d) as [s|]; [|done].
    unfold unpairs at 2.
    rewrite bool_decide_eq_false_2; [done|]. intros (_ & _ & ?). done.
Qed.

Lemma sweepEffects_after now st out sid x e :
  e.1 ≠ sid →
  sweepEffects now (sweepOne now (st, out) (sid, x)).1 e = sweepEffects now st e.
Proof.
  intros Hne.
  destruct (sweepOne_frame now st out sid x) as (Hv & Ha & Hr & _).
  pose proof (sweepOne_active now st out (sid, x)) as Hact.
  set (st1 := (sweepOne now (st, out) (sid, x)).1) in *.
  unfold sweepEffects. rewrite Hv.
  assert (sendToAgent st1 (deviceId e.2) MStop
          = sendToAgent st (deviceId e.2) MStop) as ->.
  { unfold sendToAgent, is_open. rewrite Ha.
    destruct (agents st !! deviceId e.2) as [a|]; [|done]. by rewrite Hr. }
  assert (bool_decide (activeSessionByDevice st1 !! deviceId e.2 = Some e.1)
          = bool_decide (activeSessionByDevice st !! deviceId e.2 = Some e.1))
    as ->; [|done].
  rewrite Hact. cbn [fst snd].
  destruct (bool_decide (expiresAt x < now)
            && bool_decide (activeSessionByDevice st !! deviceId x = Some sid))
    eqn:Hdel; [|done].
  apply andb_true_iff in Hdel as [_ Hpair].
  apply bool_decide_eq_true_1 in Hpair.
  destruct (decide (deviceId e.2 = deviceId x)) as [Heq|Hd].
  - rewrite Heq, lookup_delete_eq, Hpair.
    rewrite !bool_decide_eq_false_2; [done| |done]. congruence.
  - by rewrite lookup_delete_ne.
Qed.

Lemma flat_map_ext_elem {A B : Type} (f g : A → list B) (l : list A) :
  (∀ a, a ∈ l → f a = g a) → flat_map f l = flat_map g l.
Proof.
  induction l as [|a l IH]; intros H; [done|]. cbn [flat_map].
  rewrite (H a) by left. rewrite IH; [done|].
  intros b Hb. apply H. by right.
Qed.

(** The trace of the whole loop, against the state it starts from. *)
Lemma sweep_trace now l : ∀ st out,
  NoDup l.*1 →
  (fold_left (sweepOne now) l (st, out)).2
  = out ++ flat_map (sweepEffects now st) l.
Proof.
  induction l as [|[sid x] l IH]; intros st out Hnd.
  { cbn. by rewrite app_nil_r. }
  cbn [fold_left flat_map].
  rewrite fmap_cons in Hnd. apply NoDup_cons in Hnd as [Hsid Hnd].
  destruct (sweepOne_frame now st out sid x) as (_ & _ & _ & Hout).
  destruct (sweepOne now (st, out) (sid, x)) as [st1 o1] eqn:E.
  cbn [snd] in Hout. subst o1.
  rewrite IH by done. rewrite <- app_assoc. do 2 f_equal.
  apply flat_map_ext_elem. intros e He.
  replace st1 with (sweepOne now (st, out) (sid, x)).1 by (by rewrite E).
  apply sweepEffects_after. intros Heq. apply Hsid. cbn [fst].
  rewrite <- Heq. by apply (list_elem_of_fmap_2 fst).
Qed.

Lemma sweep_frame now st :
  viewers (cleanupExpiredSessions st now).1 = viewers st ∧
  agents (cleanupExpiredSessions st now).1 = agents st.
Proof.
  unfold cleanupExpiredSessions.
  apply (fold_left_preserves
           (λ acc, viewers acc.1 = viewers st ∧ agents acc.1 = agents st));
    [|done].
  intros [cur out] [sid x] [Hv Ha]. cbn [fst] in Hv, Ha.
  destruct (sweepOne_frame now cur out sid x) as (Hv' & Ha' & _).
  rewrite Hv', Ha'. by split.
Qed.

(** Among entries with distinct keys, the one entry that yields a single
    effect of a kind none of the others yields. *)
Lemma one_of_a_kind {A : Type} (P : A → Prop) `{!∀ a, Decision (P a)}
    (f : string * Session → list A) (l : list (string * Session)) k x :
  NoDup l.*1 →
  (k, x) ∈ l →
  length (filter P (f (k, x))) = 1%nat →
  (∀ e, e ∈ l → e.1 ≠ k → filter P (f e) = []) →
  length (filter P (flat_map f l)) = 1%nat.
Proof.
  induction l as [|e l IH]; intros Hnd Hin Hone Hothers.
  { by apply elem_of_nil in Hin. }
  rewrite fmap_cons in Hnd. apply NoDup_cons in Hnd as [He Hnd].
  cbn [flat_map]. rewrite filter_app, length_app.
  apply elem_of_cons in Hin as [<-|Hin].
  - rewrite Hone.
    assert (filter P (flat_map f l) = []) as ->; [|done].
    clear IH Hone. induction l as [|e' l IH]; [done|].
    cbn [flat_map]. rewrite filter_app.
    rewrite fmap_cons in He, Hnd.
    apply not_elem_of_cons in He as [Hne He].
    apply NoDup_cons in Hnd as [_ Hnd].
    rewrite (Hothers e'); [|right; left | done]. cbn [app].
    apply IH; try done.
    intros e Hin Hk. apply Hothers; [|done].
    apply elem_of_cons in Hin as [->|Hin]; [left | right; by right].
  - rewrite (Hothers e); [|left|].
    + cbn [length]. rewrite Nat.add_0_l. apply IH; try done.
      intros e' He' Hk. apply Hothers; [by right | done].
    + intros Heq. apply He. rewrite Heq.
      by apply (list_elem_of_fmap_2 fst) in Hin.
Qed.

Lemma sendToAgent_effects st d m :
  (sendToAgent st d m).2 = [] ∨
  ∃ a, agents st !! d = Some a ∧ (sendToAgent st d m).2 = [Send (AgentWs a) m].
Proof.
  unfold sendToAgent. destruct (agents st !! d) as [a|]; [|by left].
  destruct (negb (is_open st (AgentWs a))); [by left|]. right. by exists a.
Qed.

Lemma sendToAgent_open st d m a :
  agents st !! d = Some a → readyState st !! AgentWs a = Some OPEN →
  sendToAgent st d m = (true, [Send (AgentWs a) m]).
Proof.
  intros Ha Hopen. unfold sendToAgent, is_open. rewrite Ha.
  by rewrite bool_decide_eq_true_2.
Qed.

Lemma existsb_elem {A : Type} (f : A → bool) (l : list A) :
  existsb f l = true ↔ ∃ a, a ∈ l ∧ f a = true.
Proof.
  rewrite existsb_exists. by setoid_rewrite list_elem_of_In.
Qed.

(** An entry with the key of a stored session is that session. *)
Lemma session_entry st e x :
  Inv st → e ∈ sessions st → JsMap.get e.1 (sessions st) = Some x → e.2 = x.
Proof.
  intros HI He Hget. destruct e as [k y]. cbn [fst snd] in *.
  apply (JsMapFacts.elem_get _ _ _ (inv_sessions _ HI)) in He. congruence.
Qed.

(** The notices of a sweep to the viewer registered for an expired session. *)
Lemma sweep_notice st now sid x v :
  Inv st →
  JsMap.get sid (sessions st) = Some x → expiresAt x < now →
  viewers st !! sid = Some v →
  occurrences (expiry_notice v) (cleanupExpiredSessions st now).2 = 1%nat.
Proof.
  intros HI Hget Hexp Hv. unfold cleanupExpiredSessions, occurrences.
  rewrite sweep_trace by apply (inv_sessions _ HI). cbn [app].
  apply (one_of_a_kind _ _ _ sid x).
  - apply (inv_sessions _ HI).
  - by apply JsMapFacts.get_Some_elem.
  - unfold sweepEffects. cbn [fst snd].
    rewrite bool_decide_eq_true_2 by done. rewrite Hv, filter_app.
    rewrite filter_cons_True by done. rewrite filter_nil.
    assert (filter (λ e, e = expiry_notice v)
              (if bool_decide
                    (activeSessionByDevice st !! deviceId x = Some sid)
               then (sendToAgent st (deviceId x) MStop).2 else []) = [])
      as ->; [|done].
    destruct (bool_decide _); [|done].
    destruct (sendToAgent_effects st (deviceId x) MStop)
      as [->|(a & _ & ->)]; [done|].
    by rewrite filter_cons_False.
  - intros [k y] He Hk. cbn [fst] in Hk. unfold sweepEffects. cbn [fst snd].
    destruct (bool_decide (expiresAt y < now)); [|done].
    rewrite filter_app.
    assert (filter (λ e, e = expiry_notice v)
              (if bool_decide (activeSessionByDevice st !! deviceId y = Some k)
               then (sendToAgent st (deviceId y) MStop).2 else []) = [])
      as ->.
    { destruct (bool_decide _); [|done].
      destruct (sendToAgent_effects st (deviceId y) MStop)
        as [->|(a & _ & ->)]; [done|].
      by rewrite filter_cons_False. }
    rewrite app_nil_r.
    destruct (viewers st !! k) as [v'|] eqn:Hv'; [|done].
    rewrite filter_cons_False; [done|].
    intros [= ->].
    apply (inv_viewers _ HI) in Hv as [d1 Hv], Hv' as [d2 Hv'].
    congruence.
Qed.

(** The stop instructions of a sweep to a device that is paired with an
    expired session and whose registered socket is open. *)
Lemma sweep_stop st now sid x a :
  Inv st →
  JsMap.get sid (sessions st) = Some x → expiresAt x < now →
  activeSessionByDevice st !! deviceId x = Some sid →
  agents st !! deviceId x = Some a →
  readyState st !! AgentWs a = Some OPEN →
  length (filter (λ e, stop_for st (deviceId x) e = true)
            (cleanupExpiredSessions st now).2) = 1%nat.
Proof.
  intros HI Hget Hexp Hpair Ha Hopen. unfold cleanupExpiredSessions.
  rewrite sweep_trace by apply (inv_sessions _ HI). cbn [app].
  apply (one_of_a_kind _ _ _ sid x).
  - apply (inv_sessions _ HI).
  - by apply JsMapFacts.get_Some_elem.
  - unfold sweepEffects. cbn [fst snd].
    rewrite !bool_decide_eq_true_2 by done.
    rewrite (sendToAgent_open _ _ _ a) by done. cbn [snd].
    rewrite filter_app.
    assert (filter (λ e, stop_for st (deviceId x) e = true)
              match viewers st !! sid with
              | Some v => [Close (ViewerWs v) 4000 "session expired"]
              | None => []
              end = []) as ->.
    { destruct (viewers st !! sid); [|done]. by rewrite filter_cons_False. }
    rewrite filter_cons_True; [done|]. cbn [stop_for].
    apply bool_decide_eq_true_2. by apply (inv_agents _ HI).
  - intros [k y] He Hk. cbn [fst] in Hk. unfold sweepEffects. cbn [fst snd].
    destruct (bool_decide (expiresAt y < now)); [|done].
    rewrite filter_app.
    assert (filter (λ e, stop_for st (deviceId x) e = true)
              match viewers st !! k with
              | Some v => [Close (ViewerWs v) 4000 "session expired"]
              | None => []
              end = []) as ->.
    { destruct (viewers st !! k); [|done]. by rewrite filter_cons_False. }
    cbn [app]. case_bool_decide as Hpair'; [|done].
    destruct (sendToAgent_effects st (deviceId y) MStop)
      as [->|(a' & Ha' & ->)]; [done|].
    rewrite filter_cons_False; [done|]. cbn [stop_for].
    intros Hstop. apply bool_decide_eq_true_1 in Hstop.
    apply (inv_agents _ HI) in Ha'.
    assert (deviceId y = deviceId x) as Heq by congruence.
    rewrite Heq in Hpair'. congruence.
Qed.

(** A sweep does nothing to a socket but close viewers whose session
    expired and send stop instructions to devices. *)
Lemma sweep_effects_only st now e :
  Inv st →
  e ∈ (cleanupExpiredSessions st now).2 →
  (∃ sid x v, JsMap.get sid (sessions st) = Some x ∧ expiresAt x < now ∧
              viewers st !! sid = Some v ∧ e = expiry_notice v) ∨
  (∃ a, e = Send (AgentWs a) MStop).
Proof.
  intros HI. unfold cleanupExpiredSessions.
  rewrite sweep_trace by apply (inv_sessions _ HI). cbn [app].
  rewrite list_elem_of_In, in_flat_map.
  intros ([sid x] & Hin & He). apply list_elem_of_In in Hin, He.
  unfold sweepEffects in He. cbn [fst snd] in He.
  case_bool_decide as Hexp; [|by apply elem_of_nil in He].
  apply elem_of_app in He as [He|He].
  - destruct (viewers st !! sid) as [v|] eqn:Hv; [|by apply elem_of_nil in He].
    apply list_elem_of_singleton in He as ->. left. exists sid, x, v.
    split_and!; try done.
    by apply (JsMapFacts.elem_get _ _ _ (inv_sessions _ HI)).
  - case_bool_decide; [|by apply elem_of_nil in He].
    destruct (sendToAgent_effects st (deviceId x) MStop) as [E|(a & _ & E)];
      rewrite E in He; [by apply elem_of_nil in He|].
    apply list_elem_of_singleton in He as ->. right. by exists a.
Qed.

(** C5, as the code has it: a sweep at [now] removes every session with
    [expiresAt < now] and gives the viewer registered for it its expiry
    notice, the close with code 4000 and "session expired", exactly once;
    if the session is the pairing of its device the pairing is removed, and
    exactly one stop instruction is sent to the device when its registered
    socket is open.  A session with [expiresAt >= now] stays as it is, and
    so does a pairing with it.  The sweep calls nothing on a socket but
    these notices and stop instructions. *)
Theorem sweep_removes_expired cfg st now sid x :
  reachable cfg st →
  JsMap.get sid (sessions st) = Some x →
  (expiresAt x < now →
     JsMap.get sid (sessions (handle cfg st (SweepTimer now)).1) = None ∧
     (∀ v, viewers st !! sid = Some v →
           occurrences (expiry_notice v) (handle cfg st (SweepTimer now)).2
           = 1%nat) ∧
     (activeSessionByDevice st !! deviceId x = Some sid →
        activeSessionByDevice (handle cfg st (SweepTimer now)).1 !! deviceId x
        = None ∧
        (∀ a, agents st !! deviceId x = Some a →
              readyState st !! AgentWs a = Some OPEN →
              length (filter (λ e, stop_for st (deviceId x) e = true)
                        (handle cfg st (SweepTimer now)).2) = 1%nat))) ∧
  (expiresAt x >= now →
     JsMap.get sid (sessions (handle cfg st (SweepTimer now)).1) = Some x ∧
     (∀ d, activeSessionByDevice st !! d = Some sid →
           activeSessionByDevice (handle cfg st (SweepTimer now)).1 !! d
           = Some sid)) ∧
  (∀ e, e ∈ (handle cfg st (SweepTimer now)).2 →
        (∃ sid' x' v, JsMap.get sid' (sessions st) = Some x' ∧
                      expiresAt x' < now ∧ viewers st !! sid' = Some v ∧
                      e = expiry_notice v) ∨
        (∃ a, e = Send (AgentWs a) MStop)).
Proof.
  intros Hreach Hget. apply reachable_Inv in Hreach as HI.
  cbn [handle].
  assert ((sid, x) ∈ sessions st) as Hin by (by apply JsMapFacts.get_Some_elem).
  split; [|split; [|intros e He; by apply sweep_effects_only]].
  - intros Hexp. split_and!.
    + unfold cleanupExpiredSessions. rewrite sweep_sessions.
      assert (existsb (expires now sid) (sessions st) = true) as ->; [|done].
      apply existsb_elem. exists (sid, x). split; [done|].
      by apply bool_decide_eq_true_2.
    + intros v Hv. by apply (sweep_notice _ _ sid x).
    + intros Hpair. split.
      * unfold cleanupExpiredSessions. rewrite sweep_active, Hpair.
        assert (existsb (unpairs now (deviceId x) sid) (sessions st) = true)
          as ->; [|done].
        apply existsb_elem. exists (sid, x). split; [done|].
        by apply bool_decide_eq_true_2.
      * intros a Ha Hopen. by apply (sweep_stop _ _ sid x a).
  - intros Hlive. split.
    + unfold cleanupExpiredSessions. rewrite sweep_sessions, Hget.
      destruct (existsb (expires now sid) (sessions st)) eqn:Hex; [|done].
      apply existsb_elem in Hex as (e & He & Hk).
      apply bool_decide_eq_true_1 in Hk as [Hk Hexp].
      rewrite <- Hk in Hget. apply (session_entry _ _ _ HI He) in Hget.
      rewrite Hget in Hexp. lia.
    + intros d Hpair. unfold cleanupExpiredSessions.
      rewrite sweep_active, Hpair.
      destruct (existsb (unpairs now d sid) (sessions st)) eqn:Hex; [|done].
      apply existsb_elem in Hex as (e & He & Hk).
      apply bool_decide_eq_true_1 in Hk as (Hk & _ & Hexp).
      rewrite <- Hk in Hget. apply (session_entry _ _ _ HI He) in Hget.
      rewrite Hget in Hexp. lia.
Qed.

Lemma sweep_removes_expired_witness :
  (300000 < 400000 →
     JsMap.get "s1"
       (sessions (handle defaultConfig (after defaultConfig two_viewers)
                    (SweepTimer 400000)).1) = None ∧
     (∀ v, viewers (after defaultConfig two_viewers) !! "s1" = Some v →
           occurrences (expiry_notice v)
             (handle defaultConfig (after defaultConfig two_viewers)
                (SweepTimer 400000)).2 = 1%nat) ∧
     (activeSessionByDevice (after defaultConfig two_viewers) !! "dev"
      = Some "s1" →
        activeSessionByDevice
          (handle defaultConfig (after defaultConfig two_viewers)
             (SweepTimer 400000)).1 !! "dev" = None ∧
        (∀ a, agents (after defaultConfig two_viewers) !! "dev" = Some a →
              readyState (after defaultConfig two_viewers) !! AgentWs a
              = Some OPEN →
              length (filter (λ e, stop_for (after defaultConfig two_viewers)
                                     "dev" e = true)
                        (handle defaultConfig (after defaultConfig two_viewers)
                           (SweepTimer 400000)).2) = 1%nat))) ∧
  (300000 >= 400000 →
     JsMap.get "s1"
       (sessions (handle defaultConfig (after defaultConfig two_viewers)
                    (SweepTimer 400000)).1)
     = Some {| deviceId := "dev"; token := "t1"; userId := "alice";
               expiresAt := 300000 |} ∧
     (∀ d, activeSessionByDevice (after defaultConfig two_viewers) !! d
           = Some "s1" →
           activeSessionByDevice
             (handle defaultConfig (after defaultConfig two_viewers)
                (SweepTimer 400000)).1 !! d = Some "s1")) ∧
  (∀ e, e ∈ (handle defaultConfig (after defaultConfig two_viewers)
               (SweepTimer 400000)).2 →
        (∃ sid' x' v,
            JsMap.get sid' (sessions (after defaultConfig two_viewers))
            = Some x' ∧
            expiresAt x' < 400000 ∧
            viewers (after defaultConfig two_viewers) !! sid' = Some v ∧
            e = expiry_notice v) ∨
        (∃ a, e = Send (AgentWs a) MStop)).
Proof.
  apply (sweep_removes_expired defaultConfig (after defaultConfig two_viewers)
           400000 "s1"
           {| deviceId := "dev"; token := "t1"; userId := "alice";
              expiresAt := 300000 |}).
  - apply after_reachable.
  - vm_compute. reflexivity.
Defined.

(** C5 as the specification states it fails when the socket registered for
    the paired device is not open: in [half_open_device] the liveness
    monitor has terminated the socket of "dev" and its ['close'] event is
    still to come; the session expires at 300000, and the sweep at 400000
    removes it and its pairing and closes the viewer, and sends no stop
    instruction. *)
Lemma sweep_with_closing_device :
  ¬ spec_sweep defaultConfig (after defaultConfig half_open_device) 400000.
Proof.
  intros Hspec.
  destruct (Hspec "s1"
              {| deviceId := "dev"; token := "t1"; userId := "alice";
                 expiresAt := 300000 |}) as [Hexp _].
  { vm_compute. reflexivity. }
  destruct Hexp as [_ Hpair]; [simpl; lia|].
  destruct Hpair as (_ & Hstop & _); [vm_compute; reflexivity|].
  vm_compute in Hstop. discriminate Hstop.
Qed.

(** What happens there, and what happens when "dev" has no socket at all
    because the viewer sent [start] before the device connected. *)
Lemma sweep_with_closing_device_trace :
  agents (after defaultConfig half_open_device) !! "dev" = Some 1%nat ∧
  readyState (after defaultConfig half_open_device) !! AgentWs 1 = Some CLOSING ∧
  activeSessionByDevice (after defaultConfig half_open_device) !! "dev"
  = Some "s1" ∧
  (handle defaultConfig (after defaultConfig half_open_device)
     (SweepTimer 400000)).2 = [expiry_notice 1] ∧
  activeSessionByDevice
    (handle defaultConfig (after defaultConfig half_open_device)
       (SweepTimer 400000)).1 !! "dev" = None.
Proof. vm_compute. by split_and!. Qed.

Lemma sweep_without_device :
  activeSessionByDevice (after defaultConfig offline_paired) !! "dev"
  = Some "s1" ∧
  (handle defaultConfig (after defaultConfig offline_paired)
     (SweepTimer 400000)).2 = [expiry_notice 1] ∧
  activeSessionByDevice
    (handle defaultConfig (after defaultConfig offline_paired)
       (SweepTimer 400000)).1 !! "dev" = None.
Proof. vm_compute. by split_and!. Qed.

End RouterSpec.

Module PlayerSpec.
Import Player.

Lemma max3_ge_l a b c : (a <= max3 a b c)%Q.
Proof. apply Q.le_max_l. Qed.

Lemma max3_ge_m a b c : (b <= max3 a b c)%Q.
Proof.
  unfold max3. eapply Qle_trans; [apply (Q.le_max_l b c) | apply Q.le_max_r].
Qed.

Lemma max3_ge_r a b c : (c <= max3 a b c)%Q.
Proof.
  unfold max3. eapply Qle_trans; [apply (Q.le_max_r b c) | apply Q.le_max_r].
Qed.

(** [Math.max] returns one of its arguments. *)
Lemma max3_cases a b c :
  (max3 a b c == a ∨ max3 a b c == b ∨ max3 a b c == c)%Q.
Proof.
  unfold max3.
  destruct (Q.max_spec a (Qmax b c)) as [[_ E1]|[_ E1]]; [|by left].
  destruct (Q.max_spec b c) as [[_ E2]|[_ E2]].
  - right; right. lra.
  - right; left. lra.
Qed.

Lemma max3_eq a b c m :
  (a <= m)%Q → (b <= m)%Q → (c <= m)%Q → (m == a ∨ m == b ∨ m == c)%Q →
  (max3 a b c == m)%Q.
Proof.
  intros Ha Hb Hc Hm.
  pose proof (max3_ge_l a b c). pose proof (max3_ge_m a b c).
  pose proof (max3_ge_r a b c).
  destruct (max3_cases a b c) as [E|[E|E]], Hm as [E'|[E'|E']]; lra.
Qed.

Lemma duration_nonneg a : (0 <= duration a)%Q.
Proof.
  unfold duration, Qle. simpl. lia.
Qed.

(** With a context, a frame is always scheduled. *)
Lemma handleDecoded_ready p now a :
  ready p = true →
  handleDecoded p now a
  = ({| ready := true;
        playHead := (startAt p now a + duration a)%Q;
        baseTimestampUs := baseTimestampUs (prime p now a);
        playStart := playStart (prime p now a);
        jitterSec := jitterSec p |},
     [SrcStart (startAt p now a) a; DataClose]).
Proof.
  intros Hr. unfold handleDecoded, startAt. rewrite Hr. cbn [negb].
  unfold prime. destruct (baseTimestampUs p); cbn; by rewrite ?Hr.
Qed.

Lemma play_cons p now a rest :
  ready p = true →
  play p ((now, a) :: rest)
  = {| s_now := now;
       s_playHead := playHead (prime p now a);
       s_target := targetTime (prime p now a) a;
       s_startAt := startAt p now a;
       s_end := (startAt p now a + duration a)%Q |}
    :: play (handleDecoded p now a).1 rest.
Proof.
  intros Hr. cbn [play]. by rewrite handleDecoded_ready.
Qed.

Lemma handleDecoded_keeps_ready p now a :
  ready p = true → ready (handleDecoded p now a).1 = true.
Proof. intros Hr. by rewrite handleDecoded_ready. Qed.

Lemma handleDecoded_primed p now a :
  ready p = true → is_Some (baseTimestampUs (handleDecoded p now a).1).
Proof.
  intros Hr. rewrite handleDecoded_ready by done. cbn. unfold prime.
  destruct (baseTimestampUs p) eqn:E; cbn; rewrite ?E; eauto.
Qed.

(** Once the session has its base timestamp, no frame starts before the
    playhead it found. *)
Lemma play_after_playhead frames : ∀ p e,
  ready p = true → is_Some (baseTimestampUs p) →
  e ∈ play p frames → (playHead p <= s_startAt e)%Q.
Proof.
  induction frames as [|[now a] rest IH]; intros p e Hr Hb He.
  { by apply elem_of_nil in He. }
  rewrite play_cons in He by done.
  assert (playHead p <= startAt p now a)%Q as Hstart.
  { unfold startAt, prime. destruct Hb as [b ->]. apply max3_ge_m. }
  apply elem_of_cons in He as [->|He]; [done|].
  eapply Qle_trans; [|apply (IH _ _ (handleDecoded_keeps_ready _ now a Hr)
                            (handleDecoded_primed _ now a Hr) He)].
  rewrite handleDecoded_ready by done. cbn [fst playHead].
  pose proof (duration_nonneg a). lra.
Qed.

(** The start of the first frame of a session is the playout origin. *)
Lemma first_startAt p now a :
  baseTimestampUs p = None → (0 <= jitterSec p)%Q →
  (startAt p now a == now + jitterSec p)%Q.
Proof.
  intros Hb Hj. unfold startAt, prime. rewrite Hb.
  unfold targetTime, relSeconds. cbn [playHead playStart baseTimestampUs default
                                      from_option id].
  apply max3_eq; [lra | lra | | right; left; lra].
  assert ((timestampUs a - timestampUs a) / 1000000 == 0)%Q as ->; [|lra].
  field.
Qed.




(** C8, as the code has it: in a session of a player with its context,
    every frame starts no earlier than the playhead it is compared with, and
    so no earlier than the scheduled end of any frame before it; a late
    frame, whose target time is behind the playhead, starts at the later of
    the clock and the playhead, which is the playhead when the clock is not
    past it. *)
Theorem startAt_after_playhead frames : ∀ p j e,
  ready p = true →
  play p frames !! j = Some e →
  (s_playHead e <= s_startAt e)%Q ∧
  (∀ i e', (i < j)%nat → play p frames !! i = Some e' →
           (s_end e' <= s_startAt e)%Q) ∧
  ((s_target e < s_playHead e)%Q →
     (s_startAt e == Qmax (s_now e) (s_playHead e))%Q ∧
     ((s_now e <= s_playHead e)%Q → (s_startAt e == s_playHead e)%Q)).
Proof.
  induction frames as [|[now a] rest IH]; intros p j e Hr Hj; [done|].
  rewrite play_cons in Hj |- * by done.
  destruct j as [|j].
  - injection Hj as <-. cbn [s_playHead s_startAt s_target s_now].
    unfold startAt. set (p1 := prime p now a).
    pose proof (max3_ge_l now (playHead p1) (targetTime p1 a)) as Hl.
    pose proof (max3_ge_m now (playHead p1) (targetTime p1 a)) as Hm.
    split_and!; [done | intros i e' Hi; lia |].
    intros Hlate.
    assert (max3 now (playHead p1) (targetTime p1 a)
            == Qmax now (playHead p1))%Q as Hmax.
    { pose proof (Q.le_max_l now (playHead p1)).
      pose proof (Q.le_max_r now (playHead p1)).
      apply max3_eq; [done | done | lra |].
      destruct (Q.max_spec now (playHead p1)) as [[_ E]|[_ E]];
        [right; left | left]; done. }
    split; [done|]. intros Hnow. rewrite Hmax. by apply Q.max_r.
  - cbn [lookup list_lookup] in Hj.
    pose proof (handleDecoded_keeps_ready p now a Hr) as Hr'.
    destruct (IH _ _ _ Hr' Hj) as (H1 & H2 & H3).
    split_and!; [done | | done].
    intros [|i] e' Hi Hi'.
    + injection Hi' as <-. cbn [s_end].
      apply list_elem_of_lookup_2 in Hj.
      apply (play_after_playhead _ _ _ Hr'
               (handleDecoded_primed p now a Hr)) in Hj.
      rewrite handleDecoded_ready in Hj by done. exact Hj.
    + apply (H2 i); [lia | exact Hi'].
Qed.

Lemma startAt_after_playhead_witness :
  ∃ e, play initialised stalled !! 1%nat = Some e ∧
       (s_playHead e <= s_startAt e)%Q ∧
       (∀ i e', (i < 1)%nat → play initialised stalled !! i = Some e' →
                (s_end e' <= s_startAt e)%Q) ∧
       ((s_target e < s_playHead e)%Q →
          (s_startAt e == Qmax (s_now e) (s_playHead e))%Q ∧
          ((s_now e <= s_playHead e)%Q → (s_startAt e == s_playHead e)%Q)).
Proof.
  eexists. split; [vm_compute; reflexivity|].
  apply (startAt_after_playhead stalled initialised 1%nat).
  - reflexivity.
  - vm_compute. reflexivity.
Defined.

(** C8 as the specification states it fails for a late frame handled when
    the clock is past the playhead: the third frame of [stalled] has its
    target at 0.12 s, behind the playhead 0.52 s, and starts at the clock,
    0.7 s. *)
Lemma late_frame_starts_at_clock :
  ∃ e, play initialised stalled !! 2%nat = Some e ∧ ¬ spec_late e.
Proof.
  eexists. split; [vm_compute; reflexivity|].
  intros [_ Hlate]. cbn [s_target s_playHead s_startAt] in Hlate.
  assert ((7 # 10) == 52 # 100)%Q as Habs; [|discriminate Habs].
  etransitivity; [apply Hlate; reflexivity | reflexivity].
Qed.

End PlayerSpec.

Module ClientSpec.
Import Client.

Lemma u8_range b : 0 <= u8 b < 256.
Proof.
  unfold u8. pose proof (Byte.to_N_bounded b) as H. lia.
Qed.


(** Integers of magnitude below 2^53 are numbers. *)
Lemma toNumber_exact z : Z.abs z < 2 ^ 53 → toNumber z = z.
Proof.
  intros H. unfold toNumber.
  destruct (Z.ltb_spec (Z.abs z) (2 ^ 53)); [done | lia].
Qed.

(** A message of at least 13 bytes, byte by byte. *)
Lemma long_message (buffer : list byte) :
  (13 ≤ length buffer)%nat →
  ∃ b0 b1 b2 b3 b4 b5 b6 b7 b8 b9 b10 b11 b12 rest,
    buffer = b0 :: b1 :: b2 :: b3 :: b4 :: b5 :: b6 :: b7 :: b8 :: b9 :: b10
             :: b11 :: b12 :: rest.
Proof.
  intros H.
  do 13 (destruct buffer as [|? buffer]; [cbn in H; lia|]).
  by eexists _, _, _, _, _, _, _, _, _, _, _, _, _, _.
Qed.

Lemma parse_long env b0 b1 b2 b3 b4 b5 b6 b7 b8 b9 b10 b11 b12 rest :
  parse env (b0 :: b1 :: b2 :: b3 :: b4 :: b5 :: b6 :: b7 :: b8 :: b9 :: b10
             :: b11 :: b12 :: rest)
  = if negb (u8 b0 =? 1) then None
    else
      let buffer := b0 :: b1 :: b2 :: b3 :: b4 :: b5 :: b6 :: b7 :: b8 :: b9
                    :: b10 :: b11 :: b12 :: rest in
      Some {| seq := wire_seq buffer;
              timestampMs :=
                toNumber (if hasGetBigInt64 env
                          then signed64 (wire_timestamp buffer)
                          else wire_timestamp buffer);
              payload := rest |}.
Proof.
  unfold parse. cbn [length Nat.ltb Nat.leb].
  unfold getUint8, getUint32, getBigInt64, wire_seq, wire_timestamp, signed64,
    byte_at.
  cbn [Nat.add drop take firstn skipn le lookup list_lookup fmap option_fmap
       option_map default from_option id].
  change (take 0 rest) with (@nil byte). change (drop 0 rest) with rest.
  cbn [le].
  replace (u8 b0 + 256 * 0) with (u8 b0) by lia.
  destruct (negb (u8 b0 =? 1)); [done|].
  cbv zeta. f_equal. f_equal.
  - lia.
  - destruct (hasGetBigInt64 env).
    + f_equal.
      replace (u8 b5 + 256 * (u8 b6 + 256 * (u8 b7 + 256 * (u8 b8 + 256 *
                 (u8 b9 + 256 * (u8 b10 + 256 * (u8 b11 + 256 *
                 (u8 b12 + 256 * 0))))))))
        with (u8 b5 + 2 ^ 8 * u8 b6 + 2 ^ 16 * u8 b7 + 2 ^ 24 * u8 b8
              + 2 ^ 32 * u8 b9 + 2 ^ 40 * u8 b10 + 2 ^ 48 * u8 b11
              + 2 ^ 56 * u8 b12) by lia.
      done.
    + f_equal. lia.
Qed.



(** The sample message carries sequence number 7 and timestamp 20 ms, and
    its payload reaches the decoder with the timestamp 20000 us. *)
Example sample_message_decoded :
  handleBinary {| hasGetBigInt64 := true |}
    {| state := "starting"; decoder := true; onStatus := true |}
    sample_message
  = ({| state := "streaming"; decoder := true; onStatus := true |},
     [Decode 20000 [xaa; xbb; xcc]; Status "streaming"])
  ∧ (seq <$> parse {| hasGetBigInt64 := true |} sample_message) = Some 7.
Proof. vm_compute. done. Qed.

End ClientSpec.

(** * Further properties of the router *)

Module RouterFacts.
Import Router RouterMore RouterSpec.

(** ** Token issuance *)

Lemma postToken_issued cfg st req sid tok now :
  requireAuth cfg req = true → truthy (body_deviceId req) = true →
  postToken cfg st req sid tok now
  = (set_sessions
       (JsMap.set sid
          {| deviceId := default "" (body_deviceId req); token := tok;
             userId := default "" (js_or (mjoin (req_user req))
                                     (Some "anonymous"));
             expiresAt := now + tokenTtlMs cfg |}) st,
     [Respond 200 (BToken sid tok (now + tokenTtlMs cfg))]).
Proof.
  intros Hauth Hdev. unfold postToken. by rewrite Hauth, Hdev.
Qed.

(** X1: a token issued at [now] lets a viewer in exactly until its expiry:
    with the issued session identifier and token the connection is rejected
    if and only if it comes after [now + tokenTtlMs]; with any other token
    it is rejected at any time. *)
Theorem issued_token_validates cfg st req sid tok now v tok' now' :
  requireAuth cfg req = true →
  truthy (body_deviceId req) = true →
  sid ≠ "" →
  (postToken cfg st req sid tok now).2
  = [Respond 200 (BToken sid tok (now + tokenTtlMs cfg))] ∧
  (rejected cfg (postToken cfg st req sid tok now).1 v (Some sid) (Some tok) now'
   ↔ now + tokenTtlMs cfg < now') ∧
  (tok' ≠ Some tok →
   rejected cfg (postToken cfg st req sid tok now).1 v (Some sid) tok' now').
Proof.
  intros Hauth Hdev Hsid. rewrite postToken_issued by done. cbn [fst snd].
  split; [done|].
  set (x := {| deviceId := _ |}). set (st1 := set_sessions _ st).
  assert (∀ t n, (handle cfg st1 (ViewerConnection v (Some sid) t n)).2
                 = if negb (bool_decide (Some tok = t))
                      || bool_decide (now + tokenTtlMs cfg < n)
                   then [Close (ViewerWs v) 1008 "invalid session"]
                   else [Send (ViewerWs v)
                           (MViewerConnected (deviceId x) sid
                              (bool_decide (is_Some (agents st !! deviceId x))))])
    as Hconn.
  { intros t n. cbn [handle].
    rewrite (onViewerConnected_known _ v (Some sid) t n x); [done|].
    exists sid. split_and!; [done | done |].
    cbn. rewrite JsMapFacts.get_set. by rewrite decide_True. }
  unfold rejected. rewrite !Hconn. split.
  - rewrite bool_decide_eq_true_2 by done. cbn [negb orb].
    destruct (bool_decide_reflect (now + tokenTtlMs cfg < now')) as [Hlt|Hlt];
      split; intros Hx; [exact Hlt | done | discriminate Hx | lia].
  - intros Hne. rewrite (bool_decide_eq_false_2 (Some tok = tok')); [done|].
    congruence.
Qed.

Lemma issued_token_validates_witness :
  (postToken defaultConfig init (tokenReq "dev") "s1" "t1" 0).2
  = [Respond 200 (BToken "s1" "t1" (0 + tokenTtlMs defaultConfig))] ∧
  (rejected defaultConfig
     (postToken defaultConfig init (tokenReq "dev") "s1" "t1" 0).1 1
     (Some "s1") (Some "t1") 5
   ↔ 0 + tokenTtlMs defaultConfig < 5) ∧
  (None ≠ Some "t1" →
   rejected defaultConfig
     (postToken defaultConfig init (tokenReq "dev") "s1" "t1" 0).1 1
     (Some "s1") None 5).
Proof.
  apply (issued_token_validates defaultConfig init (tokenReq "dev")
           "s1" "t1" 0 1%nat None 5).
  - reflexivity.
  - reflexivity.
  - discriminate.
Defined.

(** X2: a token request is refused with 401 when [requireAuth] fails, checked
    first, and with 400 when it carries no device identifier; a refused
    request stores nothing, and a served one changes no session but the one
    it issues. *)
Theorem token_request_refused cfg st req sid tok now :
  (requireAuth cfg req = true ↔
   allowUnauthenticated cfg = true ∨ is_Some (req_user req)
   ∨ truthy (req_session_userid req) = true) ∧
  (requireAuth cfg req = false →
   postToken cfg st req sid tok now
   = (st, [Respond 401 (BError "auth required")])) ∧
  (requireAuth cfg req = true → truthy (body_deviceId req) = false →
   postToken cfg st req sid tok now
   = (st, [Respond 400 (BError "deviceId required")])) ∧
  (∀ k, k ≠ sid →
        JsMap.get k (sessions (postToken cfg st req sid tok now).1)
        = JsMap.get k (sessions st)).
Proof.
  split_and!.
  - unfold requireAuth. destruct (allowUnauthenticated cfg); [naive_solver|].
    case_bool_decide as Hu; cbn [negb andb].
    + split; [auto|done].
    + destruct (truthy (req_session_userid req)); cbn [negb]; split; auto.
      intros [?|[?|?]]; done.
  - intros H. unfold postToken. by rewrite H.
  - intros H1 H2. unfold postToken. by rewrite H1, H2.
  - intros k Hk. unfold postToken.
    destruct (negb (requireAuth cfg req)); [done|].
    destruct (negb (truthy (body_deviceId req))); [done|].
    cbn. rewrite JsMapFacts.get_set. by rewrite decide_False.
Qed.

Lemma token_request_refused_witness :
  postToken defaultConfig init
    {| body_deviceId := Some "dev"; req_user := None;
       req_session_userid := None |} "s1" "t1" 0
  = (init, [Respond 401 (BError "auth required")]).
Proof.
  apply (proj1 (proj2 (token_request_refused defaultConfig init
                         {| body_deviceId := Some "dev"; req_user := None;
                            req_session_userid := None |} "s1" "t1" 0))).
  reflexivity.
Defined.

(** ** Authentication of a device *)

(** X3: a device connection is closed with 1008 "unauthorized" exactly when
    it names no device identifier, or a secret is configured and the token
    it presents is not that secret; with the empty secret every named
    device is let in.  A rejected attempt leaves every table as it was; an
    accepted one registers the socket for the identifier and has it
    watched. *)
Theorem device_authentication cfg st a req :
  let deviceId := js_or (a_query_deviceId req) (a_header_device req) in
  let token := js_or (a_query_token req) (a_header_token req) in
  (agent_rejected cfg st a req ↔
   truthy deviceId = false ∨
   (agentSecret cfg ≠ "" ∧ token ≠ Some (agentSecret cfg))) ∧
  (agent_rejected cfg st a req →
   (handle cfg st (AgentConnection a req)).1
   = set_readyState (shut (AgentWs a))
       (set_readyState <[AgentWs a := OPEN]> st)) ∧
  (¬ agent_rejected cfg st a req →
   agents (handle cfg st (AgentConnection a req)).1 !! default "" deviceId
   = Some a ∧
   AgentWs a ∈ heartbeats (handle cfg st (AgentConnection a req)).1 ∧
   isAlive (handle cfg st (AgentConnection a req)).1 !! AgentWs a = Some true).
Proof.
  intros deviceId token. unfold agent_rejected. cbn [handle].
  unfold onAgentConnected. fold deviceId. fold token.
  set (st0 := set_readyState _ st).
  assert (negb (truthy deviceId)
          || truthy (Some (agentSecret cfg))
             && negb (bool_decide (token = Some (agentSecret cfg))) = true
          ↔ truthy deviceId = false
            ∨ (agentSecret cfg ≠ "" ∧ token ≠ Some (agentSecret cfg))) as Hcond.
  { rewrite orb_true_iff, andb_true_iff, negb_true_iff, negb_true_iff.
    rewrite truthy_Some, bool_decide_eq_false. done. }
  destruct (negb (truthy deviceId) || _).
  - pose proof (proj1 Hcond eq_refl) as Hrej.
    split_and!; [done | done |]. intros Hn. by destruct Hn.
  - assert (¬ (truthy deviceId = false
               ∨ agentSecret cfg ≠ "" ∧ token ≠ Some (agentSecret cfg))) as Hok.
    { intros H. apply Hcond in H. discriminate H. }
    assert (∀ o1 : list Effect,
              (∀ e, e ∈ o1 → ∃ w, e = Terminate w) →
              o1 ≠ [Close (AgentWs a) 1008 "unauthorized"]) as Hne.
    { intros o1 Ho1 ->. destruct (Ho1 _ (list_elem_of_here _ _)) as [w Hw].
      discriminate Hw. }
    destruct (agents st0 !! default "" deviceId) as [existing|];
      cbn [ws_terminate fst snd].
    + split_and!.
      * split; [|done]. intros H. exfalso. revert H. apply Hne.
        intros e He. apply list_elem_of_singleton in He. eauto.
      * intros H. exfalso. revert H. apply Hne.
        intros e He. apply list_elem_of_singleton in He. eauto.
      * intros _. cbn. split_and!.
        -- apply lookup_insert_eq.
        -- unfold set_add. case_decide; [done|].
           apply elem_of_app. right. left.
        -- apply lookup_insert_eq.
    + split_and!.
      * split; [done|]. intros H. by apply Hok in H.
      * done.
      * intros _. cbn. split_and!.
        -- apply lookup_insert_eq.
        -- unfold set_add. case_decide; [done|].
           apply elem_of_app. right. left.
        -- apply lookup_insert_eq.
Qed.

Lemma device_authentication_witness :
  agent_rejected defaultConfig init 1 (agentReq "guess" "dev") ∧
  (handle defaultConfig init (AgentConnection 1 (agentReq "guess" "dev"))).1
  = set_readyState (shut (AgentWs 1))
      (set_readyState <[AgentWs 1 := OPEN]> init).
Proof.
  assert (agent_rejected defaultConfig init 1 (agentReq "guess" "dev")) as H.
  { apply (proj1 (device_authentication defaultConfig init 1
                    (agentReq "guess" "dev"))).
    right. split; discriminate. }
  split; [exact H|].
  apply (proj1 (proj2 (device_authentication defaultConfig init 1
                         (agentReq "guess" "dev")))).
  exact H.
Defined.

(** ** Disconnections *)

Lemma sendToAgent_ext st st' d m :
  agents st' = agents st →
  (∀ a, readyState st' !! AgentWs a = readyState st !! AgentWs a) →
  sendToAgent st' d m = sendToAgent st d m.
Proof.
  intros Ha Hr. unfold sendToAgent, is_open. rewrite Ha.
  destruct (agents st !! d); [|done]. by rewrite Hr.
Qed.

Lemma sendToAgent_closed st d m :
  (∀ a, agents st !! d = Some a → readyState st !! AgentWs a ≠ Some OPEN) →
  sendToAgent st d m = (false, []).
Proof.
  intros H. unfold sendToAgent, is_open.
  destruct (agents st !! d) as [a|] eqn:Ha; [|done].
  rewrite bool_decide_eq_false_2; [done|]. by apply H.
Qed.

(** X4: when the ['close'] event of a device socket is handled while its
    device is paired, the device is unregistered, the pairing is removed,
    and the viewer registered for the paired session is sent the status
    "agent_disconnected"; that viewer is neither closed nor unregistered. *)
Theorem device_close_clears_pairing cfg st a d s :
  reachable cfg st →
  agentListeners st !! a = Some d →
  activeSessionByDevice st !! d = Some s →
  agents (handle cfg st (SocketClose (AgentWs a))).1 !! d = None ∧
  activeSessionByDevice (handle cfg st (SocketClose (AgentWs a))).1 !! d = None ∧
  viewers (handle cfg st (SocketClose (AgentWs a))).1 = viewers st ∧
  (∀ v, readyState (handle cfg st (SocketClose (AgentWs a))).1 !! ViewerWs v
        = readyState st !! ViewerWs v) ∧
  (handle cfg st (SocketClose (AgentWs a))).2
  = match viewers st !! s with
    | Some v => [Send (ViewerWs v) (MStatus "agent_disconnected")]
    | None => []
    end.
Proof.
  intros Hreach Ha Hpair. apply reachable_Inv in Hreach as HI.
  assert (s ≠ "") as Hs by (by eapply inv_active).
  cbn [handle]. rewrite Ha. unfold agentOnClose.
  cbn [activeSessionByDevice set_agents set_heartbeats set_readyState].
  rewrite Hpair, (proj2 (truthy_Some s) Hs).
  cbn [viewers set_active set_agents set_heartbeats set_readyState].
  destruct (viewers st !! s) as [v|]; cbn [fst snd];
    (split_and!;
       [apply lookup_delete_eq | apply lookup_delete_eq | done | | done];
     intros v'; cbn; by rewrite lookup_insert_ne).
Qed.

Lemma device_close_clears_pairing_witness :
  agents (handle defaultConfig (after defaultConfig paired_stream)
            (SocketClose (AgentWs 1))).1 !! "dev" = None ∧
  activeSessionByDevice
    (handle defaultConfig (after defaultConfig paired_stream)
       (SocketClose (AgentWs 1))).1 !! "dev" = None ∧
  viewers (handle defaultConfig (after defaultConfig paired_stream)
             (SocketClose (AgentWs 1))).1
  = viewers (after defaultConfig paired_stream) ∧
  (∀ v, readyState (handle defaultConfig (after defaultConfig paired_stream)
                      (SocketClose (AgentWs 1))).1 !! ViewerWs v
        = readyState (after defaultConfig paired_stream) !! ViewerWs v) ∧
  (handle defaultConfig (after defaultConfig paired_stream)
     (SocketClose (AgentWs 1))).2
  = match viewers (after defaultConfig paired_stream) !! "s1" with
    | Some v => [Send (ViewerWs v) (MStatus "agent_disconnected")]
    | None => []
    end.
Proof.
  apply (device_close_clears_pairing defaultConfig
           (after defaultConfig paired_stream) 1 "dev" "s1").
  - apply after_reachable.
  - vm_compute. reflexivity.
  - vm_compute. reflexivity.
Defined.

(** X5: when the ['close'] event of a viewer socket is handled, the viewer
    registered for its session is unregistered; if its session is the
    pairing of its device the pairing is removed and a stop instruction goes
    to the device's registered socket when that is open; otherwise the
    pairing table stays as it is and nothing is sent. *)
Theorem viewer_close_releases cfg st v s d :
  viewerListeners st !! v = Some (s, d) →
  viewers (handle cfg st (SocketClose (ViewerWs v))).1 !! s = None ∧
  (activeSessionByDevice st !! d = Some s →
   activeSessionByDevice (handle cfg st (SocketClose (ViewerWs v))).1 !! d
   = None ∧
   (handle cfg st (SocketClose (ViewerWs v))).2 = (sendToAgent st d MStop).2 ∧
   (∀ a, agents st !! d = Some a → readyState st !! AgentWs a = Some OPEN →
         (handle cfg st (SocketClose (ViewerWs v))).2
         = [Send (AgentWs a) MStop])) ∧
  (activeSessionByDevice st !! d ≠ Some s →
   activeSessionByDevice (handle cfg st (SocketClose (ViewerWs v))).1
   = activeSessionByDevice st ∧
   (handle cfg st (SocketClose (ViewerWs v))).2 = []).
Proof.
  intros Hv. cbn [handle]. rewrite Hv. unfold viewerOnClose.
  cbn [activeSessionByDevice set_viewers set_heartbeats set_readyState].
  set (st1 := set_viewers _ _).
  assert (∀ m, sendToAgent (set_active (delete d) st1) d m = sendToAgent st d m)
    as Hsend.
  { intros m. apply sendToAgent_ext; [done|].
    intros a. cbn. by rewrite lookup_insert_ne. }
  split_and!.
  - case_bool_decide; cbn; apply lookup_delete_eq.
  - intros Hpair. rewrite bool_decide_eq_true_2 by done. cbn [fst snd].
    rewrite Hsend. split_and!; [apply lookup_delete_eq | done |].
    intros a Ha Hopen. by rewrite (sendToAgent_open _ _ _ a).
  - intros Hpair. by rewrite bool_decide_eq_false_2.
Qed.

Lemma viewer_close_releases_witness :
  viewers (handle defaultConfig (after defaultConfig paired_stream)
             (SocketClose (ViewerWs 1))).1 !! "s1" = None ∧
  (activeSessionByDevice (after defaultConfig paired_stream) !! "dev"
   = Some "s1" →
   activeSessionByDevice
     (handle defaultConfig (after defaultConfig paired_stream)
        (SocketClose (ViewerWs 1))).1 !! "dev" = None ∧
   (handle defaultConfig (after defaultConfig paired_stream)
      (SocketClose (ViewerWs 1))).2
   = (sendToAgent (after defaultConfig paired_stream) "dev" MStop).2 ∧
   (∀ a, agents (after defaultConfig paired_stream) !! "dev" = Some a →
         readyState (after defaultConfig paired_stream) !! AgentWs a
         = Some OPEN →
         (handle defaultConfig (after defaultConfig paired_stream)
            (SocketClose (ViewerWs 1))).2 = [Send (AgentWs a) MStop])) ∧
  (activeSessionByDevice (after defaultConfig paired_stream) !! "dev"
   ≠ Some "s1" →
   activeSessionByDevice
     (handle defaultConfig (after defaultConfig paired_stream)
        (SocketClose (ViewerWs 1))).1
   = activeSessionByDevice (after defaultConfig paired_stream) ∧
   (handle defaultConfig (after defaultConfig paired_stream)
      (SocketClose (ViewerWs 1))).2 = []).
Proof.
  apply (viewer_close_releases defaultConfig
           (after defaultConfig paired_stream) 1 "s1" "dev").
  vm_compute. reflexivity.
Defined.

(** ** Control messages of a viewer *)

Lemma start_sends cfg st v s d a msg :
  viewerListeners st !! v = Some (s, d) →
  action msg = Some "start" →
  (activeSessionByDevice st !! d = None ∨ activeSessionByDevice st !! d = Some s
   ∨ 1 < maxListenersPerDevice cfg) →
  agents st !! d = Some a →
  readyState st !! AgentWs a = Some OPEN →
  handle cfg st (ViewerMessage v (Some msg))
  = (set_active <[d := s]> st,
     [Send (AgentWs a)
        (MStart s (default "" (js_or (mode msg) (Some "wss"))))]).
Proof.
  intros Hv Hact Hfree Ha Hopen. cbn [handle]. rewrite Hv.
  unfold viewerOnMessage. rewrite Hact.
  rewrite bool_decide_eq_true_2 by done.
  assert (truthy (activeSessionByDevice st !! d)
          && negb (bool_decide (activeSessionByDevice st !! d = Some s))
          && bool_decide (maxListenersPerDevice cfg ≤ 1) = false) as ->.
  { destruct Hfree as [->|[->|Hmax]].
    - done.
    - rewrite bool_decide_eq_true_2 by done. cbn [negb].
      by rewrite andb_false_r.
    - rewrite (bool_decide_eq_false_2 (maxListenersPerDevice cfg ≤ 1)) by lia.
      by rewrite andb_false_r. }
  rewrite (sendToAgent_open _ d _ a) by done. done.
Qed.

(** X6: a [start] from a viewer whose device is registered and open, and is
    unpaired, paired with the viewer's own session, or configured for more
    than one listener, sets the pairing of the device to the viewer's
    session and sends the device one start instruction carrying that
    session and the requested mode, "wss" when none is given; the viewer is
    sent nothing. *)
Theorem start_pairs_device cfg st v s d a msg :
  viewerListeners st !! v = Some (s, d) →
  action msg = Some "start" →
  (activeSessionByDevice st !! d = None ∨ activeSessionByDevice st !! d = Some s
   ∨ 1 < maxListenersPerDevice cfg) →
  agents st !! d = Some a →
  readyState st !! AgentWs a = Some OPEN →
  (handle cfg st (ViewerMessage v (Some msg))).1 = set_active <[d := s]> st ∧
  activeSessionByDevice (handle cfg st (ViewerMessage v (Some msg))).1 !! d
  = Some s ∧
  (handle cfg st (ViewerMessage v (Some msg))).2
  = [Send (AgentWs a)
       (MStart s (if truthy (mode msg) then default "" (mode msg) else "wss"))].
Proof.
  intros Hv Hact Hfree Ha Hopen.
  rewrite (start_sends cfg st v s d a msg) by done. cbn [fst snd].
  split_and!; [done | apply lookup_insert_eq |].
  unfold js_or. by destruct (truthy (mode msg)).
Qed.

Lemma start_pairs_device_witness :
  (handle defaultConfig (after defaultConfig paired_stream)
     (ViewerMessage 1 (Some (command "start")))).1
  = set_active <["dev" := "s1"]> (after defaultConfig paired_stream) ∧
  activeSessionByDevice
    (handle defaultConfig (after defaultConfig paired_stream)
       (ViewerMessage 1 (Some (command "start")))).1 !! "dev" = Some "s1" ∧
  (handle defaultConfig (after defaultConfig paired_stream)
     (ViewerMessage 1 (Some (command "start")))).2
  = [Send (AgentWs 1)
       (MStart "s1" (if truthy (mode (command "start"))
                     then default "" (mode (command "start")) else "wss"))].
Proof.
  apply (start_pairs_device defaultConfig (after defaultConfig paired_stream)
           1 "s1" "dev" 1 (command "start")).
  - vm_compute. reflexivity.
  - reflexivity.
  - right. left. vm_compute. reflexivity.
  - vm_compute. reflexivity.
  - vm_compute. reflexivity.
Defined.

Lemma unpaired_silent st d f :
  activeSessionByDevice st !! d = None → agentOnMessage st d f = (st, []).
Proof.
  intros Hnone. unfold agentOnMessage, forwardAudio.
  destruct f as [data|[text|]]; rewrite ?Hnone; try done.
  by destruct (negb (is_audio data)).
Qed.

(** X7: once a viewer of a device has sent [stop], or the viewer paired
    with the device has closed, whatever the device sends next, binary or
    text, on any of its sockets, is dropped. *)
Theorem stop_ends_forwarding cfg st v s d a f msg :
  viewerListeners st !! v = Some (s, d) →
  agentListeners st !! a = Some d →
  (action msg = Some "stop" →
   handle cfg (handle cfg st (ViewerMessage v (Some msg))).1 (AgentMessage a f)
   = ((handle cfg st (ViewerMessage v (Some msg))).1, [])) ∧
  (activeSessionByDevice st !! d = Some s →
   handle cfg (handle cfg st (SocketClose (ViewerWs v))).1 (AgentMessage a f)
   = ((handle cfg st (SocketClose (ViewerWs v))).1, [])).
Proof.
  intros Hv Ha. split.
  - intros Hact.
    assert ((handle cfg st (ViewerMessage v (Some msg))).1
            = set_active (delete d) st) as ->.
    { cbn [handle]. rewrite Hv. unfold viewerOnMessage. rewrite Hact.
      rewrite bool_decide_eq_false_2 by discriminate.
      by rewrite bool_decide_eq_true_2. }
    cbn [handle agentListeners set_active]. rewrite Ha.
    apply unpaired_silent. apply lookup_delete_eq.
  - intros Hpair.
    assert ((handle cfg st (SocketClose (ViewerWs v))).1
            = set_active (delete d)
                (set_viewers (delete s)
                   (set_heartbeats (set_delete (ViewerWs v))
                      (set_readyState <[ViewerWs v := CLOSED]> st)))) as ->.
    { cbn [handle]. rewrite Hv. unfold viewerOnClose.
      cbn [activeSessionByDevice set_viewers set_heartbeats set_readyState].
      by rewrite bool_decide_eq_true_2. }
    cbn [handle agentListeners set_active set_viewers set_heartbeats
         set_readyState]. rewrite Ha.
    apply unpaired_silent. apply lookup_delete_eq.
Qed.

Lemma stop_ends_forwarding_witness :
  (action (command "stop") = Some "stop" →
   handle defaultConfig
     (handle defaultConfig (after defaultConfig paired_stream)
        (ViewerMessage 1 (Some (command "stop")))).1
     (AgentMessage 1 (Binary [x01; x02]))
   = ((handle defaultConfig (after defaultConfig paired_stream)
         (ViewerMessage 1 (Some (command "stop")))).1, [])) ∧
  (activeSessionByDevice (after defaultConfig paired_stream) !! "dev"
   = Some "s1" →
   handle defaultConfig
     (handle defaultConfig (after defaultConfig paired_stream)
        (SocketClose (ViewerWs 1))).1
     (AgentMessage 1 (Binary [x01; x02]))
   = ((handle defaultConfig (after defaultConfig paired_stream)
         (SocketClose (ViewerWs 1))).1, [])).
Proof.
  apply (stop_ends_forwarding defaultConfig (after defaultConfig paired_stream)
           1 "s1" "dev" 1 (Binary [x01; x02]) (command "stop")).
  - vm_compute. reflexivity.
  - vm_compute. reflexivity.
Defined.

(** X26: a viewer that sends [stop] and then closes, while the device's
    registered socket is open, makes the router send the device one stop
    instruction, with the [stop]; the close that follows finds no pairing
    and sends nothing more, and leaves the session without viewer. *)
Theorem stop_then_close cfg st v s d a msg :
  viewerListeners st !! v = Some (s, d) →
  agents st !! d = Some a →
  readyState st !! AgentWs a = Some OPEN →
  action msg = Some "stop" →
  (handle cfg st (ViewerMessage v (Some msg))).2 = [Send (AgentWs a) MStop] ∧
  (handle cfg (handle cfg st (ViewerMessage v (Some msg))).1
     (SocketClose (ViewerWs v))).2 = [] ∧
  activeSessionByDevice
    (handle cfg (handle cfg st (ViewerMessage v (Some msg))).1
       (SocketClose (ViewerWs v))).1 !! d = None ∧
  viewers
    (handle cfg (handle cfg st (ViewerMessage v (Some msg))).1
       (SocketClose (ViewerWs v))).1 !! s = None.
Proof.
  intros Hv Ha Hopen Hact.
  assert (handle cfg st (ViewerMessage v (Some msg))
          = (set_active (delete d) st, [Send (AgentWs a) MStop])) as ->.
  { cbn [handle]. rewrite Hv. unfold viewerOnMessage. rewrite Hact.
    rewrite bool_decide_eq_false_2 by discriminate.
    rewrite bool_decide_eq_true_2 by done.
    by rewrite (sendToAgent_open _ _ _ a). }
  cbn [fst snd handle viewerListeners set_active]. rewrite Hv.
  unfold viewerOnClose.
  cbn [activeSessionByDevice set_viewers set_heartbeats set_readyState
       set_active].
  rewrite bool_decide_eq_false_2 by (by rewrite lookup_delete_eq).
  cbn [fst snd activeSessionByDevice viewers set_viewers set_heartbeats
       set_readyState set_active].
  split_and!; [done | done | apply lookup_delete_eq | apply lookup_delete_eq].
Qed.

Lemma stop_then_close_witness :
  (handle defaultConfig (after defaultConfig paired_stream)
     (ViewerMessage 1 (Some (command "stop")))).2
  = [Send (AgentWs 1) MStop] ∧
  (handle defaultConfig
     (handle defaultConfig (after defaultConfig paired_stream)
        (ViewerMessage 1 (Some (command "stop")))).1
     (SocketClose (ViewerWs 1))).2 = [] ∧
  activeSessionByDevice
    (handle defaultConfig
       (handle defaultConfig (after defaultConfig paired_stream)
          (ViewerMessage 1 (Some (command "stop")))).1
       (SocketClose (ViewerWs 1))).1 !! "dev" = None ∧
  viewers
    (handle defaultConfig
       (handle defaultConfig (after defaultConfig paired_stream)
          (ViewerMessage 1 (Some (command "stop")))).1
       (SocketClose (ViewerWs 1))).1 !! "s1" = None.
Proof.
  apply (stop_then_close defaultConfig (after defaultConfig paired_stream)
           1 "s1" "dev" 1 (command "stop")).
  - vm_compute. reflexivity.
  - vm_compute. reflexivity.
  - vm_compute. reflexivity.
  - reflexivity.
Defined.



(** The same at a device whose socket the liveness monitor has terminated:
    the viewer that takes the device over is told that the agent is not
    connected. *)
Example released_device_half_open :
  (handle defaultConfig
     (handle defaultConfig (after defaultConfig half_open_two_viewers)
        (SocketClose (ViewerWs 1))).1
     (ViewerMessage 2 (Some (command "start")))).2
  = [Send (ViewerWs 2) (MError "agent not connected")].
Proof. vm_compute. reflexivity. Qed.

(** X9: a text frame of a device that parses is relayed to the viewer
    registered for the paired session, whatever the state of that viewer's
    socket; without pairing or registered viewer, or when it does not
    parse, it is dropped.  The state is unchanged. *)
Theorem device_text_relay cfg st a d text :
  reachable cfg st →
  agentListeners st !! a = Some d →
  handle cfg st (AgentMessage a (Text (Some text)))
  = (st, match activeSessionByDevice st !! d with
         | Some s =>
             match viewers st !! s with
             | Some v => [Send (ViewerWs v) (MJson text)]
             | None => []
             end
         | None => []
         end) ∧
  handle cfg st (AgentMessage a (Text None)) = (st, []).
Proof.
  intros Hreach Ha. apply reachable_Inv in Hreach as HI.
  cbn [handle]. rewrite Ha. unfold agentOnMessage. split; [|done].
  destruct (activeSessionByDevice st !! d) as [s|] eqn:Hpair; [|done].
  rewrite (proj2 (truthy_Some s)) by (by eapply inv_active).
  by destruct (viewers st !! s).
Qed.

Lemma device_text_relay_witness :
  handle defaultConfig (after defaultConfig paired_stream)
    (AgentMessage 1 (Text (Some "{}")))
  = (after defaultConfig paired_stream,
     match activeSessionByDevice (after defaultConfig paired_stream) !! "dev"
     with
     | Some s =>
         match viewers (after defaultConfig paired_stream) !! s with
         | Some v => [Send (ViewerWs v) (MJson "{}")]
         | None => []
         end
     | None => []
     end) ∧
  handle defaultConfig (after defaultConfig paired_stream)
    (AgentMessage 1 (Text None)) = (after defaultConfig paired_stream, []).
Proof.
  apply (device_text_relay defaultConfig (after defaultConfig paired_stream)
           1 "dev" "{}").
  - apply after_reachable.
  - vm_compute. reflexivity.
Defined.

(** X10: a viewer's text frame changes the state only if it parses to a
    value whose action is [start] or [stop].  A frame that does not parse,
    one with any other action, and any frame on a socket that was not
    accepted, leave the state as it is and, except for [status], which is
    passed on to the device, emit nothing.  A frame whose text parses to
    [null] makes the listener throw: it returns neither state nor
    effects. *)
Theorem viewer_message_ignored cfg st v text :
  (viewerListeners st !! v = None →
   viewerFrame cfg st v text = Returns (st, [])) ∧
  (∀ s d, viewerListeners st !! v = Some (s, d) →
     (text = NotJson → viewerFrame cfg st v text = Returns (st, [])) ∧
     (text = JsonNull → viewerFrame cfg st v text = Throws) ∧
     (∀ msg, text = JsonValue msg →
        action msg ≠ Some "start" → action msg ≠ Some "stop" →
        viewerFrame cfg st v text
        = Returns (st, if bool_decide (action msg = Some "status")
                       then (sendToAgent st d MStatusReq).2 else []))) ∧
  (∀ st' o, viewerFrame cfg st v text = Returns (st', o) → st' ≠ st →
     ∃ msg, text = JsonValue msg ∧
            (action msg = Some "start" ∨ action msg = Some "stop")).
Proof.
  unfold viewerFrame.
  destruct (viewerListeners st !! v) as [[s d]|] eqn:Hv.
  2: { split_and!; [done | done |]. intros st' o [= <- <-] Hne. done. }
  assert (∀ msg, action msg ≠ Some "start" → action msg ≠ Some "stop" →
            viewerOnMessage cfg st v s d (Some msg)
            = (st, if bool_decide (action msg = Some "status")
                   then (sendToAgent st d MStatusReq).2 else [])) as Hother.
  { intros msg H1 H2. unfold viewerOnMessage.
    rewrite (bool_decide_eq_false_2 _ H1), (bool_decide_eq_false_2 _ H2).
    by case_bool_decide. }
  split_and!.
  - done.
  - intros s' d' [= <- <-]. split_and!.
    + by intros ->.
    + by intros ->.
    + intros msg -> H1 H2. cbn [viewerOnText]. by rewrite Hother.
  - intros st' o Hret Hne. destruct text as [| |msg]; cbn [viewerOnText] in Hret.
    + injection Hret as <- <-. done.
    + discriminate Hret.
    + exists msg. split; [done|].
      destruct (decide (action msg = Some "start")) as [|H1]; [by left|].
      destruct (decide (action msg = Some "stop")) as [|H2]; [by right|].
      rewrite (Hother msg H1 H2) in Hret. injection Hret as <- _. done.
Qed.

(** The frames [null] and [{"action":"pause"}] on the socket of a paired
    viewer. *)
Example viewer_frames :
  viewerFrame defaultConfig (after defaultConfig paired_stream) 1 JsonNull
  = Throws ∧
  viewerFrame defaultConfig (after defaultConfig paired_stream) 1
    (JsonValue (command "pause"))
  = Returns (after defaultConfig paired_stream, []).
Proof. split; vm_compute; reflexivity. Qed.

(** ** The liveness monitor *)

Lemma pingOne_step st out w :
  (pingOne (st, out) w).2 = out ++ [pingEffect st w] ∧
  isAlive (pingOne (st, out) w).1 = <[w := false]> (isAlive st) ∧
  heartbeats (pingOne (st, out) w).1
  = (if decide (isAlive st !! w = Some false)
     then set_delete w (heartbeats st) else heartbeats st) ∧
  readyState (pingOne (st, out) w).1
  = (if decide (isAlive st !! w = Some false)
     then shut w (readyState st) else readyState st) ∧
  agents (pingOne (st, out) w).1 = agents st ∧
  viewers (pingOne (st, out) w).1 = viewers st ∧
  sessions (pingOne (st, out) w).1 = sessions st ∧
  activeSessionByDevice (pingOne (st, out) w).1 = activeSessionByDevice st ∧
  agentListeners (pingOne (st, out) w).1 = agentListeners st ∧
  viewerListeners (pingOne (st, out) w).1 = viewerListeners st.
Proof.
  unfold pingOne, pingEffect.
  destruct (decide (isAlive st !! w = Some false)) as [Hdead|Hlive];
    cbn; split_and!; try done.
  symmetry. by apply insert_id.
Qed.

Lemma fmap_ext_elem {A B : Type} (f g : A → B) (l : list A) :
  (∀ a, a ∈ l → f a = g a) → f <$> l = g <$> l.
Proof.
  induction l as [|a l IH]; intros H; [done|]. csimpl.
  rewrite (H a) by left. rewrite IH; [done|]. intros b Hb. apply H. by right.
Qed.

Lemma ping_trace l : ∀ st out,
  NoDup l →
  (fold_left pingOne l (st, out)).2 = out ++ (pingEffect st <$> l).
Proof.
  induction l as [|w l IH]; intros st out Hnd.
  { cbn. by rewrite app_nil_r. }
  apply NoDup_cons in Hnd as [Hw Hnd]. cbn [fold_left]. rewrite fmap_cons.
  destruct (pingOne_step st out w) as (Hout & Halive & _).
  destruct (pingOne (st, out) w) as [st1 o1]. cbn [fst snd] in *. subst o1.
  rewrite IH by done. rewrite <- app_assoc. do 2 f_equal.
  apply fmap_ext_elem. intros w' Hw'. unfold pingEffect.
  rewrite Halive, lookup_insert_ne; [done|]. by intros ->.
Qed.

Lemma ping_isAlive l : ∀ st out w,
  isAlive (fold_left pingOne l (st, out)).1 !! w
  = if decide (w ∈ l) then Some false else isAlive st !! w.
Proof.
  induction l as [|w0 l IH]; intros st out w.
  { cbn. rewrite decide_False; [done | apply not_elem_of_nil]. }
  cbn [fold_left].
  destruct (pingOne_step st out w0) as (_ & Halive & _).
  destruct (pingOne (st, out) w0) as [st1 o1]. cbn [fst] in Halive.
  rewrite IH, Halive.
  destruct (decide (w ∈ l)) as [Hin|Hin].
  - rewrite decide_True; [done | by right].
  - destruct (decide (w = w0)) as [->|Hne].
    + rewrite lookup_insert_eq. rewrite decide_True; [done | left].
    + rewrite lookup_insert_ne by done. rewrite decide_False; [done|].
      rewrite not_elem_of_cons. done.
Qed.

Lemma ping_heartbeats l : ∀ st out w,
  NoDup l →
  w ∈ heartbeats (fold_left pingOne l (st, out)).1
  ↔ w ∈ heartbeats st ∧ ¬ (w ∈ l ∧ isAlive st !! w = Some false).
Proof.
  induction l as [|w0 l IH]; intros st out w Hnd.
  { cbn. split; [|tauto]. intros H. split; [done|].
    intros [H' _]. by apply elem_of_nil in H'. }
  apply NoDup_cons in Hnd as [Hw0 Hnd]. cbn [fold_left].
  destruct (pingOne_step st out w0) as (_ & Halive & Hhb & _).
  destruct (pingOne (st, out) w0) as [st1 o1]. cbn [fst] in Halive, Hhb.
  rewrite IH by done. rewrite Hhb, Halive, elem_of_cons.
  destruct (decide (w = w0)) as [->|Hne].
  - rewrite lookup_insert_eq.
    destruct (decide (isAlive st !! w0 = Some false)) as [Hdead|Hlive].
    + unfold set_delete. rewrite list_elem_of_filter. split.
      * intros [[Hx _] _]. done.
      * intros [_ Hx]. exfalso. apply Hx. auto.
    + split.
      * intros [Hin _]. split; [done|]. intros [_ Hd]. done.
      * intros [Hin _]. split; [done|]. intros [Hx _]. done.
  - rewrite lookup_insert_ne by done.
    assert (w ∈ (if decide (isAlive st !! w0 = Some false)
                 then set_delete w0 (heartbeats st) else heartbeats st)
            ↔ w ∈ heartbeats st) as ->.
    { case_decide; [|done]. unfold set_delete.
      rewrite list_elem_of_filter. tauto. }
    split; intros [Hin Hx]; (split; [done|]); intros [Hy Hd]; apply Hx;
      (split; [|done]).
    + by destruct Hy.
    + by right.
Qed.

Lemma ping_frame l : ∀ st out,
  agents (fold_left pingOne l (st, out)).1 = agents st ∧
  viewers (fold_left pingOne l (st, out)).1 = viewers st ∧
  sessions (fold_left pingOne l (st, out)).1 = sessions st ∧
  activeSessionByDevice (fold_left pingOne l (st, out)).1
  = activeSessionByDevice st.
Proof.
  intros st out.
  apply (fold_left_preserves
           (λ acc, agents acc.1 = agents st ∧ viewers acc.1 = viewers st ∧
                   sessions acc.1 = sessions st ∧
                   activeSessionByDevice acc.1 = activeSessionByDevice st));
    [|done].
  intros [cur o] w (H1 & H2 & H3 & H4). cbn [fst] in *.
  destruct (pingOne_step cur o w)
    as (_ & _ & _ & _ & H1' & H2' & H3' & H4' & _).
  rewrite H1', H2', H3', H4'. done.
Qed.

(** X11: a round of the liveness monitor, on the watched sockets in the
    order in which they were added: a socket whose alive flag is down is
    terminated and no longer watched, every other one has its flag lowered
    and is pinged; after the round the flag of every socket that was watched
    is down.  The round touches none of the four tables. *)
Theorem ping_round st :
  NoDup (heartbeats st) →
  (pingAll st).2 = pingEffect st <$> heartbeats st ∧
  (∀ w, w ∈ heartbeats (pingAll st).1
        ↔ w ∈ heartbeats st ∧ isAlive st !! w ≠ Some false) ∧
  (∀ w, w ∈ heartbeats st → isAlive (pingAll st).1 !! w = Some false) ∧
  agents (pingAll st).1 = agents st ∧
  viewers (pingAll st).1 = viewers st ∧
  sessions (pingAll st).1 = sessions st ∧
  activeSessionByDevice (pingAll st).1 = activeSessionByDevice st.
Proof.
  intros Hnd. unfold pingAll.
  destruct (ping_frame (heartbeats st) st []) as (H1 & H2 & H3 & H4).
  split_and!; try done.
  - by rewrite ping_trace.
  - intros w. rewrite ping_heartbeats by done. split.
    + intros [Hin Hx]. split; [done|]. intros Hd. apply Hx. done.
    + intros [Hin Hx]. split; [done|]. intros [_ Hd]. done.
  - intros w Hin. rewrite ping_isAlive. by rewrite decide_True.
Qed.

Lemma ping_round_witness :
  (pingAll (after defaultConfig paired_stream)).2
  = pingEffect (after defaultConfig paired_stream)
    <$> heartbeats (after defaultConfig paired_stream) ∧
  (∀ w, w ∈ heartbeats (pingAll (after defaultConfig paired_stream)).1
        ↔ w ∈ heartbeats (after defaultConfig paired_stream)
          ∧ isAlive (after defaultConfig paired_stream) !! w ≠ Some false) ∧
  (∀ w, w ∈ heartbeats (after defaultConfig paired_stream) →
        isAlive (pingAll (after defaultConfig paired_stream)).1 !! w
        = Some false) ∧
  agents (pingAll (after defaultConfig paired_stream)).1
  = agents (after defaultConfig paired_stream) ∧
  viewers (pingAll (after defaultConfig paired_stream)).1
  = viewers (after defaultConfig paired_stream) ∧
  sessions (pingAll (after defaultConfig paired_stream)).1
  = sessions (after defaultConfig paired_stream) ∧
  activeSessionByDevice (pingAll (after defaultConfig paired_stream)).1
  = activeSessionByDevice (after defaultConfig paired_stream).
Proof.
  apply (ping_round (after defaultConfig paired_stream)).
  apply (bool_decide_unpack _). vm_compute. exact I.
Defined.

Lemma ping_watch l : ∀ st out,
  NoDup (heartbeats st) →
  NoDup (heartbeats (fold_left pingOne l (st, out)).1) ∧
  agentListeners (fold_left pingOne l (st, out)).1 = agentListeners st ∧
  viewerListeners (fold_left pingOne l (st, out)).1 = viewerListeners st.
Proof.
  intros st out Hnd.
  apply (fold_left_preserves
           (λ acc, NoDup (heartbeats acc.1) ∧
                   agentListeners acc.1 = agentListeners st ∧
                   viewerListeners acc.1 = viewerListeners st)); [|done].
  intros [cur o] w (H1 & H2 & H3). cbn [fst] in *.
  destruct (pingOne_step cur o w)
    as (_ & _ & Hhb & _ & _ & _ & _ & _ & H2' & H3').
  rewrite Hhb, H2', H3'. split_and!; try done.
  case_decide; [|done]. by apply NoDup_filter.
Qed.

(** X12: two rounds of the liveness monitor in a row terminate a watched
    socket that the first round pinged; if the socket's ['pong'] is handled
    between the rounds, the second round pings it again and keeps watching
    it. *)
Theorem unanswered_ping_terminates cfg st w :
  NoDup (heartbeats st) →
  w ∈ heartbeats st →
  isAlive st !! w ≠ Some false →
  accepted st w = true →
  Ping w ∈ (pingAll st).2 ∧
  Terminate w ∈ (pingAll (pingAll st).1).2 ∧
  (w ∉ heartbeats (pingAll (pingAll st).1).1) ∧
  Ping w ∈ (pingAll (handle cfg (pingAll st).1 (SocketPong w)).1).2 ∧
  (Terminate w ∉ (pingAll (handle cfg (pingAll st).1 (SocketPong w)).1).2) ∧
  w ∈ heartbeats (pingAll (handle cfg (pingAll st).1 (SocketPong w)).1).1.
Proof.
  intros Hnd Hin Hup Hacc.
  set (st1 := (pingAll st).1).
  destruct (ping_watch (heartbeats st) st [] Hnd) as (Hnd1 & Hal1 & Hvl1).
  fold (pingAll st) in Hnd1, Hal1, Hvl1. fold st1 in Hnd1, Hal1, Hvl1.
  assert (w ∈ heartbeats st1) as Hin1.
  { unfold st1, pingAll. rewrite ping_heartbeats by done. split; [done|].
    intros [_ Hd]. done. }
  assert (isAlive st1 !! w = Some false) as Hdown.
  { unfold st1, pingAll. rewrite ping_isAlive. by rewrite decide_True. }
  assert (accepted st1 w = true) as Hacc1.
  { destruct w; cbn in *; by rewrite ?Hal1, ?Hvl1. }
  split_and!.
  - unfold pingAll. rewrite ping_trace by done. cbn [app].
    apply list_elem_of_fmap. exists w. split; [|done].
    unfold pingEffect. by rewrite decide_False.
  - unfold pingAll at 1. rewrite ping_trace by done. cbn [app].
    apply list_elem_of_fmap. exists w. split; [|done].
    unfold pingEffect. by rewrite decide_True.
  - unfold pingAll at 1. rewrite ping_heartbeats by done.
    intros [_ Hx]. apply Hx. done.
  - cbn [handle]. rewrite Hacc1. cbn [fst].
    unfold pingAll at 1. rewrite ping_trace by done. cbn [app].
    apply list_elem_of_fmap. exists w. split; [|done].
    unfold pingEffect. cbn. rewrite lookup_insert_eq.
    by rewrite decide_False.
  - cbn [handle]. rewrite Hacc1. cbn [fst].
    unfold pingAll at 1. rewrite ping_trace by done. cbn [app].
    intros Hx. apply list_elem_of_fmap in Hx as (w' & Hx & _).
    unfold pingEffect in Hx. cbn in Hx.
    destruct (decide (w' = w)) as [->|Hne].
    + rewrite lookup_insert_eq in Hx. by rewrite decide_False in Hx.
    + case_decide; [|done]. congruence.
  - cbn [handle]. rewrite Hacc1. cbn [fst].
    unfold pingAll at 1. rewrite ping_heartbeats by done. split; [done|].
    cbn. rewrite lookup_insert_eq. intros [_ Hd]. done.
Qed.

Lemma unanswered_ping_terminates_witness :
  Ping (AgentWs 1) ∈ (pingAll (after defaultConfig paired_stream)).2 ∧
  Terminate (AgentWs 1)
  ∈ (pingAll (pingAll (after defaultConfig paired_stream)).1).2 ∧
  (AgentWs 1
   ∉ heartbeats (pingAll (pingAll (after defaultConfig paired_stream)).1).1) ∧
  Ping (AgentWs 1)
  ∈ (pingAll (handle defaultConfig
                (pingAll (after defaultConfig paired_stream)).1
                (SocketPong (AgentWs 1))).1).2 ∧
  (Terminate (AgentWs 1)
   ∉ (pingAll (handle defaultConfig
                 (pingAll (after defaultConfig paired_stream)).1
                 (SocketPong (AgentWs 1))).1).2) ∧
  AgentWs 1
  ∈ heartbeats (pingAll (handle defaultConfig
                           (pingAll (after defaultConfig paired_stream)).1
                           (SocketPong (AgentWs 1))).1).1.
Proof.
  apply (unanswered_ping_terminates defaultConfig
           (after defaultConfig paired_stream) (AgentWs 1)).
  - apply (bool_decide_unpack _). vm_compute. exact I.
  - apply (bool_decide_unpack _). vm_compute. exact I.
  - vm_compute. discriminate.
  - vm_compute. reflexivity.
Defined.

(** *** The watched sockets in reachable states *)

Lemma live_shut w0 st w : live (set_readyState (shut w0) st) w = live st w.
Proof.
  unfold live. cbn. destruct (decide (w0 = w)) as [->|Hne].
  - rewrite shut_lookup_eq. by destruct (readyState st !! w) as [[]|].
  - by rewrite shut_lookup_ne.
Qed.

(** A state that differs in the tables and alive flags only. *)
Lemma Watched_same st st' :
  heartbeats st' = heartbeats st →
  readyState st' = readyState st →
  agentListeners st' = agentListeners st →
  viewerListeners st' = viewerListeners st →
  Watched st → Watched st'.
Proof.
  intros Hh Hr Ha Hv [H1 H2 H3]. split; rewrite Hh; [done| |].
  - intros w Hw. specialize (H2 w Hw). destruct w; cbn in *; by rewrite ?Ha, ?Hv.
  - intros w Hw. specialize (H3 w Hw). unfold live in *. by rewrite Hr.
Qed.

Lemma Watched_shut w0 st : Watched st → Watched (set_readyState (shut w0) st).
Proof.
  intros [H1 H2 H3]. split; [done | done |].
  intros w Hw. rewrite live_shut. by apply H3.
Qed.

Lemma Watched_unwatch w0 rs st :
  Watched st →
  Watched (set_heartbeats (set_delete w0) (set_readyState <[w0 := rs]> st)).
Proof.
  intros [H1 H2 H3]. split; cbn.
  - by apply NoDup_filter.
  - intros w Hw. apply list_elem_of_filter in Hw as [_ Hw]. by apply H2.
  - intros w Hw. apply list_elem_of_filter in Hw as [Hne Hw].
    specialize (H3 w Hw). unfold live in *. cbn.
    by rewrite lookup_insert_ne.
Qed.

Lemma Watched_unknown_closed w0 st :
  accepted st w0 = false →
  Watched st → Watched (set_readyState <[w0 := CLOSED]> st).
Proof.
  intros Hacc [H1 H2 H3]. split; [done | done |].
  intros w Hw. specialize (H3 w Hw). unfold live in *. cbn.
  rewrite lookup_insert_ne; [done|]. intros ->.
  apply H2 in Hw. congruence.
Qed.

Lemma Watched_new w0 st :
  readyState st !! w0 = None →
  Watched st → Watched (set_readyState <[w0 := OPEN]> st).
Proof.
  intros Hnew [H1 H2 H3]. split; [done | done |].
  intros w Hw. specialize (H3 w Hw). unfold live in *. cbn.
  rewrite lookup_insert_ne; [done|]. intros ->. by rewrite Hnew in H3.
Qed.

Lemma set_add_NoDup w (l : list ws) : NoDup l → NoDup (set_add w l).
Proof.
  intros Hnd. unfold set_add. case_decide as Hin; [done|].
  apply NoDup_app. split_and!; [done | | apply NoDup_singleton].
  intros x Hx Hx'. apply list_elem_of_singleton in Hx'. by subst.
Qed.

Lemma set_add_elem w (l : list ws) x : x ∈ set_add w l ↔ x = w ∨ x ∈ l.
Proof.
  unfold set_add. case_decide as Hin.
  - split; [auto|]. intros [->|?]; done.
  - rewrite elem_of_app, list_elem_of_singleton. tauto.
Qed.

(** Watching a socket that is live and about to get its listeners. *)
Lemma Watched_attach w0 st st' :
  heartbeats st' = set_add w0 (heartbeats st) →
  readyState st' = readyState st →
  accepted st' w0 = true →
  (∀ w, accepted st w = true → accepted st' w = true) →
  live st w0 = true →
  Watched st → Watched st'.
Proof.
  intros Hh Hr Hacc Hmono Hlive [H1 H2 H3]. split; rewrite Hh.
  - by apply set_add_NoDup.
  - intros w Hw. apply set_add_elem in Hw as [->|Hw]; [done|].
    by apply Hmono, H2.
  - intros w Hw. unfold live. rewrite Hr.
    apply set_add_elem in Hw as [->|Hw]; [done|]. by apply H3.
Qed.

Ltac same_watched H :=
  refine (Watched_same _ _ _ _ _ _ H); reflexivity.

Lemma Watched_pingOne acc w : Watched acc.1 → Watched (pingOne acc w).1.
Proof.
  destruct acc as [st out]. cbn [fst]. intros HW.
  unfold pingOne. case_decide; cbn [fst ws_terminate].
  - destruct (Watched_shut w st HW) as [H1 H2 H3]. split; cbn.
    + by apply NoDup_filter.
    + intros w' Hw'. apply list_elem_of_filter in Hw' as [_ Hw']. by apply H2.
    + intros w' Hw'. apply list_elem_of_filter in Hw' as [_ Hw']. by apply H3.
  - by apply (Watched_same st).
Qed.

Lemma Watched_sweepOne now acc e : Watched acc.1 → Watched (sweepOne now acc e).1.
Proof.
  destruct acc as [st out], e as [sid x]. cbn [fst]. intros HW.
  unfold sweepOne. case_bool_decide; [|done].
  destruct (viewers st !! sid) as [v|]; cbn [ws_close].
  - apply (Watched_shut (ViewerWs v)) in HW.
    case_bool_decide; cbn [fst]; same_watched HW.
  - case_bool_decide; cbn [fst]; by apply (Watched_same st).
Qed.

Lemma Watched_handle cfg st ev :
  enabled st ev = true → Watched st → Watched (handle cfg st ev).1.
Proof.
  intros Hen HW. destruct ev; cbn [handle enabled] in *.
  - unfold postToken.
    destruct (negb (requireAuth cfg req)); [done|].
    destruct (negb (truthy (body_deviceId req))); [done|].
    by apply (Watched_same st).
  - apply bool_decide_eq_true_1 in Hen.
    apply (Watched_new (AgentWs a)) in HW; [|done].
    unfold onAgentConnected. destruct (negb _ || _).
    { by apply Watched_shut. }
    set (st0 := set_readyState _ st) in *.
    set (d := default "" _).
    assert (∃ st1 o1,
      match agents st0 !! d with
      | Some existing => ws_terminate st0 (AgentWs existing)
      | None => (st0, [])
      end = (st1, o1) ∧ Watched st1 ∧ live st1 (AgentWs a) = true)
      as (st1 & o1 & -> & HW1 & Hlive1).
    { destruct (agents st0 !! d) as [ex|]; eexists _, _; (split; [done|]).
      - split; [by apply Watched_shut|]. rewrite live_shut.
        unfold live, st0. cbn. by rewrite lookup_insert_eq.
      - split; [done|]. unfold live, st0. cbn. by rewrite lookup_insert_eq. }
    cbn [fst]. apply (Watched_attach (AgentWs a) st1); try done.
    + cbn. apply bool_decide_eq_true_2. rewrite lookup_insert_eq. eauto.
    + intros [a'|v']; cbn; [|done]. intros Hacc.
      apply bool_decide_eq_true_1 in Hacc. apply bool_decide_eq_true_2.
      destruct (decide (a = a')) as [->|Hne].
      * rewrite lookup_insert_eq. eauto.
      * by rewrite lookup_insert_ne.
  - apply bool_decide_eq_true_1 in Hen.
    apply (Watched_new (ViewerWs v)) in HW; [|done].
    set (st0 := set_readyState _ st) in *.
    unfold onViewerConnected.
    destruct (if truthy sessionId then _ else _) as [x|];
      [|by apply Watched_shut].
    destruct (negb _ || _); [by apply Watched_shut|].
    cbn [fst]. apply (Watched_attach (ViewerWs v) st0); try done.
    + cbn. apply bool_decide_eq_true_2. rewrite lookup_insert_eq. eauto.
    + intros [a'|v']; cbn; [done|]. intros Hacc.
      apply bool_decide_eq_true_1 in Hacc. apply bool_decide_eq_true_2.
      destruct (decide (v = v')) as [->|Hne].
      * rewrite lookup_insert_eq. eauto.
      * by rewrite lookup_insert_ne.
    + unfold live, st0. cbn. by rewrite lookup_insert_eq.
  - destruct (agentListeners st !! a); [|done].
    by rewrite agentOnMessage_state.
  - destruct (viewerListeners st !! v) as [[s d]|]; [|done].
    unfold viewerOnMessage. destruct parsed as [msg|]; [|done].
    destruct (bool_decide (action msg = Some "start")).
    { destruct (truthy _ && _ && _); [done|].
      destruct (sendToAgent _ d _) as [[] o]; by apply (Watched_same st). }
    destruct (bool_decide (action msg = Some "stop")).
    { by apply (Watched_same st). }
    by destruct (bool_decide (action msg = Some "status")).
  - destruct (accepted st w); [|done]. by apply (Watched_same st).
  - destruct w as [a|v].
    + destruct (agentListeners st !! a) as [d|] eqn:Ha.
      * apply (Watched_unwatch (AgentWs a) CLOSED) in HW.
        unfold agentOnClose.
        destruct (activeSessionByDevice _ !! d) as [s|]; cbn [fst].
        -- destruct (truthy (Some s)); [|same_watched HW].
           destruct (viewers _ !! s);
             same_watched HW.
        -- same_watched HW.
      * apply Watched_unknown_closed; [|done]. cbn.
        apply bool_decide_eq_false_2. rewrite Ha. by intros [? ?].
    + destruct (viewerListeners st !! v) as [[s d]|] eqn:Hv.
      * apply (Watched_unwatch (ViewerWs v) CLOSED) in HW.
        unfold viewerOnClose. case_bool_decide; cbn [fst];
          same_watched HW.
      * apply Watched_unknown_closed; [|done]. cbn.
        apply bool_decide_eq_false_2. rewrite Hv. by intros [? ?].
  - unfold cleanupExpiredSessions.
    apply (fold_left_preserves (λ acc, Watched acc.1)); [|done].
    intros acc e. apply Watched_sweepOne.
  - unfold pingAll.
    apply (fold_left_preserves (λ acc, Watched acc.1)); [|done].
    intros acc e. apply Watched_pingOne.
Qed.

Lemma Watched_init : Watched init.
Proof.
  split; cbn; [constructor | |]; intros w Hw; by apply elem_of_nil in Hw.
Qed.

(** X13: in every reachable state the liveness monitor watches each socket
    once, and only sockets that were authenticated and whose ['close'] event
    has not been handled; so a round of it pings or terminates only such
    sockets, and each of them once. *)
Theorem watched_sockets cfg st :
  reachable cfg st →
  Watched st ∧
  NoDup (pingAll st).2 ∧
  (∀ e, e ∈ (pingAll st).2 →
        ∃ w, (e = Ping w ∨ e = Terminate w) ∧ accepted st w = true ∧
             live st w = true).
Proof.
  intros Hreach.
  assert (Watched st) as HW.
  { induction Hreach as [|st ev _ IH Hen]; [apply Watched_init|].
    by apply Watched_handle. }
  split; [done|]. destruct HW as [H1 H2 H3].
  unfold pingAll. rewrite ping_trace by done. cbn [app]. split.
  - apply NoDup_fmap_2_strong; [|done].
    intros w w' _ _. unfold pingEffect. repeat case_decide; congruence.
  - intros e He. apply list_elem_of_fmap in He as (w & -> & Hw).
    exists w. split_and!; [|by apply H2 | by apply H3].
    unfold pingEffect. case_decide; auto.
Qed.

Lemma watched_sockets_witness :
  Watched (after defaultConfig half_open_device) ∧
  NoDup (pingAll (after defaultConfig half_open_device)).2 ∧
  (∀ e, e ∈ (pingAll (after defaultConfig half_open_device)).2 →
        ∃ w, (e = Ping w ∨ e = Terminate w) ∧
             accepted (after defaultConfig half_open_device) w = true ∧
             live (after defaultConfig half_open_device) w = true).
Proof.
  apply (watched_sockets defaultConfig (after defaultConfig half_open_device)).
  apply after_reachable.
Defined.

(** ** More on the sweep and on connections *)

Lemma sweep_nothing now l : ∀ st out,
  (∀ e, e ∈ l → ¬ expiresAt e.2 < now) →
  fold_left (sweepOne now) l (st, out) = (st, out).
Proof.
  induction l as [|[sid x] l IH]; intros st out Hl; [done|].
  cbn [fold_left]. unfold sweepOne at 2.
  rewrite bool_decide_eq_false_2 by (apply (Hl (sid, x)); left).
  apply IH. intros e He. apply Hl. by right.
Qed.

(** X14: a sweep leaves no session that it would remove: a second sweep at
    the same or an earlier time changes nothing and emits nothing. *)
Theorem sweep_idempotent cfg st now now' :
  reachable cfg st →
  now' ≤ now →
  (∀ k x, JsMap.get k (sessions (cleanupExpiredSessions st now).1) = Some x →
          now ≤ expiresAt x) ∧
  cleanupExpiredSessions (cleanupExpiredSessions st now).1 now'
  = ((cleanupExpiredSessions st now).1, []).
Proof.
  intros Hreach Hle. apply reachable_Inv in Hreach as HI.
  pose proof (Inv_cleanupExpiredSessions st now HI) as HI'.
  assert (∀ k x,
            JsMap.get k (sessions (cleanupExpiredSessions st now).1) = Some x →
            now ≤ expiresAt x) as Hleft.
  { intros k x Hget. unfold cleanupExpiredSessions in Hget.
    rewrite sweep_sessions in Hget.
    destruct (existsb (expires now k) (sessions st)) eqn:Hex; [done|].
    destruct (Z_lt_le_dec (expiresAt x) now) as [Hlt|]; [|done].
    assert (existsb (expires now k) (sessions st) = true) as Hex'.
    { apply existsb_elem. exists (k, x).
      split; [by apply JsMapFacts.get_Some_elem|].
      by apply bool_decide_eq_true_2. }
    congruence. }
  split; [done|].
  unfold cleanupExpiredSessions at 1. apply sweep_nothing.
  intros [k x] He. cbn [snd].
  apply (JsMapFacts.elem_get _ _ _ (inv_sessions _ HI')) in He.
  apply Hleft in He. lia.
Qed.

Lemma sweep_idempotent_witness :
  (∀ k x,
     JsMap.get k
       (sessions (cleanupExpiredSessions (after defaultConfig two_viewers)
                    400000).1) = Some x →
     400000 ≤ expiresAt x) ∧
  cleanupExpiredSessions
    (cleanupExpiredSessions (after defaultConfig two_viewers) 400000).1 400000
  = ((cleanupExpiredSessions (after defaultConfig two_viewers) 400000).1, []).
Proof.
  apply (sweep_idempotent defaultConfig (after defaultConfig two_viewers)
           400000 400000).
  - apply after_reachable.
  - lia.
Defined.

(** X15: a viewer that presents a stored session, its token, and comes no
    later than the expiry is registered for the session and watched, and is
    told whether a socket is registered for the device at that moment.  The
    session stays in the store, no pairing is made, and a socket registered
    for the session before is replaced without being closed. *)
Theorem viewer_accepted cfg st v sid x now :
  sid ≠ "" →
  JsMap.get sid (sessions st) = Some x →
  now ≤ expiresAt x →
  (handle cfg st (ViewerConnection v (Some sid) (Some (token x)) now)).2
  = [Send (ViewerWs v)
       (MViewerConnected (deviceId x) sid
          (bool_decide (is_Some (agents st !! deviceId x))))] ∧
  viewers (handle cfg st (ViewerConnection v (Some sid) (Some (token x)) now)).1
    !! sid = Some v ∧
  viewerListeners
    (handle cfg st (ViewerConnection v (Some sid) (Some (token x)) now)).1 !! v
  = Some (sid, deviceId x) ∧
  ViewerWs v
  ∈ heartbeats
      (handle cfg st (ViewerConnection v (Some sid) (Some (token x)) now)).1 ∧
  sessions (handle cfg st (ViewerConnection v (Some sid) (Some (token x)) now)).1
  = sessions st ∧
  activeSessionByDevice
    (handle cfg st (ViewerConnection v (Some sid) (Some (token x)) now)).1
  = activeSessionByDevice st.
Proof.
  intros Hsid Hget Hnow. cbn [handle]. unfold onViewerConnected.
  rewrite (proj2 (truthy_Some sid) Hsid).
  change (default "" (Some sid)) with sid. cbn [sessions set_readyState].
  rewrite Hget. rewrite bool_decide_eq_true_2 by done.
  rewrite bool_decide_eq_false_2 by lia. cbn [negb orb fst snd].
  split_and!; try done.
  - cbn. apply lookup_insert_eq.
  - cbn. apply lookup_insert_eq.
  - cbn. apply set_add_elem. by left.
Qed.

Lemma viewer_accepted_witness :
  (handle defaultConfig (after defaultConfig one_session)
     (ViewerConnection 1 (Some "s1") (Some "t1") 10)).2
  = [Send (ViewerWs 1)
       (MViewerConnected "dev" "s1"
          (bool_decide
             (is_Some (agents (after defaultConfig one_session) !! "dev"))))] ∧
  viewers (handle defaultConfig (after defaultConfig one_session)
             (ViewerConnection 1 (Some "s1") (Some "t1") 10)).1 !! "s1"
  = Some 1%nat ∧
  viewerListeners
    (handle defaultConfig (after defaultConfig one_session)
       (ViewerConnection 1 (Some "s1") (Some "t1") 10)).1 !! 1%nat
  = Some ("s1", "dev") ∧
  ViewerWs 1
  ∈ heartbeats
      (handle defaultConfig (after defaultConfig one_session)
         (ViewerConnection 1 (Some "s1") (Some "t1") 10)).1 ∧
  sessions (handle defaultConfig (after defaultConfig one_session)
              (ViewerConnection 1 (Some "s1") (Some "t1") 10)).1
  = sessions (after defaultConfig one_session) ∧
  activeSessionByDevice
    (handle defaultConfig (after defaultConfig one_session)
       (ViewerConnection 1 (Some "s1") (Some "t1") 10)).1
  = activeSessionByDevice (after defaultConfig one_session).
Proof.
  apply (viewer_accepted defaultConfig (after defaultConfig one_session) 1
           "s1" {| deviceId := "dev"; token := "t1"; userId := "alice";
                   expiresAt := 300000 |} 10).
  - discriminate.
  - vm_compute. reflexivity.
  - simpl. lia.
Defined.

(** X16: in every reachable state a socket is registered for at most one
    device, and for at most one session; the store holds each session
    identifier once; and a pairing never names the empty session
    identifier. *)
Theorem registrations_unique cfg st :
  reachable cfg st →
  (∀ d1 d2 a, agents st !! d1 = Some a → agents st !! d2 = Some a → d1 = d2) ∧
  (∀ s1 s2 v, viewers st !! s1 = Some v → viewers st !! s2 = Some v → s1 = s2) ∧
  NoDup (JsMap.keys (sessions st)) ∧
  (∀ d, activeSessionByDevice st !! d ≠ Some "").
Proof.
  intros Hreach. apply reachable_Inv in Hreach as HI. split_and!.
  - intros d1 d2 a H1 H2.
    apply (inv_agents _ HI) in H1, H2. congruence.
  - intros s1 s2 v H1 H2.
    apply (inv_viewers _ HI) in H1 as [? H1], H2 as [? H2]. congruence.
  - apply (inv_sessions _ HI).
  - intros d Hd. by apply (inv_active _ HI) in Hd.
Qed.

Lemma registrations_unique_witness :
  (∀ d1 d2 a, agents (after defaultConfig two_viewers) !! d1 = Some a →
              agents (after defaultConfig two_viewers) !! d2 = Some a →
              d1 = d2) ∧
  (∀ s1 s2 v, viewers (after defaultConfig two_viewers) !! s1 = Some v →
              viewers (after defaultConfig two_viewers) !! s2 = Some v →
              s1 = s2) ∧
  NoDup (JsMap.keys (sessions (after defaultConfig two_viewers))) ∧
  (∀ d, activeSessionByDevice (after defaultConfig two_viewers) !! d ≠ Some "").
Proof.
  apply (registrations_unique defaultConfig (after defaultConfig two_viewers)).
  apply after_reachable.
Defined.

End RouterFacts.

(** * Properties of the viewer side *)

Module OpusFacts.
Import Opus.

Lemma u8_byte_of_Z z : Client.u8 (byte_of_Z z) = z mod 256.
Proof.
  unfold byte_of_Z, Client.u8.
  assert (0 <= z mod 256 < 256) as Hr by (apply Z.mod_pos_bound; lia).
  destruct (Byte.of_N (Z.to_N (z mod 256))) as [b|] eqn:E.
  - cbn. apply Byte.to_of_N in E. rewrite E. lia.
  - apply Byte.of_N_None_iff in E. lia.
Qed.

Lemma le_bytes4 z :
  z mod 256 + 256 * ((z / 256) mod 256
    + 256 * ((z / 65536) mod 256 + 256 * ((z / 65536 / 256) mod 256)))
  = z mod 2 ^ 32.
Proof.
  change (2 ^ 32) with (256 * (256 * (256 * 256))).
  rewrite (Z.rem_mul_r z 256 (256 * (256 * 256))) by lia.
  rewrite (Z.rem_mul_r (z / 256) 256 (256 * 256)) by lia.
  rewrite (Z.rem_mul_r (z / 256 / 256) 256 256) by lia.
  rewrite !Z.div_div by lia.
  change (256 * 256) with 65536. change (65536 * 256) with 16777216.
  lia.
Qed.

(** The header, byte by byte. *)
Lemma buildOpusHead_bytes sampleRate channels :
  buildOpusHead sampleRate channels
  = [ x4f; x70; x75; x73; x48; x65; x61; x64; x01; byte_of_Z channels;
      x38; x01;
      byte_of_Z sampleRate; byte_of_Z (sampleRate / 256);
      byte_of_Z (sampleRate / 65536); byte_of_Z (sampleRate / 65536 / 256);
      x00; x00; x00 ].
Proof. reflexivity. Qed.

(** X17: the identification header built for the decoder is 19 bytes long,
    starts with "OpusHead" and version 1, and carries the channel count in
    byte 9, the pre-skip 312 in bytes 10-11 and the sample rate in bytes
    12-15, little-endian, so that reading them back gives the arguments
    (modulo 2^8 and 2^32); output gain and mapping family are zero. *)
Theorem opus_head_layout sampleRate channels :
  length (buildOpusHead sampleRate channels) = 19%nat ∧
  take 8 (buildOpusHead sampleRate channels)
  = [x4f; x70; x75; x73; x48; x65; x61; x64] ∧
  Client.getUint8 (buildOpusHead sampleRate channels) 8 = 1 ∧
  Client.getUint8 (buildOpusHead sampleRate channels) 9 = channels mod 2 ^ 8 ∧
  Client.le (take 2 (drop 10 (buildOpusHead sampleRate channels))) = 312 ∧
  Client.getUint32 (buildOpusHead sampleRate channels) 12
  = sampleRate mod 2 ^ 32 ∧
  drop 16 (buildOpusHead sampleRate channels) = [x00; x00; x00].
Proof.
  rewrite buildOpusHead_bytes. split_and!; try reflexivity.
  - unfold Client.getUint8. cbn [drop take firstn skipn Client.le].
    rewrite u8_byte_of_Z. change (2 ^ 8) with 256. lia.
  - unfold Client.getUint32. cbn [drop take firstn skipn Client.le].
    rewrite !u8_byte_of_Z. rewrite <- le_bytes4. lia.
Qed.

(** The header [init()] configures the decoder with: 48 kHz, two channels. *)
Example opus_head_48k_stereo :
  buildOpusHead 48000 2
  = [ x4f; x70; x75; x73; x48; x65; x61; x64; x01; x02; x38; x01;
      x80; xbb; x00; x00; x00; x00; x00 ].
Proof. reflexivity. Qed.

End OpusFacts.

Module PlayerFacts.
Import Player Stream PlayerSpec.

(** X18: after [reset()] the next frame sets the playout origin anew: it
    starts at the clock plus the jitter budget and becomes the base of the
    presentation times, whatever the playhead was; audio scheduled before
    the reset to end later than that is not waited for. *)
Theorem reset_restarts_origin p now0 now a :
  ready p = true →
  (0 <= jitterSec p)%Q →
  (startAt (reset p now0) now a == now + jitterSec p)%Q ∧
  playStart (handleDecoded (reset p now0) now a).1 = (now + jitterSec p)%Q ∧
  baseTimestampUs (handleDecoded (reset p now0) now a).1
  = Some (timestampUs a) ∧
  (playHead (handleDecoded (reset p now0) now a).1
   == now + jitterSec p + duration a)%Q ∧
  ((now + jitterSec p < playHead p)%Q →
   (startAt (reset p now0) now a < playHead p)%Q).
Proof.
  intros Hr Hj.
  assert (startAt (reset p now0) now a == now + jitterSec p)%Q as E.
  { by apply (first_startAt (reset p now0)). }
  assert (ready (reset p now0) = true) as Hr' by done.
  rewrite (handleDecoded_ready _ now a Hr'). cbn [fst playStart playHead
    baseTimestampUs]. unfold prime. cbn [baseTimestampUs reset jitterSec].
  split_and!; try done.
  - rewrite E. reflexivity.
  - intros Hlt. rewrite E. exact Hlt.
Qed.

Lemma reset_restarts_origin_witness :
  (startAt (reset (handleDecoded initialised 0 (frame20 0)).1 (1 # 100))
     (2 # 100) (frame20 500)
   == (2 # 100) + jitterSec (handleDecoded initialised 0 (frame20 0)).1)%Q.
Proof.
  refine (proj1 (reset_restarts_origin
                   (handleDecoded initialised 0%Q (frame20 0)).1
                   (1 # 100)%Q (2 # 100)%Q (frame20 500) _ _)).
  - reflexivity.
  - vm_compute. discriminate.
Defined.

(** X19: a frame is never started in the past, nor before its target time,
    and it is started at one of the clock, the playhead and the target; a
    frame handled in time, with clock and playhead not past its target,
    starts exactly at its target, the playout origin plus its presentation
    offset. *)
Theorem frame_start_bounds p now a :
  ready p = true →
  (handleDecoded p now a).2 = [SrcStart (startAt p now a) a; DataClose] ∧
  (now <= startAt p now a)%Q ∧
  (targetTime (prime p now a) a <= startAt p now a)%Q ∧
  (startAt p now a == now ∨ startAt p now a == playHead (prime p now a)
   ∨ startAt p now a == targetTime (prime p now a) a)%Q ∧
  ((now <= targetTime (prime p now a) a)%Q →
   (playHead (prime p now a) <= targetTime (prime p now a) a)%Q →
   (startAt p now a
    == playStart (prime p now a)
       + (timestampUs a - default 0 (baseTimestampUs (prime p now a)))
         / 1000000)%Q).
Proof.
  intros Hr. rewrite handleDecoded_ready by done. unfold startAt.
  set (p1 := prime p now a).
  split_and!; [done | apply max3_ge_l | apply max3_ge_r | apply max3_cases |].
  intros H1 H2. apply max3_eq; try done.
  - apply Qle_refl.
  - right; right. reflexivity.
Qed.

Lemma frame_start_bounds_witness :
  (handleDecoded initialised 0 (frame20 0)).2
  = [SrcStart (startAt initialised 0 (frame20 0)) (frame20 0); DataClose] ∧
  (0 <= startAt initialised 0 (frame20 0))%Q ∧
  (targetTime (prime initialised 0 (frame20 0)) (frame20 0)
   <= startAt initialised 0 (frame20 0))%Q ∧
  (startAt initialised 0 (frame20 0) == 0
   ∨ startAt initialised 0 (frame20 0)
     == playHead (prime initialised 0 (frame20 0))
   ∨ startAt initialised 0 (frame20 0)
     == targetTime (prime initialised 0 (frame20 0)) (frame20 0))%Q ∧
  ((0 <= targetTime (prime initialised 0 (frame20 0)) (frame20 0))%Q →
   (playHead (prime initialised 0 (frame20 0))
    <= targetTime (prime initialised 0 (frame20 0)) (frame20 0))%Q →
   (startAt initialised 0 (frame20 0)
    == playStart (prime initialised 0 (frame20 0))
       + (timestampUs (frame20 0)
          - default 0 (baseTimestampUs (prime initialised 0 (frame20 0))))
         / 1000000)%Q).
Proof.
  apply (frame_start_bounds initialised 0%Q (frame20 0)).
  reflexivity.
Defined.





End PlayerFacts.

Module ClientFacts.
Import Client Session ClientSpec.

Lemma handleBinary_dropped env st buffer :
  parse env buffer = None → handleBinary env st buffer = (st, []).
Proof. intros H. unfold handleBinary. by rewrite H. Qed.

Lemma handleBinary_frame env st buffer f :
  parse env buffer = Some f →
  state (handleBinary env st buffer).1 = "streaming" ∧
  decoder (handleBinary env st buffer).1 = decoder st ∧
  onStatus (handleBinary env st buffer).1 = onStatus st ∧
  statuses (handleBinary env st buffer).2
  = (if onStatus st && negb (String.eqb (state st) "streaming")
     then ["streaming"] else []) ∧
  decoded (handleBinary env st buffer).2
  = (if decoder st then [(timestampMs f * 1000, payload f)] else []).
Proof.
  intros H. unfold handleBinary, enqueue, setState. rewrite H.
  destruct (String.eqb_spec (state st) "streaming") as [E|E];
    destruct (decoder st) eqn:Hd, (onStatus st) eqn:Ho; cbn;
    by rewrite ?E, ?Hd, ?Ho.
Qed.

Lemma statuses_app o1 o2 : statuses (o1 ++ o2) = statuses o1 ++ statuses o2.
Proof. unfold statuses. apply omap_app. Qed.

Lemma decoded_app o1 o2 : decoded (o1 ++ o2) = decoded o1 ++ decoded o2.
Proof. unfold decoded. apply omap_app. Qed.

Lemma receive_cons env st buffer rest :
  receive env st (buffer :: rest)
  = ((receive env (handleBinary env st buffer).1 rest).1,
     (handleBinary env st buffer).2
     ++ (receive env (handleBinary env st buffer).1 rest).2).
Proof.
  cbn [receive]. destruct (handleBinary env st buffer) as [st1 o1].
  cbn [fst snd]. by destruct (receive env st1 rest).
Qed.

(** X21: over any run of binary messages the client hands the decoder the
    payload of every message it does not drop, in order and with the
    timestamp in microseconds, and calls [onStatus] at most once: with
    'streaming', at the first such message, when it was not streaming
    before. *)
Theorem stream_of_messages env st buffers :
  decoded (receive env st buffers).2
  = (if decoder st
     then (λ f, (timestampMs f * 1000, payload f)) <$> frames env buffers
     else []) ∧
  statuses (receive env st buffers).2
  = (if onStatus st && negb (String.eqb (state st) "streaming")
        && bool_decide (frames env buffers ≠ [])
     then ["streaming"] else []) ∧
  state (receive env st buffers).1
  = (if bool_decide (frames env buffers ≠ []) then "streaming" else state st).
Proof.
  revert st. induction buffers as [|buffer rest IH]; intros st.
  { cbn. destruct (decoder st); by rewrite ?andb_false_r. }
  rewrite receive_cons. cbn [fst snd]. rewrite decoded_app, statuses_app.
  unfold frames in *. cbn [omap list_omap].
  destruct (parse env buffer) as [f|] eqn:Hp.
  - destruct (handleBinary_frame env st buffer f Hp)
      as (Hs & Hd & Ho & Hst & Hdec).
    destruct (IH (handleBinary env st buffer).1) as (IH1 & IH2 & IH3).
    rewrite IH1, IH2, IH3, Hs, Hd, Ho, Hst, Hdec.
    rewrite (bool_decide_eq_true_2 (f :: _ ≠ [])) by done.
    cbn [String.eqb negb andb]. rewrite andb_false_r, andb_true_r.
    split_and!.
    + destruct (decoder st); [by rewrite fmap_cons | done].
    + cbn. by rewrite app_nil_r.
    + by destruct (bool_decide _).
  - rewrite (handleBinary_dropped env st buffer Hp). cbn [fst snd app].
    apply IH.
Qed.

Lemma toNumber_sign z :
  (0 < z → 0 < toNumber z) ∧ (z < 0 → toNumber z < 0).
Proof.
  unfold toNumber.
  destruct (Z.ltb_spec (Z.abs z) (2 ^ 53)) as [|Hbig]; [lia|].
  set (a := Z.abs z) in *.
  set (e := Z.log2 a - 52).
  assert (0 < a) as Ha by lia.
  assert (53 <= Z.log2 a) as Hlog.
  { apply Z.log2_le_pow2; lia. }
  assert (0 < 2 ^ e) as He by (apply Z.pow_pos_nonneg; lia).
  assert (2 ^ e <= a) as Hle.
  { pose proof (Z.log2_spec a Ha) as [Hl _].
    eapply Z.le_trans; [|exact Hl].
    apply Z.pow_le_mono_r; lia. }
  assert (1 <= a / 2 ^ e) as Hq.
  { apply Z.div_le_lower_bound; lia. }
  cbv zeta. fold a. fold e.
  destruct (_ || _).
  all: split; intros Hz.
  all: rewrite ?(Z.sgn_pos z), ?(Z.sgn_neg z) by done; nia.
Qed.

Lemma wire_timestamp_range buffer : 0 <= wire_timestamp buffer < 2 ^ 64.
Proof.
  assert (∀ i, 0 <= byte_at buffer i < 256) as H.
  { intros i. unfold byte_at. destruct (buffer !! i) as [b|]; cbn; [|lia].
    apply u8_range. }
  unfold wire_timestamp.
  pose proof (H 5%nat). pose proof (H 6%nat). pose proof (H 7%nat).
  pose proof (H 8%nat). pose proof (H 9%nat). pose proof (H 10%nat).
  pose proof (H 11%nat). pose proof (H 12%nat). lia.
Qed.

Lemma wire_timestamp_top buffer :
  wire_timestamp buffer < 2 ^ 63 ↔ byte_at buffer 12 < 128.
Proof.
  assert (∀ i, 0 <= byte_at buffer i < 256) as H.
  { intros i. unfold byte_at. destruct (buffer !! i) as [b|]; cbn; [|lia].
    apply u8_range. }
  unfold wire_timestamp.
  pose proof (H 5%nat). pose proof (H 6%nat). pose proof (H 7%nat).
  pose proof (H 8%nat). pose proof (H 9%nat). pose proof (H 10%nat).
  pose proof (H 11%nat). pose proof (H 12%nat). lia.
Qed.

(** X22: the two ways [handleBinary] reads the timestamp, with
    [getBigInt64] and from two 32-bit halves, give the same frame, and so
    the same decoder input, exactly when the top bit of byte 12 is clear;
    with that bit set the first gives a negative timestamp and the second
    a positive one. *)
Theorem timestamp_paths st buffer :
  (13 ≤ length buffer)%nat →
  head buffer = Some x01 →
  ∃ f g,
    parse {| hasGetBigInt64 := true |} buffer = Some f ∧
    parse {| hasGetBigInt64 := false |} buffer = Some g ∧
    seq f = seq g ∧ payload f = payload g ∧
    0 <= timestampMs g ∧
    (byte_at buffer 12 < 128 →
     f = g ∧
     handleBinary {| hasGetBigInt64 := true |} st buffer
     = handleBinary {| hasGetBigInt64 := false |} st buffer) ∧
    (128 <= byte_at buffer 12 → timestampMs f < 0 < timestampMs g).
Proof.
  intros Hlen Hhead.
  destruct (long_message buffer Hlen)
    as (b0 & b1 & b2 & b3 & b4 & b5 & b6 & b7 & b8 & b9 & b10 & b11 & b12
        & rest & ->).
  injection Hhead as ->.
  set (buffer := x01 :: _) in *.
  pose proof (wire_timestamp_range buffer) as Hr.
  pose proof (wire_timestamp_top buffer) as Htop.
  assert (parse {| hasGetBigInt64 := true |} buffer
          = Some {| seq := wire_seq buffer;
                    timestampMs := toNumber (signed64 (wire_timestamp buffer));
                    payload := rest |}) as Hf.
  { unfold buffer. by rewrite parse_long. }
  assert (parse {| hasGetBigInt64 := false |} buffer
          = Some {| seq := wire_seq buffer;
                    timestampMs := toNumber (wire_timestamp buffer);
                    payload := rest |}) as Hg.
  { unfold buffer. by rewrite parse_long. }
  eexists _, _. split; [exact Hf|]. split; [exact Hg|].
  cbn [seq payload timestampMs]. split_and!; try done.
  - destruct (Z.eq_dec (wire_timestamp buffer) 0) as [->|Hne]; [done|].
    pose proof (proj1 (toNumber_sign (wire_timestamp buffer))). lia.
  - intros Hb. apply Htop in Hb.
    assert (signed64 (wire_timestamp buffer) = wire_timestamp buffer) as E.
    { unfold signed64. destruct (Z.ltb_spec (wire_timestamp buffer) (2 ^ 63));
        [done | lia]. }
    split.
    + by rewrite E.
    + unfold handleBinary. rewrite Hf, Hg, E. done.
  - intros Hb.
    assert (¬ wire_timestamp buffer < 2 ^ 63) as Hn by (rewrite Htop; lia).
    assert (signed64 (wire_timestamp buffer) = wire_timestamp buffer - 2 ^ 64)
      as E.
    { unfold signed64. destruct (Z.ltb_spec (wire_timestamp buffer) (2 ^ 63));
        [lia | done]. }
    rewrite E. split.
    + apply toNumber_sign. lia.
    + apply toNumber_sign. lia.
Qed.

Lemma timestamp_paths_witness :
  ∃ f g,
    parse {| hasGetBigInt64 := true |} sample_message = Some f ∧
    parse {| hasGetBigInt64 := false |} sample_message = Some g ∧
    seq f = seq g ∧ payload f = payload g ∧
    0 <= timestampMs g ∧
    (byte_at sample_message 12 < 128 →
     f = g ∧
     handleBinary {| hasGetBigInt64 := true |}
       {| state := "starting"; decoder := true; onStatus := true |}
       sample_message
     = handleBinary {| hasGetBigInt64 := false |}
         {| state := "starting"; decoder := true; onStatus := true |}
         sample_message) ∧
    (128 <= byte_at sample_message 12 → timestampMs f < 0 < timestampMs g).
Proof.
  apply (timestamp_paths
           {| state := "starting"; decoder := true; onStatus := true |}
           sample_message).
  - cbn. lia.
  - reflexivity.
Defined.

End ClientFacts.

Module UiFacts.
Import Ui.

Lemma eqb_neq (s t : string) : s ≠ t → String.eqb s t = false.
Proof. intros H. by apply String.eqb_neq. Qed.

(** X23: an error frame of the router, whatever its reason, puts the
    mounted client in state 'error' and leaves the note 'Error starting
    audio': the reason is written to the note first and overwritten by the
    status callback; the toggle reads 'Start Audio', is enabled and starts
    a new attempt. A client without an [onError] callback ignores error
    frames: neither its state nor the widget changes. *)
Theorem router_error_frame st w r :
  Client.onStatus st = true →
  Client.state (handleText true st (of_router (Router.MError r))).1 = "error" ∧
  (handleText true st (of_router (Router.MError r))).2
  = [OnError (if String.eqb r "" then "Stream error" else r);
     Callback (Client.Status "error")] ∧
  shown w (handleText true st (of_router (Router.MError r))).2
  = updateStatus "error" ∧
  note (shown w (handleText true st (of_router (Router.MError r))).2)
  = "Error starting audio" ∧
  onToggleClick
    (Client.state (handleText true st (of_router (Router.MError r))).1)
  = CallStart ∧
  handleText false st (of_router (Router.MError r)) = (st, []).
Proof.
  intros Ho. unfold shown, handleText, of_router, Client.setState.
  cbn [type reason].
  rewrite bool_decide_eq_false_2 by done.
  rewrite bool_decide_eq_true_2 by done. cbn [andb fst snd Client.state].
  rewrite Ho. split_and!; try done.
  destruct r; reflexivity.
Qed.

Lemma router_error_frame_witness :
  note (shown (updateStatus "starting")
          (handleText true
             {| Client.state := "starting"; Client.decoder := true;
                Client.onStatus := true |}
             (of_router (Router.MError "agent not connected"))).2)
  = "Error starting audio".
Proof.
  refine (proj1 (proj2 (proj2 (proj2
    (router_error_frame
       {| Client.state := "starting"; Client.decoder := true;
          Client.onStatus := true |}
       (updateStatus "starting") "agent not connected" _))))).
  reflexivity.
Defined.

(** X24: a status frame with state 'error' shows its reason: the mounted
    client goes to state 'error' and the note ends as the frame's reason,
    or 'Agent error' when the frame has none; the toggle is enabled and
    starts a new attempt. *)
Theorem error_status_frame st w r :
  Client.onStatus st = true →
  let frame := Some {| type := Some "status"; mstate := Some "error";
                       reason := r |} in
  Client.state (handleText true st frame).1 = "error" ∧
  note (shown w (handleText true st frame).2)
  = (if truthy r then default "" r else "Agent error") ∧
  toggleText (shown w (handleText true st frame).2) = "Start Audio" ∧
  toggleDisabled (shown w (handleText true st frame).2) = false ∧
  onToggleClick (Client.state (handleText true st frame).1) = CallStart.
Proof.
  intros Ho frame. unfold shown, frame, handleText, Client.setState.
  cbn [type mstate reason].
  rewrite !bool_decide_eq_true_2 by done. rewrite Ho.
  cbn [andb fst snd Client.state]. split_and!; try done.
  destruct r as [[|c r]|]; reflexivity.
Qed.

Lemma error_status_frame_witness :
  note (shown (updateStatus "streaming")
          (handleText true
             {| Client.state := "streaming"; Client.decoder := true;
                Client.onStatus := true |}
             (Some {| type := Some "status"; mstate := Some "error";
                      reason := Some "capture failed" |})).2)
  = "capture failed".
Proof.
  refine (proj1 (proj2
    (error_status_frame
       {| Client.state := "streaming"; Client.decoder := true;
          Client.onStatus := true |}
       (updateStatus "streaming") (Some "capture failed") _))).
  reflexivity.
Defined.

(** X25: a status frame with a non-empty state other than 'error' makes
    that state the client's and the widget the one [updateStatus] draws for
    it. The toggle is disabled only in 'starting' and reads 'Stop Audio'
    only in 'streaming', while a click starts only in 'idle': in every
    other state, 'agent_disconnected' among them, the toggle reads 'Start
    Audio', is enabled, and a click calls [stop]. *)
Theorem status_frame st w onError s r :
  Client.onStatus st = true →
  s ≠ "" → s ≠ "error" →
  let frame := Some {| type := Some "status"; mstate := Some s;
                       reason := r |} in
  Client.state (handleText onError st frame).1 = s ∧
  shown w (handleText onError st frame).2 = updateStatus s ∧
  (toggleDisabled (updateStatus s) = true ↔ s = "starting") ∧
  (toggleText (updateStatus s) = "Stop Audio" ↔ s = "streaming") ∧
  (onToggleClick s = CallStart ↔ s = "idle") ∧
  (s ≠ "starting" → s ≠ "streaming" → s ≠ "idle" →
   toggleText (updateStatus s) = "Start Audio" ∧
   toggleDisabled (updateStatus s) = false ∧
   onToggleClick s = CallStop).
Proof.
  intros Ho Hs He frame. unfold shown, frame, handleText, Client.setState.
  cbn [type mstate reason].
  rewrite bool_decide_eq_true_2 by done.
  rewrite (bool_decide_eq_false_2 (Some s = Some "error")) by congruence.
  rewrite Ho. cbn [andb fst snd Client.state].
  assert (default "" (js_or (Some s) (Some "unknown")) = s) as ->.
  { destruct s; [done | reflexivity]. }
  split; [done|]. split; [reflexivity|].
  unfold updateStatus, onToggleClick.
  rewrite (eqb_neq s "error" He).
  destruct (String.eqb_spec s "streaming") as [->|H1];
    [cbn; split_and!; try done; intros; done|].
  destruct (String.eqb_spec s "starting") as [->|H2];
    [cbn; split_and!; try done; intros; done|].
  destruct (String.eqb_spec s "agent_disconnected") as [->|H3];
    [cbn; split_and!; try done; intros; done|].
  destruct (String.eqb_spec s "idle") as [->|H4];
    [cbn; split_and!; try done; intros; done|].
  cbn. split_and!; try done; naive_solver.
Qed.

Lemma status_frame_witness :
  toggleText (updateStatus "agent_disconnected") = "Start Audio" ∧
  toggleDisabled (updateStatus "agent_disconnected") = false ∧
  onToggleClick "agent_disconnected" = CallStop.
Proof.
  refine (proj2 (proj2 (proj2 (proj2 (proj2
    (status_frame
       {| Client.state := "streaming"; Client.decoder := true;
          Client.onStatus := true |}
       (updateStatus "streaming") true "agent_disconnected" None _ _ _)))))
    _ _ _); try reflexivity; discriminate.
Defined.

End UiFacts.
